(** * mcp-web-autotest: the test orchestration engine of [server.ts]

    A shallow embedding of the orchestration core of
    [src/autotest/src/server.ts]: the page table kept in the global
    [state], the step runner, the plan executor ([test_plan_run]), the
    suite executor ([test_suite_run]) and the JUnit report builder
    ([buildJUnit], [escapeXml], [sanitizeFilename]).

    Conventions.
    - JavaScript strings are modelled as [string] (bytes of the UTF-8
      encoding).  Every character the code inspects is ASCII, and a
      non-ASCII character is a run of bytes above 127, so the functions
      below agree with the source on UTF-8 text.
    - An exception is modelled by its message ([e?.message ?? String(e)]
      is the only thing the code ever reads from one).
    - Calls into Playwright and the file system are decided by a script
      of replies carried by the [World]; an exhausted script means that
      the call succeeds. *)

From Stdlib Require Import String Ascii List ZArith Lia Bool Arith DecimalString Sorted.
From Stdlib Require DecimalNat DecimalFacts.

Import ListNotations.

Open Scope string_scope.

(* ================================================================== *)
(** * Part I: the program *)

(** ** Strings *)

Definition dquote : ascii := "034"%char.

Definition squote : ascii := "039"%char.

Definition dq : string := String dquote EmptyString.

(** Template literals [`${n}`] for a non-negative integer. *)
Definition string_of_nat (n : nat) : string :=
  NilZero.string_of_uint (Nat.to_uint n).

(** [s.replace(/c/g, rep)] for a one-character pattern. *)
Fixpoint replace_all (c : ascii) (rep : string) (s : string) : string :=
  match s with
  | EmptyString => EmptyString
  | String a rest =>
      if Ascii.eqb a c then rep ++ replace_all c rep rest
      else String a (replace_all c rep rest)
  end.

(** [escapeXml], server.ts 593-595: five global replacements, the
    ampersand first. *)
Definition escapeXml (s : string) : string :=
  replace_all squote "&apos;"
    (replace_all dquote "&quot;"
       (replace_all ">" "&gt;"
          (replace_all "<" "&lt;"
             (replace_all "&" "&amp;" s)))).

Definition in_range (lo hi : nat) (a : ascii) : bool :=
  (lo <=? nat_of_ascii a)%nat && (nat_of_ascii a <=? hi)%nat.

(** The complement of the class [[^a-zA-Z0-9-_\.]] of [sanitizeFilename]. *)
Definition filename_char (a : ascii) : bool :=
  in_range 97 122 a || in_range 65 90 a || in_range 48 57 a
  || Ascii.eqb a "-" || Ascii.eqb a "_" || Ascii.eqb a ".".

(** [s.replace(/[^a-zA-Z0-9-_\.]+/g, "_")]: every maximal run of
    characters outside the class becomes one underscore.  [in_run] tells
    that the previous character already belonged to such a run. *)
Fixpoint collapse_runs (in_run : bool) (s : string) : string :=
  match s with
  | EmptyString => EmptyString
  | String a rest =>
      if filename_char a then String a (collapse_runs false rest)
      else if in_run then collapse_runs true rest
      else String "_" (collapse_runs true rest)
  end.

(** [sanitizeFilename], server.ts 597-599. *)
Definition sanitizeFilename (name : string) : string :=
  substring 0 100 (collapse_runs false name).

(** [s] ends with [suffix]. *)
Definition ends_with (suffix s : string) : bool :=
  let n := String.length s in
  let m := String.length suffix in
  (m <=? n)%nat && String.eqb (substring (n - m) m s) suffix.

(** [s.split("/")] *)
Fixpoint segments (s : string) : list string :=
  match s with
  | EmptyString => [EmptyString]
  | String a rest =>
      if Ascii.eqb a "/" then EmptyString :: segments rest
      else match segments rest with
           | seg :: more => String a seg :: more
           | [] => [String a EmptyString]
           end
  end.

(** The segment loop of Node's [normalizeString]: empty segments and
    [.] are dropped, [..] removes the segment kept last, or is kept
    itself where the path may climb above its start.  [kept] holds the
    segments kept so far, the last one first. *)
Fixpoint normalize_segments (allowAboveRoot : bool) (kept : list string)
    (segs : list string) : list string :=
  match segs with
  | [] => rev kept
  | seg :: rest =>
      if String.eqb seg "" || String.eqb seg "." then
        normalize_segments allowAboveRoot kept rest
      else if String.eqb seg ".." then
        match kept with
        | top :: below =>
            if String.eqb top ".." then
              normalize_segments allowAboveRoot
                (if allowAboveRoot then ".." :: kept else kept) rest
            else normalize_segments allowAboveRoot below rest
        | [] =>
            normalize_segments allowAboveRoot
              (if allowAboveRoot then [".."] else []) rest
        end
      else normalize_segments allowAboveRoot (seg :: kept) rest
  end.

(** [path.charCodeAt(path.length - 1) === 47] *)
Fixpoint ends_in_slash (s : string) : bool :=
  match s with
  | EmptyString => false
  | String a EmptyString => Ascii.eqb a "/"
  | String _ rest => ends_in_slash rest
  end.

(** [path.charCodeAt(0) === 47] *)
Definition starts_with_slash (s : string) : bool :=
  match s with
  | String a _ => Ascii.eqb a "/"
  | EmptyString => false
  end.

(** [path.posix.normalize] *)
Definition normalize (path : string) : string :=
  if String.eqb path "" then "."
  else
    let isAbsolute := starts_with_slash path in
    let trailingSeparator := ends_in_slash path in
    let p := String.concat "/"
               (normalize_segments (negb isAbsolute) [] (segments path)) in
    if String.eqb p "" then
      if isAbsolute then "/" else if trailingSeparator then "./" else "."
    else
      (if isAbsolute then "/" else "") ++ p
        ++ (if trailingSeparator then "/" else "").

(** [path.join(dir, file)] on a POSIX host ([path.posix.join]): the
    non-empty arguments are joined by a slash and the result is
    normalised. *)
Definition path_join (dir file : string) : string :=
  if String.eqb dir "" then
    if String.eqb file "" then "." else normalize file
  else if String.eqb file "" then normalize dir
  else normalize (dir ++ "/" ++ file).

(** Number of (possibly overlapping) occurrences of [pat] in [s]. *)
Fixpoint occurrences (pat s : string) : nat :=
  match s with
  | EmptyString => 0
  | String _ rest =>
      (if prefix pat s then 1 else 0) + occurrences pat rest
  end.

(** ** Result records

    [results.setup], [results.tests] and [results.teardown] hold plain
    JavaScript objects.  The step runner pushes [{name, ok}] or
    [{name, ok, message}]; the suite loop pushes
    [{name, ok, error, artifacts}].  A single record with optional
    fields covers both shapes, the way the untyped arrays do. *)

Record Entry := mkEntry {
  name : string;
  ok : bool;
  message : option string;
  error : option string;
  artifacts : option (list string)
}.

Definition step_ok (n : string) : Entry :=
  mkEntry n true None None None.

Definition step_failed (n msg : string) : Entry :=
  mkEntry n false (Some msg) None None.

Definition test_entry (n : string) (o : bool) (err : option string)
    (arts : list string) : Entry :=
  mkEntry n o None err (Some arts).

Record Results := mkResults {
  r_setup : list Entry;
  r_tests : list Entry;
  r_teardown : list Entry;
  r_junit : option string
}.

(** ** Report builder *)

(** [typeof t.ok === "boolean"]: every record above has a boolean [ok]. *)
Definition typeof_ok_is_boolean (t : Entry) : bool := true.

(** [t.error || "error"]: an absent or empty message falls back. *)
Definition error_or_default (t : Entry) : string :=
  match error t with
  | Some e => if String.eqb e "" then "error" else e
  | None => "error"
  end.

Definition testcase (t : Entry) : string :=
  if ok t then
    "<testcase name=" ++ dq ++ escapeXml (name t) ++ dq ++ "/>"
  else
    "<testcase name=" ++ dq ++ escapeXml (name t) ++ dq
      ++ "><failure message=" ++ dq ++ escapeXml (error_or_default t) ++ dq
      ++ "/></testcase>".

Definition junit_header (testsCount failures : nat) : string :=
  "<?xml version=" ++ dq ++ "1.0" ++ dq ++ " encoding=" ++ dq ++ "UTF-8" ++ dq
    ++ "?><testsuite name=" ++ dq ++ "mcp-web-autotest" ++ dq
    ++ " tests=" ++ dq ++ string_of_nat testsCount ++ dq
    ++ " failures=" ++ dq ++ string_of_nat failures ++ dq ++ ">".

(** [buildJUnit], server.ts 585-591. *)
Definition buildJUnit (results : Results) : string :=
  let tests := filter typeof_ok_is_boolean (r_tests results) in
  let testsCount := length tests in
  let failures := length (filter (fun t => negb (ok t)) tests) in
  let cases := String.concat "" (map testcase tests) in
  junit_header testsCount failures ++ cases ++ "</testsuite>".

(** ** Step descriptions *)

(** Values of [z.any()]: what a step's argument object may hold. *)
#[warnings="-register-all"]

Inductive json :=
| JNull
| JBool (b : bool)
| JNum (n : Z)
| JStr (s : string)
| JArr (items : list json)
| JObj (fields : list (string * json)).

(** [z.record(z.any())]: an object as its key/value pairs. *)
Definition Args := list (string * json).

Record Step := mkStep {
  step_name : string;
  step_arguments : option Args
}.

Record Test := mkTest {
  test_name : string;
  test_steps : list Step
}.

(** ** The global browser state and the outside world *)

Definition Browser := nat.

Definition Page := nat.

(** [BrowserContextState], server.ts 15-20.  [pages] is a JavaScript
    [Map]: an association list in insertion order. *)
Record BrowserContextState := mkState {
  browser : option Browser;
  page : option Page;
  pages : list (string * Page);
  currentPageId : option string
}.

(** server.ts 22-27. *)
Definition initial_state : BrowserContextState :=
  mkState None None [] None.

(** [Map.prototype.get]. *)
Fixpoint map_get (k : string) (m : list (string * Page)) : option Page :=
  match m with
  | [] => None
  | (k', v) :: rest => if String.eqb k' k then Some v else map_get k rest
  end.

(** [Map.prototype.set]: an existing key keeps its position, a new key
    goes last. *)
Fixpoint map_set (k : string) (v : Page) (m : list (string * Page))
    : list (string * Page) :=
  match m with
  | [] => [(k, v)]
  | (k', v') :: rest =>
      if String.eqb k' k then (k, v) :: rest else (k', v') :: map_set k v rest
  end.

(** [Map.prototype.delete]. *)
Definition map_delete (k : string) (m : list (string * Page))
    : list (string * Page) :=
  filter (fun kv => negb (String.eqb (fst kv) k)) m.

(** [m.keys().next().value]. *)
Definition map_first_key (m : list (string * Page)) : option string :=
  match m with
  | [] => None
  | (k, _) :: _ => Some k
  end.

(** The options handed to [chromium.launch]. *)
Record LaunchOptions := mkLaunch {
  lo_headless : bool;
  lo_args : list string
}.

(** What an awaited driver or file-system call does. *)
Inductive Reply :=
| Done
| Fails (msg : string).

Record World := mkWorld {
  state : BrowserContextState;
  pageIdCounter : nat;             (* server.ts 29 *)
  fresh : nat;                     (* next unused browser/page handle *)
  script : list Reply;             (* replies of the calls still to come *)
  launches : list LaunchOptions;   (* calls of chromium.launch so far *)
  written : list (string * string);(* files written by fs.writeFile *)
  now : nat;                       (* Date.now() *)
  cwd : string                     (* process.cwd() *)
}.

Definition set_state (s : BrowserContextState) (w : World) : World :=
  mkWorld s (pageIdCounter w) (fresh w) (script w) (launches w) (written w)
    (now w) (cwd w).

Definition set_pageIdCounter (n : nat) (w : World) : World :=
  mkWorld (state w) n (fresh w) (script w) (launches w) (written w)
    (now w) (cwd w).

Definition set_fresh (n : nat) (w : World) : World :=
  mkWorld (state w) (pageIdCounter w) n (script w) (launches w) (written w)
    (now w) (cwd w).

Definition set_script (l : list Reply) (w : World) : World :=
  mkWorld (state w) (pageIdCounter w) (fresh w) l (launches w) (written w)
    (now w) (cwd w).

Definition add_launch (o : LaunchOptions) (w : World) : World :=
  mkWorld (state w) (pageIdCounter w) (fresh w) (script w)
    (launches w ++ [o]) (written w) (now w) (cwd w).

Definition add_written (p c : string) (w : World) : World :=
  mkWorld (state w) (pageIdCounter w) (fresh w) (script w) (launches w)
    (written w ++ [(p, c)]) (now w) (cwd w).

Definition set_browser (b : option Browser) (s : BrowserContextState) :=
  mkState b (page s) (pages s) (currentPageId s).

Definition set_page (p : option Page) (s : BrowserContextState) :=
  mkState (browser s) p (pages s) (currentPageId s).

Definition set_pages (m : list (string * Page)) (s : BrowserContextState) :=
  mkState (browser s) (page s) m (currentPageId s).

Definition set_currentPageId (i : option string) (s : BrowserContextState) :=
  mkState (browser s) (page s) (pages s) i.

(** ** State and exceptions *)

Inductive Outcome (A : Type) :=
| Return (a : A)
| Throw (e : string).

Arguments Return {A} a.

Arguments Throw {A} e.

Definition M (S A : Type) : Type := S -> Outcome A * S.

Section Monad.

Context {S : Type}.

Definition ret {A} (a : A) : M S A := fun s => (Return a, s).

Definition bind {A B} (m : M S A) (k : A -> M S B) : M S B :=
  fun s =>
    match m s with
    | (Return a, s') => k a s'
    | (Throw e, s') => (Throw e, s')
    end.

Definition throw {A} (e : string) : M S A := fun s => (Throw e, s).

(** [try { m } catch (e) { h e }]. *)
Definition try_catch {A} (m : M S A) (h : string -> M S A) : M S A :=
  fun s =>
    match m s with
    | (Return a, s') => (Return a, s')
    | (Throw e, s') => h e s'
    end.

(** Runs [m] and hands its outcome to the caller instead of raising. *)
Definition catching {A} (m : M S A) : M S (Outcome A) :=
  fun s => let (r, s') := m s in (Return r, s').

Definition gets {A} (f : S -> A) : M S A := fun s => (Return (f s), s).

Definition modify (f : S -> S) : M S unit := fun s => (Return tt, f s).

Definition when (b : bool) (m : M S unit) : M S unit :=
  if b then m else ret tt.

End Monad.

Declare Scope monad_scope.

Delimit Scope monad_scope with monad.

Notation "x <- c1 ;; c2" := (bind c1 (fun x => c2))
  (at level 61, c1 at next level, right associativity) : monad_scope.

Notation "c1 ;; c2" := (bind c1 (fun _ => c2))
  (at level 61, right associativity) : monad_scope.

Open Scope monad_scope.

(** JavaScript truthiness of optional booleans and strings. *)
Definition truthy (b : option bool) : bool :=
  match b with Some true => true | _ => false end.

Definition truthy_str (s : option string) : bool :=
  match s with Some s => negb (String.eqb s "") | None => false end.

(** [new McpError(code, msg).message], as built by the MCP SDK. *)
Definition InvalidRequest : string := "-32600".

Definition McpError (code msg : string) : string :=
  "MCP error " ++ code ++ ": " ++ msg.

(** ** Handlers that touch the page table *)

(** One awaited call into the driver or the file system: it consumes the
    next scripted reply. *)
Definition driver : M World unit :=
  fun w =>
    match script w with
    | [] => (Return tt, w)
    | Done :: rest => (Return tt, set_script rest w)
    | Fails msg :: rest => (Throw msg, set_script rest w)
    end.

(** A new object handed out by the driver. *)
Definition new_handle : M World nat :=
  fun w => (Return (fresh w), set_fresh (S (fresh w)) w).

Definition update_state (f : BrowserContextState -> BrowserContextState)
    : M World unit :=
  modify (fun w => set_state (f (state w)) w).

(** [nextPageId], server.ts 30-33. *)
Definition nextPageId : M World string :=
  n <- gets pageIdCounter ;;
  modify (set_pageIdCounter (S n)) ;;
  ret ("page" ++ string_of_nat n).

Definition no_browser_message : string :=
  McpError InvalidRequest "请先调用 browser_open 打开浏览器".

(** [ensurePage], server.ts 578-583. *)
Definition ensurePage : M World Page :=
  s <- gets state ;;
  match browser s, page s with
  | Some _, Some p => ret p
  | _, _ => throw no_browser_message
  end.

Record BrowserOpenInput := mkBrowserOpenInput {
  bo_headless : option bool;
  bo_disableExtensions : option bool;
  bo_args : option (list string);
  bo_lang : option string
}.

Definition string_of_bool (b : bool) : string :=
  if b then "true" else "false".

(** The argument list built at server.ts 212-221. *)
Definition launchArgs (input : BrowserOpenInput) : list string :=
  (if match bo_disableExtensions input with Some b => b | None => true end
   then ["--disable-extensions";
         "--disable-component-extensions-with-background-pages";
         "--disable-features=ExtensionsToolbarMenu"]
   else [])
  ++ (if truthy_str (bo_lang input)
      then ["--lang=" ++ match bo_lang input with Some l => l | None => "" end]
      else [])
  ++ match bo_args input with Some l => l | None => [] end.

(** [browser_open], server.ts 206-230. *)
Definition browser_open (input : BrowserOpenInput) : M World string :=
  s <- gets state ;;
  match browser s with
  | Some _ => driver                         (* state.browser.close() *)
  | None => ret tt
  end ;;
  let headless := false in
  let args := launchArgs input in
  modify (add_launch (mkLaunch headless args)) ;;
  driver ;;                                  (* chromium.launch *)
  b <- new_handle ;;
  update_state (set_browser (Some b)) ;;
  driver ;;                                  (* newContext *)
  driver ;;                                  (* newPage *)
  p <- new_handle ;;
  update_state (set_page (Some p)) ;;
  update_state (set_pages []) ;;
  defaultId <- nextPageId ;;
  update_state (fun s => set_pages (map_set defaultId p (pages s)) s) ;;
  update_state (set_currentPageId (Some defaultId)) ;;
  ret ("browser opened (headless=" ++ string_of_bool headless ++ ")").

(** [browser_close], server.ts 231-240. *)
Definition browser_close : M World string :=
  s <- gets state ;;
  match browser s with
  | Some _ =>
      driver ;;                              (* state.browser.close() *)
      update_state (set_browser None) ;;
      update_state (set_page None) ;;
      update_state (set_pages []) ;;
      update_state (set_currentPageId None)
  | None => ret tt
  end ;;
  ret "browser closed".

(** [page_new], server.ts 251-260. *)
Definition page_new (input_id : option string) : M World string :=
  _ <- ensurePage ;;
  driver ;;                                  (* context.newPage() *)
  newPage <- new_handle ;;
  id <- match input_id with
        | Some i => ret i
        | None => nextPageId
        end ;;
  update_state (fun s => set_pages (map_set id newPage (pages s)) s) ;;
  update_state (set_page (Some newPage)) ;;
  update_state (set_currentPageId (Some id)) ;;
  ret id.

(** [page_switch], server.ts 261-269. *)
Definition page_switch (input_id : string) : M World string :=
  s <- gets state ;;
  match map_get input_id (pages s) with
  | None => throw (McpError InvalidRequest ("未知 pageId: " ++ input_id))
  | Some target =>
      update_state (set_page (Some target)) ;;
      update_state (set_currentPageId (Some input_id)) ;;
      ret ("switched to " ++ input_id)
  end.

(** [page_close], server.ts 270-287.  [!id] holds for a missing id and
    for the empty string; [next ?? null] keeps an empty [next] while
    [next ? ... : null] does not. *)
Definition page_close (input_id : option string) : M World string :=
  s <- gets state ;;
  let id := match input_id with
            | Some i => Some i
            | None => currentPageId s
            end in
  match id with
  | None => throw (McpError InvalidRequest "没有可关闭的 pageId")
  | Some id =>
      if String.eqb id "" then
        throw (McpError InvalidRequest "没有可关闭的 pageId")
      else
        match map_get id (pages s) with
        | None => throw (McpError InvalidRequest ("未知 pageId: " ++ id))
        | Some p =>
            driver ;;                        (* p.close() *)
            update_state (fun s => set_pages (map_delete id (pages s)) s) ;;
            s1 <- gets state ;;
            match currentPageId s1 with
            | Some cur =>
                if String.eqb cur id then
                  let next := map_first_key (pages s1) in
                  update_state (set_currentPageId next) ;;
                  update_state
                    (set_page
                       (match next with
                        | Some n =>
                            if String.eqb n "" then None
                            else map_get n (pages s1)
                        | None => None
                        end))
                else ret tt
            | None => ret tt
            end ;;
            ret ("closed " ++ id)
        end
  end.

(** ** The tool table and argument parsing *)

(** The keys of [tools], server.ts 53-202; [handlers] has the same keys. *)
Definition tool_names : list string :=
  ["browser_open"; "browser_close"; "page_goto"; "page_click"; "page_type";
   "page_fill"; "page_assert"; "page_screenshot"; "page_eval";
   "page_wait_for"; "page_title_get"; "page_url_get"; "page_text_get";
   "page_attribute_get"; "page_viewport"; "page_new"; "page_switch";
   "page_close"; "tracing_start"; "tracing_stop"; "test_plan_run";
   "test_plan_run_file"; "test_suite_run"].

(** [tools] and [handlers] are object literals, so a lookup by an
    arbitrary string also finds what they inherit from
    [Object.prototype]: eleven functions and the accessor [__proto__]. *)
Definition object_prototype_functions : list string :=
  ["constructor"; "hasOwnProperty"; "isPrototypeOf"; "propertyIsEnumerable";
   "toLocaleString"; "toString"; "valueOf"; "__defineGetter__";
   "__defineSetter__"; "__lookupGetter__"; "__lookupSetter__"].

Definition mem (x : string) (l : list string) : bool :=
  existsb (String.eqb x) l.

(** [name] is a key of the [tools] literal itself. *)
Definition own_tool (n : string) : bool := mem n tool_names.

(** [(tools as any)[name]] is truthy. *)
Definition tool_found (n : string) : bool :=
  own_tool n || mem n object_prototype_functions || String.eqb n "__proto__".

(** [typeof handlers[name] === "function"]. *)
Definition handler_is_function (n : string) : bool :=
  own_tool n || mem n object_prototype_functions.

Definition unknown_tool : string := "未知工具".

(** What [tool.inputSchema.parse] raises when [tool] is an inherited
    member, which has no [inputSchema]. *)
Definition no_inputSchema : string :=
  "Cannot read properties of undefined (reading 'parse')".

(** The message of a [ZodError] is the JSON text of its issue list; only
    the fact that parsing failed matters here. *)
Definition zod_error : string := "ZodError".

Fixpoint field (k : string) (o : Args) : option json :=
  match o with
  | [] => None
  | (k', v) :: rest => if String.eqb k' k then Some v else field k rest
  end.

(** [z.boolean().optional()] *)
Definition zod_opt_boolean (k : string) (o : Args) : Outcome (option bool) :=
  match field k o with
  | None => Return None
  | Some (JBool b) => Return (Some b)
  | Some _ => Throw zod_error
  end.

(** [z.string().optional()] *)
Definition zod_opt_string (k : string) (o : Args) : Outcome (option string) :=
  match field k o with
  | None => Return None
  | Some (JStr s) => Return (Some s)
  | Some _ => Throw zod_error
  end.

(** [z.string()] *)
Definition zod_string (k : string) (o : Args) : Outcome string :=
  match field k o with
  | Some (JStr s) => Return s
  | _ => Throw zod_error
  end.

Fixpoint all_strings (l : list json) : option (list string) :=
  match l with
  | [] => Some []
  | JStr s :: rest =>
      match all_strings rest with
      | Some ss => Some (s :: ss)
      | None => None
      end
  | _ :: _ => None
  end.

(** [z.array(z.string()).optional()] *)
Definition zod_opt_strings (k : string) (o : Args)
    : Outcome (option (list string)) :=
  match field k o with
  | None => Return None
  | Some (JArr l) =>
      match all_strings l with
      | Some ss => Return (Some ss)
      | None => Throw zod_error
      end
  | Some _ => Throw zod_error
  end.

Definition lift_outcome {S A} (r : Outcome A) : M S A :=
  fun s => (r, s).

(** The schema of [browser_open], server.ts 57-62. *)
Definition parse_browser_open (o : Args) : M World BrowserOpenInput :=
  h <- lift_outcome (zod_opt_boolean "headless" o) ;;
  d <- lift_outcome (zod_opt_boolean "disableExtensions" o) ;;
  a <- lift_outcome (zod_opt_strings "args" o) ;;
  l <- lift_outcome (zod_opt_string "lang" o) ;;
  ret (mkBrowserOpenInput h d a l).

Section Server.

(** The remaining handlers (navigation, clicks, assertions, tracing,
    nested plans and suites) together with the parsing of their
    arguments: any state transformer, possibly raising. *)
Variable ext : string -> Args -> M World string.

(** [handlers[step.name](tool.inputSchema.parse(args))] for [name] a
    key of [tools]. *)
Definition call_tool (n : string) (args : Args) : M World string :=
  if String.eqb n "browser_open" then
    input <- parse_browser_open args ;; browser_open input
  else if String.eqb n "browser_close" then
    browser_close
  else if String.eqb n "page_new" then
    id <- lift_outcome (zod_opt_string "id" args) ;; page_new id
  else if String.eqb n "page_switch" then
    id <- lift_outcome (zod_string "id" args) ;; page_switch id
  else if String.eqb n "page_close" then
    id <- lift_outcome (zod_opt_string "id" args) ;; page_close id
  else ext n args.

(** [step.arguments ?? {}] *)
Definition arguments_of (step : Step) : Args :=
  match step_arguments step with
  | Some a => a
  | None => []
  end.

(** *** Plan executor *)

Record PlanEntry := mkPlanEntry {
  pe_step : nat;
  pe_name : string;
  pe_ok : bool;
  pe_message : string
}.

Record PlanInput := mkPlanInput {
  plan_steps : list Step;
  plan_continueOnError : option bool
}.

(** What [test_plan_run] leaves behind: the [results] array, the
    numbers of the steps whose handler call (server.ts 534-535) was
    reached, and the world. *)
Record PlanRun := mkPlanRun {
  plan_results : list PlanEntry;
  plan_called : list nat;
  plan_world : World
}.

(** The [for] loop of server.ts 525-541; [i] is the loop index. *)
Fixpoint plan_loop (continueOnError : option bool) (i : nat)
    (steps : list Step) (w : World) : PlanRun :=
  match steps with
  | [] => mkPlanRun [] [] w
  | step :: rest =>
      let n := step_name step in
      if negb (tool_found n) || negb (handler_is_function n) then
        let entry := mkPlanEntry (i + 1) n false unknown_tool in
        if negb (truthy continueOnError) then mkPlanRun [entry] [] w
        else
          let r := plan_loop continueOnError (S i) rest w in
          mkPlanRun (entry :: plan_results r) (plan_called r) (plan_world r)
      else if negb (own_tool n) then
        (* stepTool.inputSchema is undefined: parse raises *)
        let entry := mkPlanEntry (i + 1) n false no_inputSchema in
        if negb (truthy continueOnError) then mkPlanRun [entry] [] w
        else
          let r := plan_loop continueOnError (S i) rest w in
          mkPlanRun (entry :: plan_results r) (plan_called r) (plan_world r)
      else
        match call_tool n (arguments_of step) w with
        | (Return _, w1) =>
            let entry := mkPlanEntry (i + 1) n true "ok" in
            let r := plan_loop continueOnError (S i) rest w1 in
            mkPlanRun (entry :: plan_results r) ((i + 1) :: plan_called r)
              (plan_world r)
        | (Throw e, w1) =>
            let entry := mkPlanEntry (i + 1) n false e in
            if negb (truthy continueOnError) then
              mkPlanRun [entry] [i + 1] w1
            else
              let r := plan_loop continueOnError (S i) rest w1 in
              mkPlanRun (entry :: plan_results r) ((i + 1) :: plan_called r)
                (plan_world r)
        end
  end.

(** [test_plan_run], server.ts 523-543. *)
Definition test_plan_run (input : PlanInput) (w : World) : PlanRun :=
  plan_loop (plan_continueOnError input) 0 (plan_steps input) w.

(** *** Suite executor *)

(** The input of [test_suite_run], server.ts 187-200.  [retries] is an
    integer here; the loop treats a fractional budget as its integer
    part rounded down.  The schema ([z.number()]) also admits
    [Infinity]; that budget has no counterpart here (see
    [finite_budget] below). *)
Record SuiteInput := mkSuiteInput {
  setup : option (list Step);
  tests : list Test;
  teardown : option (list Step);
  continueOnError : option bool;
  retries : option Z;
  junit : option bool;
  junitPath : option string;
  autoBrowser : option bool;
  headless : option bool;
  artifactsDir : option string;
  onFailureScreenshot : option bool;
  traceOnFailure : option bool
}.

Inductive Phase := Setup | TestPhase | Teardown.

(** Control points of one [test_suite_run] call, in the order in which
    the call passes them. *)
Inductive Event :=
| EvAcquire                              (* server.ts 464 *)
| EvRunSteps (p : Phase)                 (* runSteps is entered *)
| EvInvoke (p : Phase) (tool : string)   (* server.ts 453-454 *)
| EvAttempt (test : string) (attempt : nat)  (* the try of 475 is entered *)
| EvRelease.                             (* server.ts 519 *)

(** The state of one call: the world, the local [results] object and
    the control points passed so far. *)
Record Ctx := mkCtx {
  world : World;
  results : Results;
  events : list Event
}.

Definition liftW {A} (m : M World A) : M Ctx A :=
  fun c =>
    let (r, w) := m (world c) in
    (r, mkCtx w (results c) (events c)).

Definition emit (e : Event) : M Ctx unit :=
  modify (fun c => mkCtx (world c) (results c) (events c ++ [e])).

Definition update_results (f : Results -> Results) : M Ctx unit :=
  modify (fun c => mkCtx (world c) (f (results c)) (events c)).

(** The [push] of server.ts 455 and 457: the array is chosen by the
    phase, and the test phase shares [results.tests] with the
    per-test records of line 508. *)
Definition push (p : Phase) (e : Entry) : M Ctx unit :=
  update_results
    (fun r =>
       match p with
       | TestPhase =>
           mkResults (r_setup r) (r_tests r ++ [e]) (r_teardown r) (r_junit r)
       | Setup =>
           mkResults (r_setup r ++ [e]) (r_tests r) (r_teardown r) (r_junit r)
       | Teardown =>
           mkResults (r_setup r) (r_tests r) (r_teardown r ++ [e]) (r_junit r)
       end).

Section Suite.

Variable input : SuiteInput.

(** The loop of [runSteps], server.ts 448-460. *)
Fixpoint runSteps_loop (steps : list Step) (phase : Phase) : M Ctx unit :=
  match steps with
  | [] => ret tt
  | step :: rest =>
      let n := step_name step in
      try_catch
        (when (negb (tool_found n)) (throw unknown_tool) ;;
         when (negb (own_tool n)) (throw no_inputSchema) ;;
         emit (EvInvoke phase n) ;;
         liftW (call_tool n (arguments_of step)) ;;
         push phase (step_ok n))
        (fun e =>
           push phase (step_failed n e) ;;
           when (negb (truthy (continueOnError input))) (throw e)) ;;
      runSteps_loop rest phase
  end.

(** [runSteps], server.ts 447-461. *)
Definition runSteps (steps : list Step) (phase : Phase) : M Ctx unit :=
  emit (EvRunSteps phase) ;;
  runSteps_loop steps phase.

(** [input.retries ?? 0] *)
Definition retries_of : Z :=
  match retries input with
  | Some r => r
  | None => 0%Z
  end.

(** The locals of the loop of server.ts 472-473. *)
Record Locals := mkLocals {
  attempt : nat;
  l_ok : bool;
  lastErr : option string;
  testArtifacts : list string
}.

Definition artifact_file (dir : string) (test : Test) (n : nat)
    (suffix : string) : string :=
  path_join dir
    (sanitizeFilename (test_name test) ++ "_attempt" ++ string_of_nat n
       ++ suffix).

(** server.ts 489-496: at most one file name, never an exception. *)
Definition capture_screenshot (dir : string) (test : Test) (n : nat)
    : M Ctx (list string) :=
  if truthy (onFailureScreenshot input) then
    try_catch
      (_ <- liftW ensurePage ;;
       liftW driver ;;                   (* page.screenshot *)
       ret [artifact_file dir test n ".png"])
      (fun _ => ret [])
  else ret [].

(** server.ts 497-504. *)
Definition capture_trace (dir : string) (test : Test) (n : nat)
    : M Ctx (list string) :=
  if truthy (traceOnFailure input) then
    try_catch
      (_ <- liftW ensurePage ;;
       liftW driver ;;                   (* tracing.stop({path}) *)
       ret [artifact_file dir test n "_trace.zip"])
      (fun _ => ret [])
  else ret [].

(** The [catch] block of server.ts 487-506; the boolean tells whether
    the [break] of line 505 is taken. *)
Definition on_failure (dir : string) (test : Test) (e : string)
    (l : Locals) : M Ctx (bool * Locals) :=
  let n := S (attempt l) in
  shot <- capture_screenshot dir test n ;;
  zip <- capture_trace dir test n ;;
  ret (Z.ltb retries_of (Z.of_nat n),
       mkLocals n (l_ok l) (Some e) (testArtifacts l ++ shot ++ zip)).

(** server.ts 476-479 and 482-485. *)
Definition tracing (m : M World unit) : M Ctx unit :=
  when (truthy (traceOnFailure input)) (_ <- liftW ensurePage ;; liftW m).

(** One pass through the body of the [while] of server.ts 474-507;
    the boolean tells whether the loop is left by a [break]. *)
Definition attempt_once (dir : string) (test : Test) (l : Locals)
    : M Ctx (bool * Locals) :=
  emit (EvAttempt (test_name test) (attempt l)) ;;
  r <- catching (tracing driver ;; runSteps (test_steps test) TestPhase) ;;
  match r with
  | Throw e => on_failure dir test e l
  | Return _ =>
      let l1 := mkLocals (attempt l) true (lastErr l) (testArtifacts l) in
      r2 <- catching (tracing driver) ;;
      match r2 with
      | Return _ => ret (true, l1)
      | Throw e => on_failure dir test e l1
      end
  end.

(** The [while] loop, by recursion on a bound on the passes left. *)
Fixpoint attempt_loop (fuel : nat) (dir : string) (test : Test)
    (l : Locals) : M Ctx Locals :=
  match fuel with
  | O => ret l
  | S fuel' =>
      if Z.leb (Z.of_nat (attempt l)) retries_of then
        r <- attempt_once dir test l ;;
        if fst r then ret (snd r)
        else attempt_loop fuel' dir test (snd r)
      else ret l
  end.

(** The budgets for which the recursion below is the loop of server.ts
    474-507: an integer below 2^53.  In the code [attempt] is a double
    and stops growing at 2^53, so with a budget from 2^53 on, or with
    [Infinity], the loop does not end on a test that keeps failing and
    the call never comes back.  What is proved about a suite leaving its
    test loop is proved for these budgets. *)
Definition finite_budget : Prop := (retries_of < 2 ^ 53)%Z.

(** Every failed pass increments [attempt], so [retries + 1] passes
    are enough for a finite budget. *)
Definition attempts_bound : nat := Z.to_nat (retries_of + 1).

(** [lastErr?.message ?? String(lastErr)] *)
Definition lastErr_message (e : option string) : string :=
  match e with
  | Some m => m
  | None => "null"
  end.

(** The body of the [for] of server.ts 471-510 for one test; the
    boolean tells whether the [break] of line 509 is taken. *)
Definition run_test (dir : string) (test : Test) : M Ctx bool :=
  l <- attempt_loop attempts_bound dir test (mkLocals 0 false None []) ;;
  push TestPhase
    (test_entry (test_name test) (l_ok l)
       (if l_ok l then None else Some (lastErr_message (lastErr l)))
       (testArtifacts l)) ;;
  ret (negb (l_ok l) && negb (truthy (continueOnError input))).

Fixpoint tests_loop (dir : string) (ts : list Test) : M Ctx unit :=
  match ts with
  | [] => ret tt
  | test :: rest =>
      stop <- run_test dir test ;;
      if stop then ret tt else tests_loop dir rest
  end.

(** [input.setup?.length] and [input.teardown?.length] *)
Definition nonempty (steps : option (list Step)) : bool :=
  match steps with
  | Some (_ :: _) => true
  | _ => false
  end.

Definition steps_of (steps : option (list Step)) : list Step :=
  match steps with
  | Some l => l
  | None => []
  end.

(** [input.autoBrowser ?? true] *)
Definition shouldAutoBrowser : bool :=
  match autoBrowser input with
  | Some b => b
  | None => true
  end.

(** server.ts 463-465. *)
Definition acquire : M Ctx unit :=
  b <- gets (fun c => browser (state (world c))) ;;
  when (shouldAutoBrowser && match b with None => true | Some _ => false end)
    (emit EvAcquire ;;
     liftW (browser_open (mkBrowserOpenInput (headless input) None None None)) ;;
     ret tt).

(** server.ts 467-470; [ensureDir] swallows the failure of [mkdir]. *)
Definition resolve_artifactsDir : M Ctx string :=
  w <- gets world ;;
  let dir := match artifactsDir input with
             | Some d => d
             | None => path_join (cwd w) ("artifacts_" ++ string_of_nat (now w))
             end in
  when (truthy (onFailureScreenshot input) || truthy (traceOnFailure input)
        || truthy_str (junitPath input) || truthy_str (artifactsDir input))
    (try_catch (liftW driver) (fun _ => ret tt)) ;;
  ret dir.

(** server.ts 512-517. *)
Definition report : M Ctx unit :=
  when (truthy (junit input))
    (r <- gets results ;;
     let text := buildJUnit r in
     update_results
       (fun r => mkResults (r_setup r) (r_tests r) (r_teardown r) (Some text)) ;;
     match junitPath input with
     | Some p =>
         when (negb (String.eqb p ""))
           (liftW (driver ;; modify (add_written p text)))
     | None => ret tt
     end).

(** server.ts 518-520. *)
Definition release : M Ctx unit :=
  when shouldAutoBrowser
    (emit EvRelease ;;
     try_catch (liftW browser_close ;; ret tt) (fun _ => ret tt)).

(** [test_suite_run], server.ts 444-522, up to the final
    [JSON.stringify]. *)
Definition test_suite_run : M Ctx Results :=
  acquire ;;
  when (nonempty (setup input)) (runSteps (steps_of (setup input)) Setup) ;;
  dir <- resolve_artifactsDir ;;
  tests_loop dir (tests input) ;;
  when (nonempty (teardown input))
    (runSteps (steps_of (teardown input)) Teardown) ;;
  report ;;
  release ;;
  gets results.

End Suite.

(** A call starts from an empty [results] object (server.ts 445). *)
Definition empty_results : Results := mkResults [] [] [] None.

Definition start (w : World) : Ctx := mkCtx w empty_results [].

End Server.

(** ** Page actions

    The handlers below take the fields of their parsed input as
    arguments.  None of them writes to [state]; each awaited driver call
    consumes one scripted reply. *)

(** Template literals [`${n}`] for an integer. *)
Definition string_of_Z (z : Z) : string :=
  if Z.ltb z 0 then "-" ++ string_of_nat (Z.to_nat (Z.opp z))
  else string_of_nat (Z.to_nat z).

(** [page_goto], server.ts 241-245. *)
Definition page_goto (url : string) (waitUntil : option string)
    : M World string :=
  _ <- ensurePage ;;
  driver ;;                                  (* page.goto *)
  ret ("navigated: " ++ url).

(** [page_click], server.ts 246-250. *)
Definition page_click (selector : string) (timeoutMs : option Z)
    : M World string :=
  _ <- ensurePage ;;
  driver ;;                                  (* page.click *)
  ret ("clicked: " ++ selector).

(** [page_type], server.ts 288-295. *)
Definition page_type (selector text : string) (delayMs : option Z)
    (clear : option bool) : M World string :=
  _ <- ensurePage ;;
  when (truthy clear) driver ;;              (* page.fill(selector, "") *)
  driver ;;                                  (* page.type *)
  ret ("typed into " ++ selector).

(** [page_fill], server.ts 296-300. *)
Definition page_fill (selector value : string) : M World string :=
  _ <- ensurePage ;;
  driver ;;                                  (* page.fill *)
  ret ("filled " ++ selector).

(** [page_viewport], server.ts 301-305. *)
Definition page_viewport (width height : Z) : M World string :=
  _ <- ensurePage ;;
  driver ;;                                  (* page.setViewportSize *)
  ret ("viewport " ++ string_of_Z width ++ "x" ++ string_of_Z height).

(** [page_wait_for], server.ts 409-413. *)
Definition page_wait_for (selector : string) (wait_state : option string)
    (timeoutMs : option Z) : M World string :=
  _ <- ensurePage ;;
  driver ;;                                  (* page.waitForSelector *)
  ret ("waited for " ++ selector).

(** [tracing_start], server.ts 392-396. *)
Definition tracing_start (screenshots snapshots sources : option bool)
    : M World string :=
  _ <- ensurePage ;;
  driver ;;                                  (* tracing.start *)
  ret "tracing started".

(** ** Assertions *)

(** The [kind] enumeration of [page_assert], server.ts 93. *)
Inductive AssertKind :=
| visible | hidden | text_contains | count_is | title_is | title_contains
| url_contains | attribute_is | value_is.

(** The parsed input of [page_assert], server.ts 92-99.  [count] is an
    integer here: a fractional [count] never equals a number of
    elements. *)
Record AssertInput := mkAssertInput {
  a_kind : AssertKind;
  a_selector : string;
  a_text : option string;
  a_count : option Z;
  a_name : option string;
  a_timeoutMs : option Z
}.

(** What the page answers when it is asked: the number of elements
    matching the selector, the title, the URL, the attribute of the
    first match ([None] for [null]) and its input value. *)
Record Observed := mkObserved {
  o_count : nat;
  o_title : string;
  o_url : string;
  o_attribute : option string;
  o_value : string
}.

(** [s.includes(pat)] *)
Fixpoint includes (pat s : string) : bool :=
  prefix pat s
  || match s with
     | EmptyString => false
     | String _ rest => includes pat rest
     end.

Definition InvalidParams : string := "-32602".

(** [`${x}`] for an optional string or number, and for a value that may
    be [null]. *)
Definition show_text (t : option string) : string :=
  match t with Some s => s | None => "undefined" end.
Definition show_count (c : option Z) : string :=
  match c with Some z => string_of_Z z | None => "undefined" end.
Definition show_attribute (v : option string) : string :=
  match v with Some s => s | None => "null" end.

(** [a !== b] for an observed string and the optional expected text. *)
Definition differs (observed : string) (expected : option string) : bool :=
  match expected with
  | Some e => negb (String.eqb observed e)
  | None => true
  end.

(** [page_assert], server.ts 306-377; [obs] is what the page answers. *)
Definition page_assert (obs : Observed) (input : AssertInput)
    : M World string :=
  _ <- ensurePage ;;
  match a_kind input with
  | visible =>
      driver ;;                              (* waitForSelector visible *)
      ret ("assert visible: " ++ a_selector input)
  | hidden =>
      driver ;;                              (* waitForSelector hidden *)
      ret ("assert hidden: " ++ a_selector input)
  | text_contains =>
      if negb (truthy_str (a_text input)) then
        throw (McpError InvalidParams "text_contains 需要提供 text 参数")
      else
        driver ;;                            (* waitForFunction *)
        ret ("assert text contains on " ++ a_selector input)
  | count_is =>
      driver ;;                              (* locator.count() *)
      let count := Z.of_nat (o_count obs) in
      if match a_count input with
         | Some c => negb (Z.eqb count c)
         | None => true
         end
      then throw (McpError InvalidRequest
                    ("count " ++ string_of_Z count ++ " !== "
                       ++ show_count (a_count input)))
      else ret ("assert count " ++ string_of_Z count)
  | title_is =>
      driver ;;                              (* page.title() *)
      let title := o_title obs in
      if differs title (a_text input) then
        throw (McpError InvalidRequest
                 ("title '" ++ title ++ "' !== '" ++ show_text (a_text input)
                    ++ "'"))
      else ret ("assert title is '" ++ show_text (a_text input) ++ "'")
  | title_contains =>
      driver ;;                              (* page.title() *)
      let title := o_title obs in
      if negb (truthy_str (a_text input))
         || negb (includes (show_text (a_text input)) title)
      then throw (McpError InvalidRequest
                    ("title '" ++ title ++ "' not contains '"
                       ++ show_text (a_text input) ++ "'"))
      else ret ("assert title contains '" ++ show_text (a_text input) ++ "'")
  | url_contains =>
      let url := o_url obs in
      if negb (truthy_str (a_text input))
         || negb (includes (show_text (a_text input)) url)
      then throw (McpError InvalidRequest
                    ("url '" ++ url ++ "' not contains '"
                       ++ show_text (a_text input) ++ "'"))
      else ret ("assert url contains '" ++ show_text (a_text input) ++ "'")
  | attribute_is =>
      driver ;;                              (* el.waitFor attached *)
      driver ;;                              (* el.getAttribute *)
      let val := o_attribute obs in
      if match val with
         | Some v => differs v (a_text input)
         | None => true                      (* null !== string or undefined *)
         end
      then throw (McpError InvalidRequest
                    ("attribute '" ++ show_text (a_name input) ++ "' = '"
                       ++ show_attribute val ++ "' !== '"
                       ++ show_text (a_text input) ++ "'"))
      else ret ("assert attribute '" ++ show_text (a_name input) ++ "' is '"
                  ++ show_text (a_text input) ++ "'")
  | value_is =>
      driver ;;                              (* el.waitFor attached *)
      driver ;;                              (* el.inputValue() *)
      let val := o_value obs in
      if differs val (a_text input) then
        throw (McpError InvalidRequest
                 ("value '" ++ val ++ "' !== '" ++ show_text (a_text input)
                    ++ "'"))
      else ret ("assert value is '" ++ show_text (a_text input) ++ "'")
  end.

(** ** Reading from the page

    What the page or the file system hands back is an argument of the
    handler: the PNG data, the JSON text of the evaluated expression,
    the text content and the attribute of the first match ([None] for
    [null]), the contents of the trace file. *)

(** [page_screenshot], server.ts 378-383. *)
Definition page_screenshot (fullPage : option bool) (b64 : string)
    : M World string :=
  _ <- ensurePage ;;
  driver ;;                                  (* page.screenshot *)
  ret b64.

(** [page_eval], server.ts 384-391. *)
Definition page_eval (expression : string) (result : string)
    : M World string :=
  _ <- ensurePage ;;
  driver ;;                                  (* page.evaluate *)
  ret result.

(** [page_title_get], server.ts 414-418. *)
Definition page_title_get (obs : Observed) : M World string :=
  _ <- ensurePage ;;
  driver ;;                                  (* page.title() *)
  ret (o_title obs).

(** [page_url_get], server.ts 419-423; [page.url()] is not awaited. *)
Definition page_url_get (obs : Observed) : M World string :=
  _ <- ensurePage ;;
  ret (o_url obs).

(** [text ?? ""] and [val ?? ""] *)
Definition or_empty (v : option string) : string :=
  match v with Some s => s | None => "" end.

(** [page_text_get], server.ts 424-429. *)
Definition page_text_get (selector : string) (timeoutMs : option Z)
    (text : option string) : M World string :=
  _ <- ensurePage ;;
  driver ;;                                  (* page.waitForSelector *)
  driver ;;                                  (* textContent() *)
  ret (or_empty text).

(** [page_attribute_get], server.ts 430-435. *)
Definition page_attribute_get (selector name : string)
    (timeoutMs : option Z) (obs : Observed) : M World string :=
  _ <- ensurePage ;;
  driver ;;                                  (* page.waitForSelector *)
  driver ;;                                  (* getAttribute *)
  ret (or_empty (o_attribute obs)).

(** [tracing_stop], server.ts 397-408. *)
Definition tracing_stop (path : option string) (b64 : string)
    : M World string :=
  _ <- ensurePage ;;
  if truthy_str path then
    driver ;;                                (* tracing.stop({path}) *)
    ret ("trace saved: " ++ or_empty path)
  else
    _ <- gets now ;;                         (* trace_${Date.now()}.zip *)
    driver ;;                                (* tracing.stop({path: tmp}) *)
    driver ;;                                (* fs.readFile(tmp) *)
    ret b64.

(** ** The request dispatcher *)

Definition MethodNotFound : string := "-32601".

Section Requests.

Variable ext : string -> Args -> M World string.

(** The handler of [CallToolRequestSchema], server.ts 565-576.  Every
    key of [tools] is a key of [handlers], so the check of line 572
    never fires for a tool; for an inherited member of [tools] the
    parse of line 570 raises first. *)
Definition call_tool_request (n : string) (arguments : option Args)
    : M World string :=
  if negb (tool_found n) then
    throw (McpError MethodNotFound ("未知工具: " ++ n))
  else if negb (own_tool n) then
    throw no_inputSchema
  else
    call_tool ext n (match arguments with Some a => a | None => [] end).

End Requests.

(* ================================================================== *)
(** * Part II: vocabulary of the properties *)

(** ** Report text *)

(** The replacement of one character by [escapeXml]. *)
Definition escape_char (a : ascii) : string :=
  if Ascii.eqb a "&" then "&amp;"
  else if Ascii.eqb a "<" then "&lt;"
  else if Ascii.eqb a ">" then "&gt;"
  else if Ascii.eqb a dquote then "&quot;"
  else if Ascii.eqb a squote then "&apos;"
  else String a EmptyString.

Fixpoint flat_map_string (f : ascii -> string) (s : string) : string :=
  match s with
  | EmptyString => EmptyString
  | String a rest => f a ++ flat_map_string f rest
  end.

Fixpoint string_forall (p : ascii -> bool) (s : string) : bool :=
  match s with
  | EmptyString => true
  | String a rest => p a && string_forall p rest
  end.

Fixpoint count_char (c : ascii) (s : string) : nat :=
  match s with
  | EmptyString => 0
  | String a rest => (if Ascii.eqb a c then 1 else 0) + count_char c rest
  end.

(** The characters that [escapeXml] removes altogether. *)
Definition reserved (a : ascii) : bool :=
  Ascii.eqb a "<" || Ascii.eqb a ">" || Ascii.eqb a dquote
  || Ascii.eqb a squote.

Definition entities : list string :=
  ["&amp;"; "&lt;"; "&gt;"; "&quot;"; "&apos;"].

(** Every ampersand of [s] opens one of the five entities. *)
Fixpoint ampersands_open_entities (s : string) : bool :=
  match s with
  | EmptyString => true
  | String a rest =>
      (if Ascii.eqb a "&" then existsb (fun e => prefix e s) entities
       else true)
      && ampersands_open_entities rest
  end.

(** ** The page table *)

Definition option_page_eqb (a b : option Page) : bool :=
  match a, b with
  | Some x, Some y => Nat.eqb x y
  | None, None => true
  | _, _ => false
  end.

(** The current id, when there is one, is a key of [pages] and [page]
    is the page stored under it; without a current id there is no
    current page. *)
Definition page_table_ok (s : BrowserContextState) : bool :=
  match currentPageId s with
  | Some id =>
      match map_get id (pages s) with
      | Some p => option_page_eqb (page s) (Some p)
      | None => false
      end
  | None => option_page_eqb (page s) None
  end.

(** No page is registered under the empty string. *)
Definition no_empty_id (s : BrowserContextState) : bool :=
  forallb (fun kv => negb (String.eqb (fst kv) "")) (pages s).

(** The state that [page_close] leaves when it closes the page [t]. *)
Definition after_close (t : string) (s : BrowserContextState)
    : BrowserContextState :=
  let ps := map_delete t (pages s) in
  match currentPageId s with
  | Some cur =>
      if String.eqb cur t then
        let next := map_first_key ps in
        mkState (browser s)
          (match next with
           | Some n => if String.eqb n "" then None else map_get n ps
           | None => None
           end)
          ps next
      else mkState (browser s) (page s) ps (Some cur)
  | None => mkState (browser s) (page s) ps None
  end.

(** The page-table handlers, as the steps of a plan or suite reach
    them. *)
Inductive PageOp :=
| OpBrowserOpen (input : BrowserOpenInput)
| OpBrowserClose
| OpPageNew (id : option string)
| OpPageSwitch (id : string)
| OpPageClose (id : option string).

Definition run_op (op : PageOp) : M World string :=
  match op with
  | OpBrowserOpen input => browser_open input
  | OpBrowserClose => browser_close
  | OpPageNew id => page_new id
  | OpPageSwitch id => page_switch id
  | OpPageClose id => page_close id
  end.

Fixpoint run_ops (ops : list PageOp) (w : World) : World :=
  match ops with
  | [] => w
  | op :: rest => run_ops rest (snd (run_op op w))
  end.

Definition names_empty_page (op : PageOp) : bool :=
  match op with
  | OpPageNew (Some id) => String.eqb id ""
  | _ => false
  end.

Definition with_bo_headless (h : option bool) (i : BrowserOpenInput)
    : BrowserOpenInput :=
  mkBrowserOpenInput h (bo_disableExtensions i) (bo_args i) (bo_lang i).

(** ** Plans, step by step *)

Section PlanSteps.

Variable ext : string -> Args -> M World string.

(** One step of a plan on its own: does it fail, and which world does
    it leave. *)
Definition plan_step_fails (step : Step) (w : World) : bool * World :=
  let n := step_name step in
  if negb (tool_found n) || negb (handler_is_function n) then (true, w)
  else if negb (own_tool n) then (true, w)
  else
    match call_tool ext n (arguments_of step) w with
    | (Return _, w1) => (false, w1)
    | (Throw _, w1) => (true, w1)
    end.

(** The number, counted from 1, of the first step that fails when the
    steps are run one after the other from [w]. *)
Fixpoint first_failure (steps : list Step) (w : World) : option nat :=
  match steps with
  | [] => None
  | step :: rest =>
      if fst (plan_step_fails step w) then Some 1
      else option_map S (first_failure rest (snd (plan_step_fails step w)))
  end.

(** The world after the first [k] steps. *)
Fixpoint world_after (k : nat) (steps : list Step) (w : World) : World :=
  match k, steps with
  | S k', step :: rest => world_after k' rest (snd (plan_step_fails step w))
  | _, _ => w
  end.

(** Which steps fail when all of them are run in order from [w]. *)
Fixpoint failures (steps : list Step) (w : World) : list bool :=
  match steps with
  | [] => []
  | step :: rest =>
      fst (plan_step_fails step w)
        :: failures rest (snd (plan_step_fails step w))
  end.

(** How many of the steps a step runner executes from [w]: all of them
    when failures are passed over, and otherwise the steps up to the
    first one that fails. *)
Definition executed (coe : option bool) (steps : list Step) (w : World)
    : nat :=
  if truthy coe then length steps
  else match first_failure steps w with
       | Some k => k
       | None => length steps
       end.

End PlanSteps.

(** ** Control points of a suite run *)

Definition is_teardown_run (e : Event) : bool :=
  match e with EvRunSteps Teardown => true | _ => false end.

Definition is_attempt (e : Event) : bool :=
  match e with EvAttempt _ _ => true | _ => false end.


Definition is_release (e : Event) : bool :=
  match e with EvRelease => true | _ => false end.

(** How many of the events satisfy [p]. *)
Definition count (p : Event -> bool) (l : list Event) : nat :=
  length (filter p l).

Section Quiet.

Variable p : Event -> bool.

(** [m] passes no control point satisfying [p]. *)
Definition quiet {A} (m : M Ctx A) : Prop :=
  forall c, exists evs,
    events (snd (m c)) = (events c ++ evs)%list
    /\ forallb (fun e => negb (p e)) evs = true.

End Quiet.

(** [m] never raises. *)
Definition total {A} (m : M Ctx A) : Prop :=
  forall c, exists a c', m c = (Return a, c').

(** What the test phase may pass: attempts, and [runSteps] for the
    test phase. *)
Definition outside_tests (p : Event -> bool) : Prop :=
  (forall t n, p (EvAttempt t n) = false)
  /\ p (EvRunSteps TestPhase) = false
  /\ (forall n, p (EvInvoke TestPhase n) = false).

Section Phases.

Variable ext : string -> Args -> M World string.

Variable input : SuiteInput.

(** server.ts 462-466: acquisition and setup. *)
Definition setup_phase : M Ctx unit :=
  acquire input ;;
  when (nonempty (setup input))
    (runSteps ext input (steps_of (setup input)) Setup).

(** server.ts 511: the teardown statement. *)
Definition teardown_phase : M Ctx unit :=
  when (nonempty (teardown input))
    (runSteps ext input (steps_of (teardown input)) Teardown).

(** server.ts 511-521: what follows the test loop. *)
Definition closing_phase : M Ctx Results :=
  teardown_phase ;; report input ;; release input ;; gets results.



End Phases.

Definition holds_browser (w : World) : bool :=
  match browser (state w) with
  | Some _ => true
  | None => false
  end.

(** The passes that the [while] loop can still make. *)
Definition passes_left (input : SuiteInput) (l : Locals) : nat :=
  Z.to_nat (retries_of input + 1 - Z.of_nat (attempt l)).

Definition screenshot_of (dir : string) (test : Test) (k : nat) : string :=
  artifact_file dir test k ".png".

(** The attempts that a call has started so far. *)
Definition attempts_made (c : Ctx) : nat := count is_attempt (events c).

(** ** Concrete inputs *)

(** The runs below only use [browser_open], [browser_close], the page
    handlers and names that are no tool at all; the other handlers are
    never reached, so they are given no behaviour. *)
Definition unreached : string -> Args -> M World string :=
  fun n _ => throw ("not modelled: " ++ n).

(** A process that has not opened a browser yet. *)
Definition idle_world : World :=
  mkWorld initial_state 1 0 [] [] [] 1700 "/work".

Definition suite (ts : list Test) : SuiteInput :=
  mkSuiteInput None ts None None None None None None None None None None.

Definition with_continueOnError (b : bool) (i : SuiteInput) : SuiteInput :=
  mkSuiteInput (setup i) (tests i) (teardown i) (Some b) (retries i)
    (junit i) (junitPath i) (autoBrowser i) (headless i) (artifactsDir i)
    (onFailureScreenshot i) (traceOnFailure i).

Definition with_retries (r : Z) (i : SuiteInput) : SuiteInput :=
  mkSuiteInput (setup i) (tests i) (teardown i) (continueOnError i) (Some r)
    (junit i) (junitPath i) (autoBrowser i) (headless i) (artifactsDir i)
    (onFailureScreenshot i) (traceOnFailure i).

Definition with_junit (b : bool) (i : SuiteInput) : SuiteInput :=
  mkSuiteInput (setup i) (tests i) (teardown i) (continueOnError i) (retries i)
    (Some b) (junitPath i) (autoBrowser i) (headless i) (artifactsDir i)
    (onFailureScreenshot i) (traceOnFailure i).

Definition with_autoBrowser (b : bool) (i : SuiteInput) : SuiteInput :=
  mkSuiteInput (setup i) (tests i) (teardown i) (continueOnError i) (retries i)
    (junit i) (junitPath i) (Some b) (headless i) (artifactsDir i)
    (onFailureScreenshot i) (traceOnFailure i).

Definition with_headless (h : option bool) (i : SuiteInput) : SuiteInput :=
  mkSuiteInput (setup i) (tests i) (teardown i) (continueOnError i) (retries i)
    (junit i) (junitPath i) (autoBrowser i) h (artifactsDir i)
    (onFailureScreenshot i) (traceOnFailure i).

Definition with_onFailureScreenshot (b : bool) (i : SuiteInput) : SuiteInput :=
  mkSuiteInput (setup i) (tests i) (teardown i) (continueOnError i) (retries i)
    (junit i) (junitPath i) (autoBrowser i) (headless i) (artifactsDir i)
    (Some b) (traceOnFailure i).

Definition with_traceOnFailure (b : bool) (i : SuiteInput) : SuiteInput :=
  mkSuiteInput (setup i) (tests i) (teardown i) (continueOnError i) (retries i)
    (junit i) (junitPath i) (autoBrowser i) (headless i) (artifactsDir i)
    (onFailureScreenshot i) (Some b).

Definition with_setup (s : list Step) (i : SuiteInput) : SuiteInput :=
  mkSuiteInput (Some s) (tests i) (teardown i) (continueOnError i) (retries i)
    (junit i) (junitPath i) (autoBrowser i) (headless i) (artifactsDir i)
    (onFailureScreenshot i) (traceOnFailure i).

Definition with_teardown (s : list Step) (i : SuiteInput) : SuiteInput :=
  mkSuiteInput (setup i) (tests i) (Some s) (continueOnError i) (retries i)
    (junit i) (junitPath i) (autoBrowser i) (headless i) (artifactsDir i)
    (onFailureScreenshot i) (traceOnFailure i).

(** A step naming no tool, and one that always succeeds when no browser
    is open. *)
Definition step_nope : Step := mkStep "nope" None.

Definition step_close : Step := mkStep "browser_close" None.

(** [{tests: [{name: "T", steps: [{name: "nope"}]}],
      continueOnError: true, autoBrowser: false}] *)
Definition failing_test_suite : SuiteInput :=
  with_autoBrowser false (suite [mkTest "T" [step_nope]]).

(** [{tests: [{name: "A", steps: [{name: "browser_close"}]},
              {name: "B", steps: [{name: "nope"}]}],
      junit: true, autoBrowser: false}] *)
Definition two_tests_suite : SuiteInput :=
  with_junit true
    (with_autoBrowser false
       (suite [mkTest "A" [step_close]; mkTest "B" [step_nope]])).

Definition two_tests_report : string :=
  junit_header 4 2
    ++ "<testcase name=" ++ dq ++ "browser_close" ++ dq ++ "/>"
    ++ "<testcase name=" ++ dq ++ "A" ++ dq ++ "/>"
    ++ "<testcase name=" ++ dq ++ "nope" ++ dq ++ "><failure message=" ++ dq
    ++ "error" ++ dq ++ "/></testcase>"
    ++ "<testcase name=" ++ dq ++ "B" ++ dq ++ "><failure message=" ++ dq
    ++ unknown_tool ++ dq ++ "/></testcase>"
    ++ "</testsuite>".

(** [{tests: [{name: "T", steps: [{name: "browser_close"}]}],
      retries: 1, traceOnFailure: true}] *)
Definition closing_test_suite : SuiteInput :=
  with_traceOnFailure true (with_retries 1 (suite [mkTest "T" [step_close]])).

(** [browser_open({})], [page_new({id: ""})], [page_switch({id: "page1"})] *)
Definition two_pages : list PageOp :=
  [OpBrowserOpen (mkBrowserOpenInput None None None None);
   OpPageNew (Some "");
   OpPageSwitch "page1"].

(** [{steps: [{name: "browser_close"}, {name: "nope"},
              {name: "browser_open"}]}]: the second step fails. *)
Definition three_steps : list Step :=
  [step_close; step_nope; mkStep "browser_open" None].

(** [{setup: [{name: "nope"}],
      tests: [{name: "T", steps: [{name: "browser_close"}]}],
      teardown: [{name: "browser_close"}]}] *)
Definition failing_setup_suite : SuiteInput :=
  with_teardown [step_close]
    (with_setup [step_nope] (suite [mkTest "T" [step_close]])).

Definition failing_setup_run : Outcome Results * Ctx :=
  test_suite_run unreached failing_setup_suite (start idle_world).

(** A process in which [browser_open] has been called before the suite
    starts. *)
Definition browsing_world : World :=
  snd (browser_open (mkBrowserOpenInput None None None None) idle_world).


(** ** Decoding of escaped text *)

(** The character that an entity at the head of [s] stands for, with the
    number of characters that follow its ampersand. *)
Definition entity_at (s : string) : option (ascii * nat) :=
  if prefix "&amp;" s then Some ("&"%char, 4)
  else if prefix "&lt;" s then Some ("<"%char, 3)
  else if prefix "&gt;" s then Some (">"%char, 3)
  else if prefix "&quot;" s then Some (dquote, 5)
  else if prefix "&apos;" s then Some (squote, 5)
  else None.

(** Reads escaped text back; [skip] characters of an entity are still
    to be passed over. *)
Fixpoint unescape_from (skip : nat) (s : string) : string :=
  match s with
  | EmptyString => EmptyString
  | String a rest =>
      match skip with
      | S k => unescape_from k rest
      | O =>
          match entity_at s with
          | Some (c, k) => String c (unescape_from k rest)
          | None => String a (unescape_from 0 rest)
          end
      end
  end.

Definition unescapeXml (s : string) : string := unescape_from 0 s.

(** The five characters that [escapeXml] rewrites. *)
Definition rewritten (a : ascii) : bool :=
  Ascii.eqb a "&" || reserved a.

(** A decimal digit. *)
Definition digit (a : ascii) : bool := in_range 48 57 a.

(** A file name: not empty, not [.] or [..], without a slash. *)
Definition plain_name (f : string) : bool :=
  negb (String.eqb f "") && negb (String.eqb f ".")
  && negb (String.eqb f "..")
  && string_forall (fun a => negb (Ascii.eqb a "/")) f.

(** ** Outcomes *)

Definition is_return {A} (r : Outcome A) : bool :=
  match r with Return _ => true | Throw _ => false end.

(** [ensurePage] would raise in [w]. *)
Definition no_page (w : World) : bool :=
  match browser (state w), page (state w) with
  | Some _, Some _ => false
  | _, _ => true
  end.

(** The id that [nextPageId] hands out in [w]. *)
Definition next_id (w : World) : string :=
  "page" ++ string_of_nat (pageIdCounter w).

(** What a page action has no business with: the browser state, the id
    counter, the handles and the launches. *)
Definition same_session (w w' : World) : Prop :=
  state w' = state w
  /\ pageIdCounter w' = pageIdCounter w
  /\ fresh w' = fresh w
  /\ launches w' = launches w
  /\ written w' = written w.

(** The page that [page_close] is asked to close. *)
Definition close_target (id : option string) (w : World) : option string :=
  match id with
  | Some i => Some i
  | None => currentPageId (state w)
  end.

(** The world after [browser_open({})] and [page_new({id: "a"})]: the
    pages "page1" and "a", the second one current. *)
Definition two_page_world : World :=
  run_ops [OpBrowserOpen (mkBrowserOpenInput None None None None);
           OpPageNew (Some "a")] idle_world.

(** [t] is the only key of the page table. *)
Definition only_page (t : string) (s : BrowserContextState) : bool :=
  forallb (fun kv => String.eqb (fst kv) t) (pages s).

(** ** Step records *)

(** The array that [runSteps] pushes to in phase [p]. *)
Definition phase_entries (p : Phase) (r : Results) : list Entry :=
  match p with
  | Setup => r_setup r
  | TestPhase => r_tests r
  | Teardown => r_teardown r
  end.

(** Name, verdict and message of a step record of a suite and of a
    plan; a passed step of a suite carries no message, a passed step of
    a plan the message "ok". *)
Definition entry_view (e : Entry) : string * bool * string :=
  (name e, ok e, match message e with Some m => m | None => "ok" end).

Definition plan_view (e : PlanEntry) : string * bool * string :=
  (pe_name e, pe_ok e, pe_message e).

(** The entry of a plan for step number [i] when it passes. *)
Definition passed_entry (p : nat * Step) : PlanEntry :=
  mkPlanEntry (fst p) (step_name (snd p)) true "ok".

(** No step is named [__proto__]. *)
Definition no_proto_step (steps : list Step) : bool :=
  forallb (fun s => negb (String.eqb (step_name s) "__proto__")) steps.

(** [{steps: [{name: "browser_close"}, {name: "browser_open"}]}] *)
Definition passing_steps : list Step :=
  [step_close; mkStep "browser_open" None].

(** ** Records of a suite run *)

(** The per-test records of server.ts 508 carry an [artifacts] array;
    the step records of [runSteps] do not. *)
Definition is_summary (e : Entry) : bool :=
  match artifacts e with Some _ => true | None => false end.

Definition summaries (r : Results) : list Entry :=
  filter is_summary (r_tests r).

(** [m] pushes step records only and leaves the [junit] field alone. *)
Definition steps_only {A} (m : M Ctx A) : Prop :=
  forall c,
    summaries (results (snd (m c))) = summaries (results c)
    /\ r_junit (results (snd (m c))) = r_junit (results c).

(** [m] leaves the teardown records alone. *)
Definition keeps_teardown {A} (m : M Ctx A) : Prop :=
  forall c, r_teardown (results (snd (m c))) = r_teardown (results c).

(** [{tests: [{name: "A", steps: [{name: "page_new"}]}],
      teardown: [{name: "browser_close"}], autoBrowser: false}]: the
    only test fails, no browser being open. *)
Definition teardown_suite : SuiteInput :=
  with_teardown [step_close]
    (with_autoBrowser false (suite [mkTest "A" [mkStep "page_new" None]])).

(** [{tests: [{name: "Login", steps: [{name: "nope"}]}], retries: 1,
      onFailureScreenshot: true}] *)
Definition login_suite : SuiteInput :=
  with_onFailureScreenshot true
    (with_retries 1 (suite [mkTest "Login" [step_nope]])).

(** ** Assertions *)

(** The assertion names no expected value: an optional [text] or
    [count] is missing, or the text to look for is empty. *)
Definition expected_missing (input : AssertInput) : bool :=
  match a_kind input with
  | visible | hidden => false
  | text_contains | title_contains | url_contains =>
      negb (truthy_str (a_text input))
  | count_is =>
      match a_count input with None => true | Some _ => false end
  | title_is | attribute_is | value_is =>
      match a_text input with None => true | Some _ => false end
  end.

(** [pat] occurs in [s]. *)
Definition contains (pat s : string) : Prop :=
  exists a b, s = a ++ pat ++ b.

(** What an assertion says about the page; [visible], [hidden] and
    [text_contains] are decided inside the driver. *)
Definition asserted (obs : Observed) (input : AssertInput) : Prop :=
  match a_kind input with
  | visible | hidden | text_contains => True
  | count_is => a_count input = Some (Z.of_nat (o_count obs))
  | title_is => a_text input = Some (o_title obs)
  | title_contains =>
      exists t, a_text input = Some t /\ t <> "" /\ contains t (o_title obs)
  | url_contains =>
      exists t, a_text input = Some t /\ t <> "" /\ contains t (o_url obs)
  | attribute_is =>
      exists v, o_attribute obs = Some v /\ a_text input = Some v
  | value_is => a_text input = Some (o_value obs)
  end.

(** A page titled "My Shop" at [https://shop.test/cart]. *)
Definition shop_page : Observed :=
  mkObserved 3 "My Shop" "https://shop.test/cart" None "".

(** [{tests: [{name: "Login", steps: [{name: "browser_close"}]}],
      retries: -1}] *)
Definition no_budget_suite : SuiteInput :=
  with_retries (-1) (suite [mkTest "Login" [step_close]]).

(* ================================================================== *)
(** * Part III: properties *)

Example escapeXml_sample :
  escapeXml "a<b & c" = "a&lt;b &amp; c".
Proof. reflexivity. Qed.

Example sanitizeFilename_sample :
  sanitizeFilename "Log in / out!" = "Log_in_out_".
Proof. reflexivity. Qed.

(** ** The report builder *)

Lemma append_assoc (a b c : string) : (a ++ b) ++ c = a ++ (b ++ c).
Proof. induction a as [|x a IH]; simpl; [reflexivity | now rewrite IH]. Qed.

Lemma replace_all_app (c : ascii) (rep a b : string) :
  replace_all c rep (a ++ b) = replace_all c rep a ++ replace_all c rep b.
Proof.
  induction a as [|x a IH]; simpl; [reflexivity|].
  destruct (Ascii.eqb x c); rewrite IH.
  - now rewrite append_assoc.
  - reflexivity.
Qed.

Lemma escapeXml_cons (a : ascii) (s : string) :
  escapeXml (String a s) = escape_char a ++ escapeXml s.
Proof.
  unfold escapeXml, escape_char. simpl replace_all at 5.
  destruct (Ascii.eqb_spec a "&") as [->|Hamp].
  { repeat (rewrite replace_all_app; simpl replace_all at 1). reflexivity. }
  simpl replace_all at 4.
  destruct (Ascii.eqb_spec a "<") as [->|Hlt].
  { repeat (rewrite replace_all_app; simpl replace_all at 1). reflexivity. }
  simpl replace_all at 3.
  destruct (Ascii.eqb_spec a ">") as [->|Hgt].
  { repeat (rewrite replace_all_app; simpl replace_all at 1). reflexivity. }
  simpl replace_all at 2.
  destruct (Ascii.eqb_spec a dquote) as [->|Hdq].
  { repeat (rewrite replace_all_app; simpl replace_all at 1). reflexivity. }
  simpl replace_all at 1.
  destruct (Ascii.eqb_spec a squote) as [->|Hsq]; reflexivity.
Qed.

(** The five successive replacements amount to one pass that maps every
    character on its own: no replacement text is touched by a later
    replacement. *)
Lemma escapeXml_charwise (s : string) :
  escapeXml s = flat_map_string escape_char s.
Proof.
  induction s as [|a s IH]; [reflexivity|].
  rewrite escapeXml_cons, IH. reflexivity.
Qed.

Lemma string_forall_app (p : ascii -> bool) (a b : string) :
  string_forall p (a ++ b) = string_forall p a && string_forall p b.
Proof.
  induction a as [|x a IH]; simpl; [reflexivity|].
  now rewrite IH, andb_assoc.
Qed.

Lemma count_char_app (c : ascii) (a b : string) :
  count_char c (a ++ b) = count_char c a + count_char c b.
Proof.
  induction a as [|x a IH]; simpl; [reflexivity|]. rewrite IH. lia.
Qed.

Lemma escape_char_no_reserved (a : ascii) :
  string_forall (fun x => negb (reserved x)) (escape_char a) = true.
Proof.
  unfold escape_char.
  destruct (Ascii.eqb_spec a "&") as [->|Hamp]; [reflexivity|].
  destruct (Ascii.eqb a "<") eqn:Hlt; [reflexivity|].
  destruct (Ascii.eqb a ">") eqn:Hgt; [reflexivity|].
  destruct (Ascii.eqb a dquote) eqn:Hdq; [reflexivity|].
  destruct (Ascii.eqb a squote) eqn:Hsq; [reflexivity|].
  simpl. unfold reserved. now rewrite Hlt, Hgt, Hdq, Hsq.
Qed.

Lemma escapeXml_no_reserved (s : string) :
  string_forall (fun x => negb (reserved x)) (escapeXml s) = true.
Proof.
  rewrite escapeXml_charwise.
  induction s as [|a s IH]; [reflexivity|].
  simpl. now rewrite string_forall_app, escape_char_no_reserved, IH.
Qed.

Lemma prefix_empty (s : string) : prefix "" s = true.
Proof. destruct s; reflexivity. Qed.

Lemma entity_then_text (e rest : string) :
  In e entities ->
  ampersands_open_entities rest = true ->
  ampersands_open_entities (e ++ rest) = true.
Proof.
  intros He Hrest.
  repeat (destruct He as [<-|He];
          [simpl; rewrite ?prefix_empty; simpl; exact Hrest|]).
  destruct He.
Qed.

Lemma escapeXml_ampersands (s : string) :
  ampersands_open_entities (escapeXml s) = true.
Proof.
  rewrite escapeXml_charwise.
  induction s as [|a s IH]; [reflexivity|].
  simpl flat_map_string. unfold escape_char at 1.
  destruct (Ascii.eqb_spec a "&") as [->|Hamp];
    [apply entity_then_text; simpl; auto|].
  destruct (Ascii.eqb_spec a "<") as [->|Hlt];
    [apply entity_then_text; simpl; auto|].
  destruct (Ascii.eqb_spec a ">") as [->|Hgt];
    [apply entity_then_text; simpl; auto|].
  destruct (Ascii.eqb_spec a dquote) as [->|Hdq];
    [apply entity_then_text; simpl; auto 6|].
  destruct (Ascii.eqb_spec a squote) as [->|Hsq];
    [apply entity_then_text; simpl; auto 7|].
  simpl. apply Ascii.eqb_neq in Hamp. now rewrite Hamp.
Qed.

Lemma count_char_forall (c : ascii) (p : ascii -> bool) (s : string) :
  p c = false -> string_forall p s = true -> count_char c s = 0.
Proof.
  intros Hc. induction s as [|a s IH]; simpl; [reflexivity|].
  intros H. apply andb_true_iff in H as [Ha Hs].
  destruct (Ascii.eqb_spec a c) as [->|_]; [congruence|].
  now rewrite IH.
Qed.

Lemma escapeXml_count_reserved (c : ascii) (s : string) :
  reserved c = true -> count_char c (escapeXml s) = 0.
Proof.
  intros Hc.
  apply count_char_forall with (p := fun x => negb (reserved x)).
  - now rewrite Hc.
  - apply escapeXml_no_reserved.
Qed.

(** The markup characters of a test case are those of its template: the
    embedded name and message contribute none. *)
Lemma testcase_markup (c : ascii) (t : Entry) :
  reserved c = true ->
  count_char c (testcase t)
  = count_char c
      (if ok t then "<testcase name=" ++ dq ++ dq ++ "/>"
       else "<testcase name=" ++ dq ++ dq ++ "><failure message=" ++ dq ++ dq
            ++ "/></testcase>").
Proof.
  intros Hc. unfold testcase.
  destruct (ok t);
    repeat rewrite count_char_app;
    repeat rewrite (escapeXml_count_reserved _ _ Hc); lia.
Qed.

Lemma filter_typeof_ok (l : list Entry) : filter typeof_ok_is_boolean l = l.
Proof. induction l as [|a l IH]; simpl; [reflexivity | now rewrite IH]. Qed.

(** The report, spelled out over [results.tests]. *)
Lemma buildJUnit_unfold (r : Results) :
  buildJUnit r
  = junit_header (length (r_tests r))
      (length (filter (fun t => negb (ok t)) (r_tests r)))
    ++ String.concat "" (map testcase (r_tests r)) ++ "</testsuite>".
Proof. unfold buildJUnit. now rewrite filter_typeof_ok. Qed.

(** Reading escaped text back. *)
Lemma unescape_entity (e : string) (c : ascii) (k : nat) (rest : string) :
  In (e, c, k)
    [("&amp;", "&"%char, 4); ("&lt;", "<"%char, 3); ("&gt;", ">"%char, 3);
     ("&quot;", dquote, 5); ("&apos;", squote, 5)] ->
  unescape_from 0 (e ++ rest) = String c (unescape_from 0 rest).
Proof.
  intros H.
  repeat (destruct H as [[= <- <- <-]|H];
          [unfold unescape_from, entity_at; simpl;
           rewrite ?prefix_empty; reflexivity|]).
  destruct H.
Qed.

Lemma prefix_other_head (c a : ascii) (p s : string) :
  c <> a -> prefix (String c p) (String a s) = false.
Proof.
  intros Hc. cbn [prefix].
  destruct (ascii_dec c a) as [E|_]; [contradiction | reflexivity].
Qed.

Lemma entity_at_plain (a : ascii) (s : string) :
  Ascii.eqb a "&" = false -> entity_at (String a s) = None.
Proof.
  intros Ha. apply Ascii.eqb_neq in Ha.
  assert (Hne : "&"%char <> a) by congruence.
  unfold entity_at. now rewrite !prefix_other_head by exact Hne.
Qed.

Lemma unescape_charwise (s : string) :
  unescape_from 0 (flat_map_string escape_char s) = s.
Proof.
  induction s as [|a s IH]; [reflexivity|].
  cbn [flat_map_string]. unfold escape_char at 1.
  destruct (Ascii.eqb_spec a "&") as [->|Hamp].
  { rewrite (unescape_entity "&amp;" "&" 4) by (simpl; auto). now rewrite IH. }
  destruct (Ascii.eqb_spec a "<") as [->|Hlt].
  { rewrite (unescape_entity "&lt;" "<" 3) by (simpl; auto). now rewrite IH. }
  destruct (Ascii.eqb_spec a ">") as [->|Hgt].
  { rewrite (unescape_entity "&gt;" ">" 3) by (simpl; auto). now rewrite IH. }
  destruct (Ascii.eqb_spec a dquote) as [->|Hdq].
  { rewrite (unescape_entity "&quot;" dquote 5) by (simpl; auto 6).
    now rewrite IH. }
  destruct (Ascii.eqb_spec a squote) as [->|Hsq].
  { rewrite (unescape_entity "&apos;" squote 5) by (simpl; auto 7).
    now rewrite IH. }
  cbn [append].
  cbn [unescape_from].
  rewrite entity_at_plain by (now apply Ascii.eqb_neq).
  now rewrite IH.
Qed.

Lemma unescape_escape (s : string) : unescapeXml (escapeXml s) = s.
Proof. unfold unescapeXml. rewrite escapeXml_charwise. apply unescape_charwise. Qed.

(** C8.  The report builder is deterministic: it is a function of
    [results.tests] alone, so rendering the same result twice gives the
    same text.  Every free-text value it embeds (test name, error
    message) goes through [escapeXml], which keeps the text character
    by character and writes [&amp;] for an ampersand, [&lt;] and [&gt;]
    for the angle brackets, [&quot;] and [&apos;] for the quotes: its
    output holds no angle bracket and no quote, no ampersand other than
    the one opening one of these five entities, and reading the
    entities back gives the embedded text again. *)
Theorem C8_report_deterministic_and_escaped :
  (forall r, buildJUnit r = buildJUnit r)
  /\ (forall r, buildJUnit r = buildJUnit (mkResults [] (r_tests r) [] None))
  /\ (forall r,
        buildJUnit r
        = junit_header (length (r_tests r))
            (length (filter (fun t => negb (ok t)) (r_tests r)))
          ++ String.concat "" (map testcase (r_tests r)) ++ "</testsuite>")
  /\ (forall t,
        testcase t
        = if ok t then
            "<testcase name=" ++ dq ++ escapeXml (name t) ++ dq ++ "/>"
          else
            "<testcase name=" ++ dq ++ escapeXml (name t) ++ dq
              ++ "><failure message=" ++ dq
              ++ escapeXml (error_or_default t) ++ dq ++ "/></testcase>")
  /\ (forall s,
        string_forall (fun x => negb (reserved x)) (escapeXml s) = true
        /\ ampersands_open_entities (escapeXml s) = true)
  /\ (forall t,
        count_char "<" (testcase t) = (if ok t then 1 else 3)
        /\ count_char ">" (testcase t) = (if ok t then 1 else 3)
        /\ count_char dquote (testcase t) = (if ok t then 2 else 4)
        /\ count_char squote (testcase t) = 0)
  /\ (escapeXml "" = ""
      /\ forall a s,
           escapeXml (String a s)
           = (if Ascii.eqb a "&" then "&amp;"
              else if Ascii.eqb a "<" then "&lt;"
              else if Ascii.eqb a ">" then "&gt;"
              else if Ascii.eqb a dquote then "&quot;"
              else if Ascii.eqb a squote then "&apos;"
              else String a "")
             ++ escapeXml s)
  /\ (forall s, unescapeXml (escapeXml s) = s)
  /\ (forall a b, escapeXml a = escapeXml b -> a = b).
Proof.
  split; [reflexivity|].
  split; [intros r; now rewrite !buildJUnit_unfold|].
  split; [exact buildJUnit_unfold|].
  split; [reflexivity|].
  split.
  { intros s. split; [apply escapeXml_no_reserved | apply escapeXml_ampersands]. }
  split.
  { intros t.
    repeat split; rewrite testcase_markup by reflexivity; now destruct (ok t). }
  split.
  { split; [reflexivity | exact escapeXml_cons]. }
  split; [exact unescape_escape|].
  intros a b H.
  rewrite <- (unescape_escape a), <- (unescape_escape b). now rewrite H.
Qed.

(** C8 at two names that differ in a reserved character. *)
Lemma C8_report_deterministic_and_escaped_witness :
  "a<b" = "a<b".
Proof.
  exact (proj2 (proj2 (proj2 (proj2 (proj2 (proj2 (proj2 (proj2
           C8_report_deterministic_and_escaped)))))))
           "a<b" "a<b" eq_refl).
Defined.

(** ** Concrete runs of a suite *)

(** C1 (the code departs from the claim).  A suite whose only test has
    one step, naming an unknown tool, is run with [continueOnError]
    true: the step is recorded as failed, yet [runSteps] does not raise,
    the attempt counts as a success and the test is reported with
    [ok = true] and no error.  The same suite with [continueOnError]
    false reports the test as failed. *)
Theorem C1_failed_step_reported_as_passed :
  fst (test_suite_run unreached (with_continueOnError true failing_test_suite)
         (start idle_world))
  = Return (mkResults []
              [step_failed "nope" unknown_tool; test_entry "T" true None []]
              [] None)
  /\ fst (test_suite_run unreached
            (with_continueOnError false failing_test_suite) (start idle_world))
     = Return (mkResults []
                 [step_failed "nope" unknown_tool;
                  test_entry "T" false (Some unknown_tool) []]
                 [] None).
Proof. split; vm_compute; reflexivity. Qed.

(** C3 (the code departs from the claim).  A suite with two tests, one
    passing and one failing, each of one step: [runSteps] pushes the
    step records of the test phase onto [results.tests], next to the
    two test records, and [buildJUnit] renders all four.  The report
    announces four tests and two failures, and two of its [testcase]
    elements carry a [failure] child, the one of the failed step with
    the fallback message. *)
Theorem C3_report_counts_step_records :
  fst (test_suite_run unreached two_tests_suite (start idle_world))
  = Return (mkResults []
              [step_ok "browser_close";
               test_entry "A" true None [];
               step_failed "nope" unknown_tool;
               test_entry "B" false (Some unknown_tool) []]
              [] (Some two_tests_report))
  /\ occurrences ("tests=" ++ dq ++ "4" ++ dq ++ " failures=" ++ dq ++ "2" ++ dq)
       two_tests_report = 1
  /\ occurrences "<testcase " two_tests_report = 4
  /\ occurrences "<failure " two_tests_report = 2.
Proof. repeat split; vm_compute; reflexivity. Qed.

(** C4 (the code departs from the claim).  With trace capture on, a
    test whose only step closes the browser: the first attempt runs its
    step successfully and sets [ok], then [ensurePage] raises before
    [tracing.stop()]; the [catch] counts the attempt as failed, and a
    second attempt is made although the first completed every step.
    The test is reported with [ok = true] and no error, while no attempt
    left the [try] block normally. *)
Theorem C4_retry_after_completed_attempt :
  let run := test_suite_run unreached closing_test_suite (start idle_world) in
  fst run
  = Return (mkResults []
              [step_ok "browser_close"; test_entry "T" true None []] [] None)
  /\ events (snd run)
     = [EvAcquire;
        EvAttempt "T" 0; EvRunSteps TestPhase;
        EvInvoke TestPhase "browser_close";
        EvAttempt "T" 1;
        EvRelease]
  /\ fst (attempt_once unreached closing_test_suite "/work/artifacts_1700"
            (mkTest "T" [step_close]) (mkLocals 0 false None [])
            (snd (acquire closing_test_suite (start idle_world))))
     = Return (false, mkLocals 1 true (Some no_browser_message) []).
Proof. repeat split; vm_compute; reflexivity. Qed.

(** The same defect with an open browser throughout: the seventh
    awaited call, [tracing.stop()], fails after the step of the first
    attempt succeeded; the step is run a second time. *)
Example retry_after_trace_stop_failure :
  let w := mkWorld initial_state 1 0
             [Done; Done; Done; Done; Done; Done; Fails "stop failed"]
             [] [] 1700 "/work" in
  let input := with_traceOnFailure true
                 (with_retries 1 (suite [mkTest "T" [mkStep "page_new" None]])) in
  fst (test_suite_run unreached input (start w))
  = Return (mkResults []
              [step_ok "page_new"; step_ok "page_new";
               test_entry "T" true None
                 ["/work/artifacts_1700/T_attempt1_trace.zip"]]
              [] None).
Proof. vm_compute; reflexivity. Qed.

(** ** The page table *)

Lemma option_page_eqb_refl (a : option Page) : option_page_eqb a a = true.
Proof. destruct a; simpl; [apply Nat.eqb_refl | reflexivity]. Qed.

Lemma map_get_set_same (k : string) (v : Page) (m : list (string * Page)) :
  map_get k (map_set k v m) = Some v.
Proof.
  induction m as [|[k' v'] m IH]; simpl.
  - now rewrite String.eqb_refl.
  - destruct (String.eqb k' k) eqn:E; simpl.
    + now rewrite String.eqb_refl.
    + now rewrite E.
Qed.

Lemma map_get_delete_other (k k' : string) (m : list (string * Page)) :
  String.eqb k' k = false ->
  map_get k' (map_delete k m) = map_get k' m.
Proof.
  intros Hk. induction m as [|[a v] m IH]; simpl; [reflexivity|].
  destruct (String.eqb a k) eqn:E; simpl.
  - apply String.eqb_eq in E. subst a.
    rewrite String.eqb_sym, Hk. exact IH.
  - destruct (String.eqb a k'); [reflexivity | exact IH].
Qed.

Lemma map_get_first_key (m : list (string * Page)) (k : string) :
  map_first_key m = Some k -> exists p, map_get k m = Some p.
Proof.
  destruct m as [|[a v] m]; simpl; [discriminate|].
  intros [= ->]. exists v. now rewrite String.eqb_refl.
Qed.

Lemma forallb_map_set (f : string * Page -> bool) (k : string) (v : Page)
    (m : list (string * Page)) :
  (forall v', f (k, v') = f (k, v)) ->
  f (k, v) = true -> forallb f m = true -> forallb f (map_set k v m) = true.
Proof.
  intros Hv Hk. induction m as [|[a b] m IH]; simpl.
  - now rewrite Hk.
  - intros H. apply andb_true_iff in H as [Ha Hm].
    destruct (String.eqb a k); simpl.
    + now rewrite Hk, Hm.
    + now rewrite Ha, IH.
Qed.

Lemma forallb_map_delete (f : string * Page -> bool) (k : string)
    (m : list (string * Page)) :
  forallb f m = true -> forallb f (map_delete k m) = true.
Proof.
  induction m as [|a m IH]; simpl; [reflexivity|].
  intros H. apply andb_true_iff in H as [Ha Hm].
  destruct (negb (String.eqb (fst a) k)); simpl; [now rewrite Ha, IH | now apply IH].
Qed.

(** Steps through a handler: every awaited call may succeed or fail. *)
Ltac step_handler :=
  repeat (unfold bind, ret, throw, gets, modify, update_state, driver,
            new_handle, nextPageId, lift_outcome; simpl);
  repeat match goal with
         | |- context [match script ?w with _ => _ end] =>
             destruct (script w) as [|[|?] ?]; simpl
         | |- context [match ?l with [] => _ | _ :: _ => _ end] =>
             is_var l; destruct l as [|[|?] ?]; simpl
         end.

Lemma browser_open_page_table (input : BrowserOpenInput) (w : World) :
  page_table_ok (state w) = true ->
  page_table_ok (state (snd (browser_open input w))) = true.
Proof.
  intros H. unfold browser_open.
  destruct (browser (state w)) eqn:Hb; step_handler;
    rewrite ?Hb; simpl; step_handler;
    try exact H;
    unfold page_table_ok; simpl; rewrite ?String.eqb_refl; simpl;
    rewrite ?Nat.eqb_refl; try reflexivity; exact H.
Qed.

Lemma browser_close_page_table (w : World) :
  page_table_ok (state w) = true ->
  page_table_ok (state (snd (browser_close w))) = true.
Proof.
  intros H. unfold browser_close.
  destruct (browser (state w)) eqn:Hb; step_handler;
    rewrite ?Hb; simpl; step_handler; try exact H; reflexivity.
Qed.

Lemma page_switch_page_table (id : string) (w : World) :
  page_table_ok (state w) = true ->
  page_table_ok (state (snd (page_switch id w))) = true.
Proof.
  intros H. unfold page_switch. step_handler.
  destruct (map_get id (pages (state w))) eqn:Hg; simpl; [|exact H].
  unfold page_table_ok; simpl. now rewrite Hg, Nat.eqb_refl.
Qed.

Lemma page_new_page_table (id : option string) (w : World) :
  page_table_ok (state w) = true ->
  page_table_ok (state (snd (page_new id w))) = true.
Proof.
  intros H. unfold page_new, ensurePage. step_handler.
  destruct (browser (state w)); [destruct (page (state w))|];
    simpl; try exact H;
    destruct id; step_handler; try exact H;
    unfold page_table_ok; simpl;
    now rewrite map_get_set_same, Nat.eqb_refl.
Qed.

Lemma page_close_state (id : option string) (w : World) :
  state (snd (page_close id w)) = state w
  \/ exists t, String.eqb t "" = false
               /\ state (snd (page_close id w)) = after_close t (state w).
Proof.
  unfold page_close. step_handler.
  set (target := match id with Some i => Some i | None => currentPageId (state w) end).
  destruct target as [t|]; simpl; [|now left].
  destruct (String.eqb t "") eqn:Ht; simpl; [now left|].
  destruct (map_get t (pages (state w))) as [p|] eqn:Hg; simpl; [|now left].
  destruct (script w) as [|[|msg] rest]; simpl; [right|right|now left];
    exists t; (split; [exact Ht|]); unfold after_close;
    destruct (currentPageId (state w)) as [cur|] eqn:Hcur; simpl;
    rewrite ?Hcur; try destruct (String.eqb cur t); simpl;
    unfold set_pages, set_page, set_currentPageId; simpl;
    rewrite ?Hcur; reflexivity.
Qed.

Lemma after_close_page_table (t : string) (s : BrowserContextState) :
  no_empty_id s = true ->
  page_table_ok s = true ->
  page_table_ok (after_close t s) = true.
Proof.
  intros Hne H. unfold after_close, page_table_ok in *.
  destruct (currentPageId s) as [cur|] eqn:Hcur; simpl; [|exact H].
  destruct (String.eqb cur t) eqn:Hct; simpl.
  - destruct (map_first_key (map_delete t (pages s))) as [n|] eqn:Hn;
      simpl; [|reflexivity].
    destruct (map_get_first_key _ _ Hn) as [q Hq].
    rewrite Hq.
    assert (Hnn : String.eqb n "" = false).
    { unfold no_empty_id in Hne.
      pose proof (forallb_map_delete _ t _ Hne) as Hd.
      destruct (map_delete t (pages s)) as [|[a b] m]; [discriminate|].
      simpl in Hn, Hd. injection Hn as <-.
      apply andb_true_iff in Hd as [Hd _].
      now apply negb_true_iff in Hd. }
    rewrite Hnn. simpl. apply Nat.eqb_refl.
  - rewrite map_get_delete_other by exact Hct. exact H.
Qed.

(** [page_close] keeps the table consistent as long as no page is
    registered under the empty string. *)
Lemma page_close_page_table (id : option string) (w : World) :
  no_empty_id (state w) = true ->
  page_table_ok (state w) = true ->
  page_table_ok (state (snd (page_close id w))) = true.
Proof.
  intros Hne H.
  destruct (page_close_state id w) as [-> | (t & _ & ->)];
    [exact H | now apply after_close_page_table].
Qed.

(** [{id: ""}] is accepted by the schema of [page_new]
    ([z.string().optional()]); any other id keeps the empty string out
    of the table. *)
Lemma page_new_no_empty_id (id : option string) (w : World) :
  id <> Some "" ->
  no_empty_id (state w) = true ->
  no_empty_id (state (snd (page_new id w))) = true.
Proof.
  intros Hid H. unfold page_new, ensurePage. step_handler.
  destruct (browser (state w)); [destruct (page (state w))|];
    simpl; try exact H;
    destruct id as [i|]; step_handler; try exact H;
    unfold no_empty_id; simpl;
    (apply forallb_map_set; [reflexivity| |exact H]); simpl.
  - destruct (String.eqb_spec i ""); [congruence | reflexivity].
  - destruct (String.eqb_spec i ""); [congruence | reflexivity].
  - reflexivity.
  - reflexivity.
Qed.

Lemma browser_open_no_empty_id (input : BrowserOpenInput) (w : World) :
  no_empty_id (state w) = true ->
  no_empty_id (state (snd (browser_open input w))) = true.
Proof.
  intros H. unfold browser_open.
  destruct (browser (state w)) eqn:Hb; step_handler;
    rewrite ?Hb; simpl; step_handler; try exact H; reflexivity.
Qed.

Lemma browser_close_no_empty_id (w : World) :
  no_empty_id (state w) = true ->
  no_empty_id (state (snd (browser_close w))) = true.
Proof.
  intros H. unfold browser_close.
  destruct (browser (state w)) eqn:Hb; step_handler;
    rewrite ?Hb; simpl; step_handler; try exact H; reflexivity.
Qed.

Lemma page_switch_no_empty_id (id : string) (w : World) :
  no_empty_id (state w) = true ->
  no_empty_id (state (snd (page_switch id w))) = true.
Proof.
  intros H. unfold page_switch. step_handler.
  destruct (map_get id (pages (state w))); simpl; exact H.
Qed.

Lemma page_close_no_empty_id (id : option string) (w : World) :
  no_empty_id (state w) = true ->
  no_empty_id (state (snd (page_close id w))) = true.
Proof.
  intros H.
  destruct (page_close_state id w) as [-> | (t & _ & ->)]; [exact H|].
  unfold after_close, no_empty_id in *.
  destruct (currentPageId (state w)) as [cur|]; simpl;
    [destruct (String.eqb cur t); simpl|]; now apply forallb_map_delete.
Qed.

Lemma initial_state_page_table :
  page_table_ok initial_state = true /\ no_empty_id initial_state = true.
Proof. split; reflexivity. Qed.

(** As long as no page is created under the empty id, every sequence of
    page-table operations, whatever the driver replies, keeps the
    current id and the current page in step. *)
Lemma page_table_preserved (ops : list PageOp) (w : World) :
  existsb names_empty_page ops = false ->
  page_table_ok (state w) = true /\ no_empty_id (state w) = true ->
  page_table_ok (state (run_ops ops w)) = true
  /\ no_empty_id (state (run_ops ops w)) = true.
Proof.
  revert w. induction ops as [|op ops IH]; intros w Hops [Hok Hne];
    [now split|].
  simpl in Hops. apply orb_false_iff in Hops as [Hop Hops].
  simpl. apply IH; [exact Hops|].
  destruct op as [input| |id|id|id]; simpl.
  - split; [now apply browser_open_page_table | now apply browser_open_no_empty_id].
  - split; [now apply browser_close_page_table | now apply browser_close_no_empty_id].
  - split; [now apply page_new_page_table|].
    apply page_new_no_empty_id; [|exact Hne].
    destruct id as [i|]; [|discriminate].
    simpl in Hop. intros [= ->]. discriminate.
  - split; [now apply page_switch_page_table | now apply page_switch_no_empty_id].
  - split; [now apply page_close_page_table | now apply page_close_no_empty_id].
Qed.

(** C9 (the code departs from the claim).  After [browser_open],
    [page_new] with the empty id and [page_switch] back to the first
    page, the table is consistent.  [page_close] of the current page
    then promotes the remaining id, the empty string, by
    [next ?? null], but takes the page by [next ? ... : null], for which
    the empty string counts as absent: [currentPageId] is a key of
    [pages] while [page] is null. *)
Theorem C9_page_close_promotes_id_without_page :
  let before := run_ops two_pages idle_world in
  let after := page_close None before in
  page_table_ok (state before) = true
  /\ state before = mkState (Some 0) (Some 1) [("page1", 1); ("", 2)] (Some "page1")
  /\ fst after = Return "closed page1"
  /\ state (snd after) = mkState (Some 0) None [("", 2)] (Some "")
  /\ page_table_ok (state (snd after)) = false.
Proof. repeat split; vm_compute; reflexivity. Qed.

(** ** Launch options *)

(** [browser_open] calls [chromium.launch] at most once, after the
    existing browser, if any, was closed. *)
Lemma browser_open_launches (input : BrowserOpenInput) (w : World) :
  launches (snd (browser_open input w)) = launches w
  \/ launches (snd (browser_open input w))
     = (launches w ++ [mkLaunch false (launchArgs input)])%list.
Proof.
  unfold browser_open.
  destruct (browser (state w)) eqn:Hb; step_handler;
    rewrite ?Hb; simpl; step_handler; auto.
Qed.

(** A call of [browser_open] that returns has called [chromium.launch]
    exactly once, with [headless: false] and the arguments computed from
    the input. *)
Lemma browser_open_returns_launch (input : BrowserOpenInput) (w : World)
    (v : string) (w' : World) :
  browser_open input w = (Return v, w') ->
  launches w' = (launches w ++ [mkLaunch false (launchArgs input)])%list
  /\ v = "browser opened (headless=false)".
Proof.
  unfold browser_open.
  destruct (browser (state w)) eqn:Hb; step_handler;
    rewrite ?Hb; simpl; step_handler;
    intros H; try discriminate H; injection H as <- <-; simpl;
    split; reflexivity.
Qed.

(** Without a browser to close first, the launch is the first thing
    that [browser_open] does. *)
Lemma browser_open_launch_first (input : BrowserOpenInput) (w : World) :
  browser (state w) = None ->
  launches (snd (browser_open input w))
  = (launches w ++ [mkLaunch false (launchArgs input)])%list.
Proof.
  intros Hb. unfold browser_open. step_handler.
  rewrite Hb. simpl. step_handler; reflexivity.
Qed.

(** C10.  [browser_open] launches the browser with [headless: false]
    whatever its [headless] argument is: a call that returns has made
    exactly one launch, not headless, with the arguments computed from
    the other options, and a call made while no browser is held has
    made that launch even if it raises afterwards.  The argument has no
    influence on the call at all, and every launch it records is not
    headless.  Hence the [headless] option of a suite, which is only
    passed on to [browser_open], has no effect on a call of
    [test_suite_run]: the browser that a suite acquires is launched not
    headless with the default arguments. *)
Theorem C10_headless_argument_ignored :
  (forall input h, browser_open (with_bo_headless h input) = browser_open input)
  /\ (forall input w,
        exists l,
          launches (snd (browser_open input w)) = (launches w ++ l)%list
          /\ Forall (fun o => lo_headless o = false) l)
  /\ (forall ext input h,
        test_suite_run ext (with_headless h input) = test_suite_run ext input)
  /\ (forall ext input h,
        acquire (with_headless h input) = acquire input
        /\ runSteps ext (with_headless h input) = runSteps ext input)
  /\ (forall input w v w',
        browser_open input w = (Return v, w') ->
        launches w'
        = (launches w ++ [mkLaunch false (launchArgs input)])%list
        /\ v = "browser opened (headless=false)")
  /\ (forall input w,
        browser (state w) = None ->
        launches (snd (browser_open input w))
        = (launches w ++ [mkLaunch false (launchArgs input)])%list)
  /\ (forall input h,
        launchArgs (with_bo_headless h input) = launchArgs input)
  /\ (forall input w,
        shouldAutoBrowser input = true -> holds_browser w = false ->
        launches (world (snd (acquire input (start w))))
        = (launches w
           ++ [mkLaunch false
                 ["--disable-extensions";
                  "--disable-component-extensions-with-background-pages";
                  "--disable-features=ExtensionsToolbarMenu"]])%list).
Proof.
  split; [intros [h0 d a l] h; reflexivity|].
  split.
  { intros input w.
    destruct (browser_open_launches input w) as [-> | ->].
    - exists []. now rewrite app_nil_r.
    - eexists. split; [reflexivity|]. now constructor. }
  split; [intros ext input h; destruct input; reflexivity|].
  split; [intros ext input h; destruct input; split; reflexivity|].
  split; [exact browser_open_returns_launch|].
  split; [exact browser_open_launch_first|].
  split; [intros [h0 d a l] h; reflexivity|].
  intros input w Hauto Hheld.
  unfold holds_browser in Hheld.
  destruct (browser (state w)) eqn:Hb; [discriminate|].
  unfold acquire, bind, gets, start. cbn [world]. rewrite Hb, Hauto.
  cbn [andb when]. unfold bind, emit, modify, liftW, ret.
  cbn [world results events].
  pose proof (browser_open_launch_first
                (mkBrowserOpenInput (headless input) None None None) w Hb)
    as Hl.
  destruct (browser_open (mkBrowserOpenInput (headless input) None None None) w)
    as [[v|e] w1]; exact Hl.
Qed.

(** C10 at [browser_open({headless: true})] in a process without a
    browser. *)
Lemma C10_headless_argument_ignored_witness :
  launches (snd (browser_open (mkBrowserOpenInput (Some true) None None None)
                   idle_world))
  = [mkLaunch false
       ["--disable-extensions";
        "--disable-component-extensions-with-background-pages";
        "--disable-features=ExtensionsToolbarMenu"]].
Proof.
  exact (proj1 (proj2 (proj2 (proj2 (proj2 (proj2
           C10_headless_argument_ignored)))))
           (mkBrowserOpenInput (Some true) None None None) idle_world
           eq_refl).
Defined.

(** ** The plan executor *)

Section Plan.

Variable ext : string -> Args -> M World string.

Lemma plan_loop_stops (coe : option bool) (steps : list Step) :
  truthy coe = false ->
  forall i w k,
    first_failure ext steps w = Some k ->
    let r := plan_loop ext coe i steps w in
    length (plan_results r) = k
    /\ map pe_ok (plan_results r) = (repeat true (k - 1) ++ [false])%list
    /\ map pe_step (plan_results r) = seq (i + 1) k
    /\ map pe_name (plan_results r) = map step_name (firstn k steps)
    /\ Forall (fun j => i < j <= i + k) (plan_called r)
    /\ plan_world r = world_after ext k steps w.
Proof.
  intros Hcoe. induction steps as [|step rest IH]; intros i w k Hk;
    [discriminate|].
  simpl in Hk. simpl plan_loop.
  destruct (negb (tool_found (step_name step))
            || negb (handler_is_function (step_name step))) eqn:Hmiss.
  { assert (Hps : plan_step_fails ext step w = (true, w))
      by (unfold plan_step_fails; now rewrite Hmiss).
    rewrite Hps in Hk. simpl in Hk. injection Hk as <-.
    rewrite Hcoe. simpl. rewrite Hps. simpl.
    replace (i + 1) with (S i) by lia. repeat split; constructor. }
  destruct (negb (own_tool (step_name step))) eqn:Hown.
  { assert (Hps : plan_step_fails ext step w = (true, w))
      by (unfold plan_step_fails; now rewrite Hmiss, Hown).
    rewrite Hps in Hk. simpl in Hk. injection Hk as <-.
    rewrite Hcoe. simpl. rewrite Hps. simpl.
    replace (i + 1) with (S i) by lia. repeat split; constructor. }
  destruct (call_tool ext (step_name step) (arguments_of step) w)
    as [[v|e] w1] eqn:Hcall.
  - assert (Hps : plan_step_fails ext step w = (false, w1))
      by (unfold plan_step_fails; now rewrite Hmiss, Hown, Hcall).
    rewrite Hps in Hk. simpl in Hk.
    destruct (first_failure ext rest w1) as [k'|] eqn:Hrest; [|discriminate].
    simpl in Hk. injection Hk as <-.
    destruct (IH (S i) w1 k' Hrest) as (Hlen & Hok & Hstep & Hname & Hcalled & Hw).
    assert (Hpos : k' > 0).
    { destruct k'; [|lia]. simpl in Hlen.
      destruct (plan_results (plan_loop ext coe (S i) rest w1));
        [discriminate Hok | discriminate Hlen]. }
    simpl. rewrite Hps. simpl. repeat split.
    + now rewrite Hlen.
    + rewrite Hok. destruct k' as [|k'']; [lia|].
      simpl. now rewrite Nat.sub_0_r.
    + rewrite Hstep. replace (S i + 1) with (S (i + 1)) by lia. reflexivity.
    + now rewrite Hname.
    + constructor; [lia|].
      eapply Forall_impl; [|exact Hcalled]. simpl. intros j Hj. lia.
    + exact Hw.
  - assert (Hps : plan_step_fails ext step w = (true, w1))
      by (unfold plan_step_fails; now rewrite Hmiss, Hown, Hcall).
    rewrite Hps in Hk. simpl in Hk. injection Hk as <-.
    rewrite Hcoe. simpl. rewrite Hps. simpl.
    replace (i + 1) with (S i) by lia.
    repeat split; repeat constructor; lia.
Qed.

Lemma plan_loop_continues (steps : list Step) :
  forall i w,
    let r := plan_loop ext (Some true) i steps w in
    length (plan_results r) = length steps
    /\ map pe_step (plan_results r) = seq (i + 1) (length steps)
    /\ map pe_name (plan_results r) = map step_name steps
    /\ map pe_ok (plan_results r) = map negb (failures ext steps w)
    /\ plan_world r = world_after ext (length steps) steps w.
Proof.
  induction steps as [|step rest IH]; intros i w; simpl.
  { repeat split. }
  destruct (negb (tool_found (step_name step))
            || negb (handler_is_function (step_name step))) eqn:Hmiss.
  { assert (Hps : plan_step_fails ext step w = (true, w))
      by (unfold plan_step_fails; now rewrite Hmiss).
    rewrite Hps. simpl.
    destruct (IH (S i) w) as (Hlen & Hstep & Hname & Hok & Hw).
    rewrite Hlen, Hstep, Hname, Hok, Hw.
    replace (S i + 1) with (S (i + 1)) by lia. repeat split. }
  destruct (negb (own_tool (step_name step))) eqn:Hown.
  { assert (Hps : plan_step_fails ext step w = (true, w))
      by (unfold plan_step_fails; now rewrite Hmiss, Hown).
    rewrite Hps. simpl.
    destruct (IH (S i) w) as (Hlen & Hstep & Hname & Hok & Hw).
    rewrite Hlen, Hstep, Hname, Hok, Hw.
    replace (S i + 1) with (S (i + 1)) by lia. repeat split. }
  destruct (call_tool ext (step_name step) (arguments_of step) w)
    as [[v|e] w1] eqn:Hcall.
  - assert (Hps : plan_step_fails ext step w = (false, w1))
      by (unfold plan_step_fails; now rewrite Hmiss, Hown, Hcall).
    rewrite Hps. simpl.
    destruct (IH (S i) w1) as (Hlen & Hstep & Hname & Hok & Hw).
    rewrite Hlen, Hstep, Hname, Hok, Hw.
    replace (S i + 1) with (S (i + 1)) by lia. repeat split.
  - assert (Hps : plan_step_fails ext step w = (true, w1))
      by (unfold plan_step_fails; now rewrite Hmiss, Hown, Hcall).
    rewrite Hps. simpl.
    destruct (IH (S i) w1) as (Hlen & Hstep & Hname & Hok & Hw).
    rewrite Hlen, Hstep, Hname, Hok, Hw.
    replace (S i + 1) with (S (i + 1)) by lia. repeat split.
Qed.

End Plan.

(** C5.  In a plan whose [continueOnError] is not true, let step [k]
    (counted from 1) be the first to fail, be it by naming no tool or by
    its handler raising.  Then the result log has exactly [k] entries,
    the first [k - 1] with [ok = true] and entry [k] with [ok = false],
    numbered 1 to [k] and named after the first [k] steps; no handler
    beyond step [k] is called, and the world is the one that step [k]
    left. *)
Theorem C5_plan_stops_at_first_failure :
  forall ext steps coe w k,
    truthy coe = false ->
    first_failure ext steps w = Some k ->
    let r := test_plan_run ext (mkPlanInput steps coe) w in
    length (plan_results r) = k
    /\ map pe_ok (plan_results r) = (repeat true (k - 1) ++ [false])%list
    /\ map pe_step (plan_results r) = seq 1 k
    /\ map pe_name (plan_results r) = map step_name (firstn k steps)
    /\ Forall (fun j => j <= k) (plan_called r)
    /\ plan_world r = world_after ext k steps w.
Proof.
  intros ext steps coe w k Hcoe Hk. unfold test_plan_run. simpl.
  destruct (plan_loop_stops ext coe steps Hcoe 0 w k Hk)
    as (Hlen & Hok & Hstep & Hname & Hcalled & Hw).
  repeat split; try assumption.
  eapply Forall_impl; [|exact Hcalled]. simpl. intros j Hj. lia.
Qed.

(** C5 at the plan [three_steps], whose second step is the first to
    fail. *)
Lemma C5_plan_stops_at_first_failure_witness :
  let r := test_plan_run unreached (mkPlanInput three_steps None) idle_world in
  length (plan_results r) = 2
  /\ map pe_ok (plan_results r) = [true; false]
  /\ map pe_step (plan_results r) = [1; 2]
  /\ map pe_name (plan_results r) = ["browser_close"; "nope"]
  /\ Forall (fun j => j <= 2) (plan_called r)
  /\ plan_world r = world_after unreached 2 three_steps idle_world.
Proof.
  exact (C5_plan_stops_at_first_failure unreached three_steps None idle_world 2
           eq_refl eq_refl).
Defined.

(** C6.  In a plan with [continueOnError] true the result log has one
    entry per step, whichever steps fail: entry [i] carries the number
    [i] (counted from 1) and the name of step [i], its [ok] tells
    whether that step failed when its turn came, and every step was
    run. *)
Theorem C6_plan_continues_over_failures :
  forall ext steps w,
    let r := test_plan_run ext (mkPlanInput steps (Some true)) w in
    length (plan_results r) = length steps
    /\ map pe_step (plan_results r) = seq 1 (length steps)
    /\ map pe_name (plan_results r) = map step_name steps
    /\ map pe_ok (plan_results r) = map negb (failures ext steps w)
    /\ plan_world r = world_after ext (length steps) steps w.
Proof.
  intros ext steps w. unfold test_plan_run. simpl.
  exact (plan_loop_continues ext steps 0 w).
Qed.

Example plan_continues_sample :
  plan_results
    (test_plan_run unreached (mkPlanInput three_steps (Some true)) idle_world)
  = [mkPlanEntry 1 "browser_close" true "ok";
     mkPlanEntry 2 "nope" false unknown_tool;
     mkPlanEntry 3 "browser_open" true "ok"].
Proof. vm_compute; reflexivity. Qed.

(** ** Control points of a suite run *)

Lemma count_app (p : Event -> bool) (a b : list Event) :
  count p (a ++ b) = count p a + count p b.
Proof. unfold count. now rewrite filter_app, length_app. Qed.

Lemma count_none (p : Event -> bool) (l : list Event) :
  forallb (fun e => negb (p e)) l = true -> count p l = 0.
Proof.
  unfold count. induction l as [|e l IH]; simpl; [reflexivity|].
  intros H. apply andb_true_iff in H as [He Hl].
  apply negb_true_iff in He. rewrite He. now apply IH.
Qed.

Section Traces.

Variable p : Event -> bool.

Lemma quiet_here {A} (m : M Ctx A) :
  (forall c, events (snd (m c)) = events c) -> quiet p m.
Proof.
  intros H c. exists []. now rewrite H, app_nil_r.
Qed.

Lemma quiet_ret {A} (a : A) : quiet p (ret a).
Proof. now apply quiet_here. Qed.

Lemma quiet_throw {A} (e : string) : quiet p (@throw Ctx A e).
Proof. now apply quiet_here. Qed.

Lemma quiet_gets {A} (f : Ctx -> A) : quiet p (gets f).
Proof. now apply quiet_here. Qed.

Lemma quiet_liftW {A} (m : M World A) : quiet p (liftW m).
Proof.
  apply quiet_here. intros c. unfold liftW. now destruct (m (world c)).
Qed.

Lemma quiet_update_results (f : Results -> Results) :
  quiet p (update_results f).
Proof. now apply quiet_here. Qed.

Lemma quiet_push (ph : Phase) (e : Entry) : quiet p (push ph e).
Proof. now apply quiet_here. Qed.

Lemma quiet_emit (e : Event) : p e = false -> quiet p (emit e).
Proof.
  intros He c. exists [e]. simpl. now rewrite He.
Qed.

Lemma quiet_bind {A B} (m : M Ctx A) (k : A -> M Ctx B) :
  quiet p m -> (forall a, quiet p (k a)) -> quiet p (bind m k).
Proof.
  intros Hm Hk c. unfold bind.
  destruct (Hm c) as (e1 & H1 & F1).
  destruct (m c) as [[a|e] c1]; simpl in H1.
  - destruct (Hk a c1) as (e2 & H2 & F2).
    exists (e1 ++ e2)%list. rewrite H2, H1, app_assoc, forallb_app, F1, F2.
    now split.
  - exists e1. now split.
Qed.

Lemma quiet_try_catch {A} (m : M Ctx A) (h : string -> M Ctx A) :
  quiet p m -> (forall e, quiet p (h e)) -> quiet p (try_catch m h).
Proof.
  intros Hm Hh c. unfold try_catch.
  destruct (Hm c) as (e1 & H1 & F1).
  destruct (m c) as [[a|e] c1]; simpl in H1.
  - exists e1. now split.
  - destruct (Hh e c1) as (e2 & H2 & F2).
    exists (e1 ++ e2)%list. rewrite H2, H1, app_assoc, forallb_app, F1, F2.
    now split.
Qed.

Lemma quiet_catching {A} (m : M Ctx A) : quiet p m -> quiet p (catching m).
Proof.
  intros Hm c. unfold catching.
  destruct (Hm c) as (e1 & H1 & F1).
  destruct (m c) as [r c1]; simpl in *. exists e1. now split.
Qed.

Lemma quiet_when (b : bool) (m : M Ctx unit) : quiet p m -> quiet p (when b m).
Proof. intros Hm. destruct b; [exact Hm | apply quiet_ret]. Qed.

Lemma total_ret {A} (a : A) : total (ret a).
Proof. intros c. now exists a, c. Qed.

Lemma total_gets {A} (f : Ctx -> A) : total (gets f).
Proof. intros c. now exists (f c), c. Qed.

Lemma total_modify (f : Ctx -> Ctx) : total (modify f).
Proof. intros c. now exists tt, (f c). Qed.

Lemma total_bind {A B} (m : M Ctx A) (k : A -> M Ctx B) :
  total m -> (forall a, total (k a)) -> total (bind m k).
Proof.
  intros Hm Hk c. unfold bind.
  destruct (Hm c) as (a & c1 & ->). apply Hk.
Qed.

Lemma total_try_catch {A} (m : M Ctx A) (h : string -> M Ctx A) :
  (forall e, total (h e)) -> total (try_catch m h).
Proof.
  intros Hh c. unfold try_catch.
  destruct (m c) as [[a|e] c1]; [now exists a, c1 | apply Hh].
Qed.

Lemma total_catching {A} (m : M Ctx A) : total (catching m).
Proof.
  intros c. unfold catching. destruct (m c) as [r c1]. now exists r, c1.
Qed.

Lemma total_when (b : bool) (m : M Ctx unit) : total m -> total (when b m).
Proof. intros Hm. destruct b; [exact Hm | apply total_ret]. Qed.

End Traces.

(** Splits a composite computation along its binds and handlers. *)
Ltac quiet_step :=
  repeat first
    [ apply quiet_bind; [|intros]
    | apply quiet_try_catch; [|intros]
    | apply quiet_catching
    | apply quiet_when
    | apply quiet_ret | apply quiet_throw | apply quiet_gets
    | apply quiet_liftW | apply quiet_update_results | apply quiet_push
    | apply quiet_emit; reflexivity ].

Ltac total_step :=
  repeat first
    [ apply total_bind; [|intros]
    | apply total_try_catch; intros
    | apply total_catching
    | apply total_when
    | apply total_ret | apply total_gets | apply total_modify ].

Section SuiteRun.

Variable ext : string -> Args -> M World string.

Variable input : SuiteInput.

Lemma runSteps_loop_quiet (p : Event -> bool) (ph : Phase) :
  (forall n, p (EvInvoke ph n) = false) ->
  forall steps, quiet p (runSteps_loop ext input steps ph).
Proof.
  intros Hp. induction steps as [|step rest IH]; simpl; [apply quiet_ret|].
  apply quiet_bind; [|intros; exact IH].
  apply quiet_try_catch; [|intros; quiet_step].
  quiet_step. apply quiet_emit, Hp.
Qed.

Lemma runSteps_quiet (p : Event -> bool) (ph : Phase) (steps : list Step) :
  p (EvRunSteps ph) = false ->
  (forall n, p (EvInvoke ph n) = false) ->
  quiet p (runSteps ext input steps ph).
Proof.
  intros Hrun Hinv. unfold runSteps.
  apply quiet_bind; [now apply quiet_emit|].
  intros _. now apply runSteps_loop_quiet.
Qed.

Lemma capture_screenshot_quiet p dir test n :
  quiet p (capture_screenshot input dir test n).
Proof.
  unfold capture_screenshot.
  destruct (truthy (onFailureScreenshot input)); quiet_step.
Qed.

Lemma capture_trace_quiet p dir test n :
  quiet p (capture_trace input dir test n).
Proof.
  unfold capture_trace.
  destruct (truthy (traceOnFailure input)); quiet_step.
Qed.

Lemma on_failure_quiet p dir test e l :
  quiet p (on_failure input dir test e l).
Proof.
  unfold on_failure.
  apply quiet_bind; [apply capture_screenshot_quiet|intros].
  apply quiet_bind; [apply capture_trace_quiet|intros]. apply quiet_ret.
Qed.

Lemma tracing_quiet p m : quiet p (tracing input m).
Proof. unfold tracing. quiet_step. Qed.

Lemma attempt_once_quiet p dir test l :
  outside_tests p -> quiet p (attempt_once ext input dir test l).
Proof.
  intros (Hatt & Hrun & Hinv). unfold attempt_once.
  apply quiet_bind; [apply quiet_emit, Hatt|intros _].
  apply quiet_bind.
  - apply quiet_catching, quiet_bind; [apply tracing_quiet|intros _].
    now apply runSteps_quiet.
  - intros [v|e]; [|apply on_failure_quiet].
    apply quiet_bind; [apply quiet_catching, tracing_quiet|].
    intros [v'|e]; [apply quiet_ret | apply on_failure_quiet].
Qed.

Lemma attempt_loop_quiet p dir test :
  outside_tests p ->
  forall fuel l, quiet p (attempt_loop ext input fuel dir test l).
Proof.
  intros Hp. induction fuel as [|fuel IH]; intros l; simpl;
    [apply quiet_ret|].
  destruct (Z.leb (Z.of_nat (attempt l)) (retries_of input));
    [|apply quiet_ret].
  apply quiet_bind; [now apply attempt_once_quiet|].
  intros [b l']; simpl. destruct b; [apply quiet_ret | apply IH].
Qed.

Lemma run_test_quiet p dir test :
  outside_tests p -> quiet p (run_test ext input dir test).
Proof.
  intros Hp. unfold run_test.
  apply quiet_bind; [now apply attempt_loop_quiet|intros]. quiet_step.
Qed.

Lemma tests_loop_quiet p dir :
  outside_tests p ->
  forall ts, quiet p (tests_loop ext input dir ts).
Proof.
  intros Hp. induction ts as [|test rest IH]; simpl; [apply quiet_ret|].
  apply quiet_bind; [now apply run_test_quiet|].
  intros [|]; [apply quiet_ret | exact IH].
Qed.

Lemma acquire_quiet p : p EvAcquire = false -> quiet p (acquire input).
Proof.
  intros Hp. unfold acquire. quiet_step. now apply quiet_emit.
Qed.

Lemma resolve_artifactsDir_quiet p : quiet p (resolve_artifactsDir input).
Proof. unfold resolve_artifactsDir. quiet_step. Qed.

Lemma report_quiet p : quiet p (report input).
Proof.
  unfold report. quiet_step.
  destruct (junitPath input); quiet_step.
Qed.

Lemma release_quiet p : p EvRelease = false -> quiet p (release input).
Proof.
  intros Hp. unfold release. quiet_step. now apply quiet_emit.
Qed.

(** The test phase contains every failure of a test. *)
Lemma capture_screenshot_total dir test n :
  total (capture_screenshot input dir test n).
Proof.
  unfold capture_screenshot.
  destruct (truthy (onFailureScreenshot input)); total_step.
Qed.

Lemma capture_trace_total dir test n :
  total (capture_trace input dir test n).
Proof.
  unfold capture_trace.
  destruct (truthy (traceOnFailure input)); total_step.
Qed.

Lemma on_failure_total dir test e l :
  total (on_failure input dir test e l).
Proof.
  unfold on_failure.
  apply total_bind; [apply capture_screenshot_total|intros].
  apply total_bind; [apply capture_trace_total|intros]. apply total_ret.
Qed.

Lemma attempt_once_total dir test l :
  total (attempt_once ext input dir test l).
Proof.
  unfold attempt_once, emit.
  apply total_bind; [apply total_modify|intros _].
  apply total_bind; [apply total_catching|].
  intros [v|e]; [|apply on_failure_total].
  apply total_bind; [apply total_catching|].
  intros [v'|e]; [apply total_ret | apply on_failure_total].
Qed.

Lemma attempt_loop_total dir test :
  forall fuel l, total (attempt_loop ext input fuel dir test l).
Proof.
  induction fuel as [|fuel IH]; intros l; simpl; [apply total_ret|].
  destruct (Z.leb (Z.of_nat (attempt l)) (retries_of input));
    [|apply total_ret].
  apply total_bind; [apply attempt_once_total|].
  intros [b l']; simpl. destruct b; [apply total_ret | apply IH].
Qed.

Lemma run_test_total dir test : total (run_test ext input dir test).
Proof.
  unfold run_test, push, update_results.
  apply total_bind; [apply attempt_loop_total|intros]. total_step.
Qed.

Lemma tests_loop_total dir :
  forall ts, total (tests_loop ext input dir ts).
Proof.
  induction ts as [|test rest IH]; simpl; [apply total_ret|].
  apply total_bind; [apply run_test_total|].
  intros [|]; [apply total_ret | exact IH].
Qed.

Lemma resolve_artifactsDir_total : total (resolve_artifactsDir input).
Proof. unfold resolve_artifactsDir. total_step. Qed.

End SuiteRun.

Section SuitePhases.

Variable ext : string -> Args -> M World string.

Variable input : SuiteInput.

(** A call is its setup phase, then the artifact directory and the
    test loop, neither of which raises, then the closing phase. *)
Lemma test_suite_run_phases (c : Ctx) :
  match setup_phase ext input c with
  | (Throw e, c1) => test_suite_run ext input c = (Throw e, c1)
  | (Return _, c1) =>
      exists dir c2 c3,
        resolve_artifactsDir input c1 = (Return dir, c2)
        /\ tests_loop ext input dir (tests input) c2 = (Return tt, c3)
        /\ test_suite_run ext input c = closing_phase ext input c3
  end.
Proof.
  unfold test_suite_run, setup_phase, closing_phase, teardown_phase, bind.
  destruct (acquire input c) as [[[]|e] c0]; [|reflexivity].
  destruct (when (nonempty (setup input))
              (runSteps ext input (steps_of (setup input)) Setup) c0)
    as [[[]|e] c1]; [|reflexivity].
  destruct (resolve_artifactsDir_total input c1) as (dir & c2 & Hdir).
  destruct (tests_loop_total ext input dir (tests input) c2)
    as ([] & c3 & Htests).
  exists dir, c2, c3. now rewrite Hdir, Htests.
Qed.

Lemma setup_phase_quiet p :
  p EvAcquire = false -> p (EvRunSteps Setup) = false ->
  (forall n, p (EvInvoke Setup n) = false) ->
  quiet p (setup_phase ext input).
Proof.
  intros Hacq Hrun Hinv. unfold setup_phase.
  apply quiet_bind; [now apply acquire_quiet|intros _].
  apply quiet_when. now apply runSteps_quiet.
Qed.

(** The teardown statement enters [runSteps] once when there are
    teardown steps, and not at all otherwise. *)
Lemma teardown_phase_events (c : Ctx) :
  count is_teardown_run (events (snd (teardown_phase ext input c)))
  = count is_teardown_run (events c)
    + (if nonempty (teardown input) then 1 else 0).
Proof.
  unfold teardown_phase.
  destruct (nonempty (teardown input)); simpl; [|lia].
  unfold runSteps, bind, emit, modify.
  set (c1 := mkCtx (world c) (results c) (events c ++ [EvRunSteps Teardown])).
  destruct (runSteps_loop_quiet ext input is_teardown_run Teardown
              (fun _ => eq_refl) (steps_of (teardown input)) c1)
    as (evs & Hevs & Hq).
  rewrite Hevs. unfold c1. simpl.
  rewrite !count_app, (count_none _ _ Hq). unfold count. simpl. lia.
Qed.

Lemma teardown_phase_quiet p :
  p (EvRunSteps Teardown) = false ->
  (forall n, p (EvInvoke Teardown n) = false) ->
  quiet p (teardown_phase ext input).
Proof.
  intros Hrun Hinv. unfold teardown_phase.
  apply quiet_when. now apply runSteps_quiet.
Qed.

(** [release] never raises, leaves [results] alone, and calls
    [browser_close] exactly when [autoBrowser] is not false. *)
Lemma release_run (c : Ctx) :
  exists c',
    release input c = (Return tt, c')
    /\ results c' = results c
    /\ events c'
       = (events c ++ if shouldAutoBrowser input then [EvRelease] else [])%list.
Proof.
  unfold release.
  destruct (shouldAutoBrowser input); simpl.
  - unfold bind, emit, modify, try_catch, liftW, ret. simpl.
    destruct (browser_close (world c)) as [[v|e] w1]; simpl;
      eexists; repeat split.
  - exists c. repeat split. now rewrite app_nil_r.
Qed.

Lemma closing_phase_teardown (c : Ctx) :
  count is_teardown_run (events (snd (closing_phase ext input c)))
  = count is_teardown_run (events c)
    + (if nonempty (teardown input) then 1 else 0).
Proof.
  assert (Hq : quiet is_teardown_run
                 (report input ;; release input ;; gets results)).
  { apply quiet_bind; [apply report_quiet|intros _].
    apply quiet_bind; [now apply release_quiet|intros _]. apply quiet_gets. }
  unfold closing_phase. unfold bind at 1.
  pose proof (teardown_phase_events c) as Htd.
  destruct (teardown_phase ext input c) as [[[]|e] c1]; simpl in Htd |- *;
    [|exact Htd].
  destruct (Hq c1) as (evs & Hevs & Hnone).
  rewrite Hevs, count_app, (count_none _ _ Hnone), Htd. lia.
Qed.

Lemma closing_phase_release (c : Ctx) :
  match fst (closing_phase ext input c) with
  | Return r =>
      count is_release (events (snd (closing_phase ext input c)))
      = count is_release (events c)
        + (if shouldAutoBrowser input then 1 else 0)
      /\ r = results (snd (closing_phase ext input c))
  | Throw _ =>
      count is_release (events (snd (closing_phase ext input c)))
      = count is_release (events c)
  end.
Proof.
  unfold closing_phase, bind.
  destruct (teardown_phase_quiet is_release eq_refl (fun _ => eq_refl) c)
    as (e1 & H1 & Q1).
  destruct (teardown_phase ext input c) as [[[]|e] c1]; simpl in H1 |- *.
  2:{ now rewrite H1, count_app, (count_none _ _ Q1). }
  destruct (report_quiet input is_release c1) as (e2 & H2 & Q2).
  destruct (report input c1) as [[[]|e] c2]; simpl in H2 |- *.
  2:{ rewrite H2, H1, !count_app, (count_none _ _ Q1), (count_none _ _ Q2).
      lia. }
  destruct (release_run c2) as (c3 & -> & Hres & Hev). simpl.
  rewrite Hev, H2, H1, !count_app, (count_none _ _ Q1), (count_none _ _ Q2).
  split; [|reflexivity].
  destruct (shouldAutoBrowser input); unfold count; simpl; lia.
Qed.

End SuitePhases.

Lemma outside_tests_teardown_run : outside_tests is_teardown_run.
Proof. repeat split. Qed.



(** The events of a call up to the end of its test loop, when the setup
    phase returns: none satisfies [p] if setup, attempts and test steps
    are not what [p] looks for. *)
Lemma before_closing_quiet ext input p w c1 dir c2 c3 :
  p EvAcquire = false -> p (EvRunSteps Setup) = false ->
  (forall n, p (EvInvoke Setup n) = false) ->
  outside_tests p ->
  setup_phase ext input (start w) = (Return tt, c1) ->
  resolve_artifactsDir input c1 = (Return dir, c2) ->
  tests_loop ext input dir (tests input) c2 = (Return tt, c3) ->
  count p (events c3) = 0.
Proof.
  intros Hacq Hrun Hinv Htests Hsetup Hdir Hloop.
  destruct (setup_phase_quiet ext input p Hacq Hrun Hinv (start w))
    as (e1 & H1 & Q1).
  destruct (resolve_artifactsDir_quiet input p c1) as (e2 & H2 & Q2).
  destruct (tests_loop_quiet ext input p dir Htests (tests input) c2)
    as (e3 & H3 & Q3).
  rewrite Hsetup in H1. rewrite Hdir in H2. rewrite Hloop in H3.
  simpl in H1, H2, H3.
  rewrite H3, H2, H1, !count_app,
    (count_none _ _ Q1), (count_none _ _ Q2), (count_none _ _ Q3).
  reflexivity.
Qed.

(** C2 (as stated) fails.  The setup step names no tool and
    [continueOnError] is absent: [runSteps] raises out of
    [test_suite_run] right after the browser was opened.  The teardown
    steps are never handed to [runSteps], [browser_close] is not called
    and the browser that the call opened is still held. *)
Lemma C2_setup_failure_skips_teardown_and_release :
  fst failing_setup_run = Throw unknown_tool
  /\ events (snd failing_setup_run) = [EvAcquire; EvRunSteps Setup]
  /\ count is_teardown_run (events (snd failing_setup_run)) = 0
  /\ count is_release (events (snd failing_setup_run)) = 0
  /\ browser (state (world (snd failing_setup_run))) = Some 0.
Proof. repeat split; vm_compute; reflexivity. Qed.

(** The only test of a suite fails; the teardown still runs, once. *)
Example teardown_after_failed_test :
  events (snd (test_suite_run unreached
                 (with_teardown [step_close]
                    (with_autoBrowser false
                       (suite [mkTest "A" [mkStep "page_new" None]])))
                 (start idle_world)))
  = [EvAttempt "A" 0; EvRunSteps TestPhase; EvInvoke TestPhase "page_new";
     EvRunSteps Teardown; EvInvoke Teardown "browser_close"].
Proof. vm_compute; reflexivity. Qed.

(** ** Acquisition and release of the browser *)

Section Acquisition.

Variable ext : string -> Args -> M World string.

Variable input : SuiteInput.




End Acquisition.

Section Release.

Variable ext : string -> Args -> M World string.

Variable input : SuiteInput.

(** The release, spelled out: [browser_close] is run on the world of
    the call when [autoBrowser] is not false, whether it returns or
    raises, and nothing else changes. *)
Lemma release_exact (c : Ctx) :
  release input c
  = (Return tt,
     mkCtx (if shouldAutoBrowser input then snd (browser_close (world c))
            else world c)
       (results c)
       (events c ++ if shouldAutoBrowser input then [EvRelease] else [])).
Proof.
  unfold release. destruct (shouldAutoBrowser input); simpl.
  - unfold bind, emit, modify, try_catch, liftW, ret. simpl.
    now destruct (browser_close (world c)) as [[v|e] w1].
  - destruct c. unfold ret. simpl. now rewrite app_nil_r.
Qed.




End Release.





(** ** The retry loop *)

Section Retry.

Variable ext : string -> Args -> M World string.

Variable input : SuiteInput.

Variable dir : string.

Variable test : Test.

Lemma on_failure_shape (e : string) (l : Locals) (c : Ctx) :
  exists arts c',
    on_failure input dir test e l c
    = (Return (Z.ltb (retries_of input) (Z.of_nat (S (attempt l))),
               mkLocals (S (attempt l)) (l_ok l) (Some e)
                 (testArtifacts l ++ arts)),
       c')
    /\ count is_attempt (events c') = count is_attempt (events c)
    /\ (truthy (traceOnFailure input) = false ->
        arts = []
        \/ (truthy (onFailureScreenshot input) = true
            /\ arts = [artifact_file dir test (S (attempt l)) ".png"])).
Proof.
  unfold on_failure, bind.
  destruct (capture_screenshot_total input dir test (S (attempt l)) c)
    as (shot & c1 & Hshot).
  destruct (capture_screenshot_quiet input is_attempt dir test (S (attempt l)) c)
    as (e1 & H1 & Q1).
  rewrite Hshot in H1 |- *. simpl in H1.
  destruct (capture_trace_total input dir test (S (attempt l)) c1)
    as (zip & c2 & Hzip).
  destruct (capture_trace_quiet input is_attempt dir test (S (attempt l)) c1)
    as (e2 & H2 & Q2).
  rewrite Hzip in H2 |- *. simpl in H2.
  exists (shot ++ zip)%list, c2. split; [reflexivity|]. split.
  - rewrite H2, H1, !count_app, (count_none _ _ Q1), (count_none _ _ Q2). lia.
  - intros Htrace.
    assert (zip = []) as ->.
    { unfold capture_trace in Hzip. rewrite Htrace in Hzip.
      now injection Hzip as <- _. }
    rewrite app_nil_r.
    unfold capture_screenshot in Hshot.
    destruct (truthy (onFailureScreenshot input)).
    + unfold try_catch, bind, liftW, ret in Hshot.
      destruct (ensurePage (world c)) as [[pg|e'] w1];
        [|injection Hshot as <- _; now left].
      simpl in Hshot.
      destruct (driver w1) as [[[]|e'] w2]; injection Hshot as <- _;
        [right; now split | now left].
    + injection Hshot as <- _. now left.
Qed.

(** A pass either leaves the loop, or has failed and leaves room for
    another one. *)
Lemma attempt_once_shape (l : Locals) (c : Ctx) :
  exists b l' c',
    attempt_once ext input dir test l c = (Return (b, l'), c')
    /\ count is_attempt (events c') = S (count is_attempt (events c))
    /\ (b = false ->
        attempt l' = S (attempt l)
        /\ (Z.of_nat (S (attempt l)) <= retries_of input)%Z).
Proof.
  unfold attempt_once.
  set (body := tracing input driver ;;
               runSteps ext input (test_steps test) TestPhase).
  set (stop := tracing input driver).
  unfold bind, emit, modify, catching.
  set (c0 := mkCtx (world c) (results c) (events c ++ [EvAttempt (test_name test) (attempt l)])).
  assert (H0 : count is_attempt (events c0) = S (count is_attempt (events c))).
  { unfold c0. simpl. rewrite count_app. unfold count. simpl. lia. }
  assert (Hbody : quiet is_attempt body).
  { apply quiet_bind; [apply tracing_quiet|intros _].
    now apply runSteps_quiet. }
  destruct (Hbody c0) as (e1 & H1 & Q1).
  destruct (body c0) as [[[]|e] c1]; simpl in H1 |- *.
  - destruct (tracing_quiet input is_attempt driver c1) as (e2 & H2 & Q2).
    fold stop in H2.
    destruct (stop c1) as [[[]|e] c2]; simpl in H2 |- *.
    + eexists _, _, _. split; [reflexivity|]. split; [|discriminate].
      rewrite H2, H1, !count_app, (count_none _ _ Q1), (count_none _ _ Q2).
      unfold count. simpl. lia.
    + destruct (on_failure_shape e
                  (mkLocals (attempt l) true (lastErr l) (testArtifacts l)) c2)
        as (arts & c3 & -> & Hc & _).
      eexists _, _, _. split; [reflexivity|]. split.
      * rewrite Hc, H2, H1, !count_app, (count_none _ _ Q1),
          (count_none _ _ Q2). unfold count. simpl. lia.
      * simpl. intros Hb. apply Z.ltb_ge in Hb. split; [reflexivity | lia].
  - destruct (on_failure_shape e l c1) as (arts & c3 & -> & Hc & _).
    eexists _, _, _. split; [reflexivity|]. split.
    + rewrite Hc, H1, !count_app, (count_none _ _ Q1).
      unfold count. simpl. lia.
    + simpl. intros Hb. apply Z.ltb_ge in Hb. split; [reflexivity | lia].
Qed.

(** The bound on the passes is enough: a larger one changes nothing, so
    the loop is never cut short. *)
Lemma attempt_loop_fuel (fuel : nat) :
  forall fuel' l c,
    passes_left input l <= fuel -> passes_left input l <= fuel' ->
    attempt_loop ext input fuel dir test l c
    = attempt_loop ext input fuel' dir test l c.
Proof.
  unfold passes_left.
  induction fuel as [|fuel IH]; intros fuel' l c Hf Hf'.
  - destruct fuel' as [|fuel']; [reflexivity|]. simpl.
    destruct (Z.leb_spec (Z.of_nat (attempt l)) (retries_of input));
      [lia | reflexivity].
  - destruct fuel' as [|fuel'].
    + simpl.
      destruct (Z.leb_spec (Z.of_nat (attempt l)) (retries_of input));
        [lia | reflexivity].
    + simpl.
      destruct (Z.leb_spec (Z.of_nat (attempt l)) (retries_of input));
        [|reflexivity].
      unfold bind.
      destruct (attempt_once_shape l c) as (b & l' & c' & -> & _ & Hb).
      simpl. destruct b; [reflexivity|].
      destruct (Hb eq_refl) as [Hl' Hle].
      apply IH; rewrite Hl'; lia.
Qed.

(** With trace capture off, a pass leaves the loop with [ok] set as soon
    as [runSteps] returns, and otherwise records the error and at most
    one screenshot, named after the number of the failed attempt. *)
Lemma attempt_once_no_trace (l : Locals) (c : Ctx) :
  truthy (traceOnFailure input) = false ->
  exists c',
    count is_attempt (events c') = S (count is_attempt (events c))
    /\ (attempt_once ext input dir test l c
        = (Return (true, mkLocals (attempt l) true (lastErr l) (testArtifacts l)),
           c')
        \/ exists e arts,
             attempt_once ext input dir test l c
             = (Return (Z.ltb (retries_of input) (Z.of_nat (S (attempt l))),
                        mkLocals (S (attempt l)) (l_ok l) (Some e)
                          (testArtifacts l ++ arts)),
                c')
             /\ (arts = []
                 \/ (truthy (onFailureScreenshot input) = true
                     /\ arts = [artifact_file dir test (S (attempt l)) ".png"]))).
Proof.
  intros Htrace.
  destruct (attempt_once_shape l c) as (b & l' & c' & Hrun & Hcount & _).
  exists c'. split; [exact Hcount|].
  revert Hrun. unfold attempt_once, tracing. rewrite Htrace. simpl when.
  set (steps := runSteps ext input (test_steps test) TestPhase).
  unfold bind, emit, modify, catching, ret.
  set (c0 := mkCtx (world c) (results c) (events c ++ [EvAttempt (test_name test) (attempt l)])).
  destruct (steps c0) as [[[]|e] c1]; simpl.
  - intros [= <- <- <-]. now left.
  - destruct (on_failure_shape e l c1) as (arts & c3 & Hf & _ & Harts).
    rewrite Hf. intros [= <- <- <-]. right. exists e, arts.
    split; [reflexivity | now apply Harts].
Qed.

(** The retry loop with trace capture off, started before any success. *)
Lemma attempt_loop_no_trace :
  truthy (traceOnFailure input) = false ->
  forall fuel l c,
    l_ok l = false ->
    passes_left input l <= fuel ->
    exists l' c' ks,
      attempt_loop ext input fuel dir test l c = (Return l', c')
      /\ attempt l <= attempt l'
      /\ count is_attempt (events c')
         = count is_attempt (events c) + (attempt l' - attempt l)
           + (if l_ok l' then 1 else 0)
      /\ (l_ok l' = true -> (Z.of_nat (attempt l') <= retries_of input)%Z)
      /\ (l_ok l' = false ->
          (retries_of input < Z.of_nat (attempt l'))%Z
          /\ (attempt l < attempt l' ->
              Z.of_nat (attempt l') = (retries_of input + 1)%Z
              /\ exists e, lastErr l' = Some e))
      /\ testArtifacts l' = (testArtifacts l ++ map (screenshot_of dir test) ks)%list
      /\ StronglySorted lt ks
      /\ Forall (fun k => attempt l < k <= attempt l') ks
      /\ (truthy (onFailureScreenshot input) = false -> ks = []).
Proof.
  intros Htrace. unfold passes_left.
  induction fuel as [|fuel IH]; intros l c Hok Hfuel; simpl.
  { exists l, c, []. rewrite Hok, app_nil_r.
    repeat split; try constructor; try lia; try discriminate. }
  destruct (Z.leb_spec (Z.of_nat (attempt l)) (retries_of input)) as [Hle|Hgt].
  2:{ exists l, c, []. rewrite Hok, app_nil_r.
      repeat split; try constructor; try lia; try discriminate. }
  unfold bind.
  destruct (attempt_once_no_trace l c Htrace)
    as (c1 & Hcount & [-> | (e & arts & -> & Harts)]); cbn [fst snd].
  - exists (mkLocals (attempt l) true (lastErr l) (testArtifacts l)), c1, [].
    cbn [attempt l_ok lastErr testArtifacts map]. rewrite app_nil_r, Hcount.
    repeat split; try constructor; try lia; try discriminate.
  - destruct (Z.ltb_spec (retries_of input) (Z.of_nat (S (attempt l))))
      as [Hlast|Hmore].
    + (* the budget is used up *)
      exists (mkLocals (S (attempt l)) (l_ok l) (Some e) (testArtifacts l ++ arts)),
        c1,
        (match arts with [] => [] | _ => [S (attempt l)] end).
      cbn [attempt l_ok lastErr testArtifacts]. rewrite Hok, Hcount.
      repeat split; try lia; try discriminate.
      * eexists; reflexivity.
      * destruct Harts as [-> | [_ ->]]; reflexivity.
      * destruct arts; repeat constructor.
      * destruct arts; repeat constructor; lia.
      * intros Hshot. destruct Harts as [-> | [Hs _]]; [reflexivity|congruence].
    + (* another pass *)
      set (l1 := mkLocals (S (attempt l)) (l_ok l) (Some e) (testArtifacts l ++ arts)).
      destruct (IH l1 c1 Hok) as (l' & c' & ks & Hrun & Hmono & Hc & Htrue & Hfalse & Hart & Hsort & Hbound & Hnone).
      { unfold l1. cbn [attempt]. lia. }
      exists l', c', ((match arts with [] => [] | _ => [S (attempt l)] end) ++ ks)%list.
      unfold l1 in *. cbn [attempt l_ok lastErr testArtifacts] in *.
      split; [exact Hrun|]. split; [lia|]. split; [rewrite Hc, Hcount; lia|].
      split; [exact Htrue|]. split.
      { intros Hf. destruct (Hfalse Hf) as [H1 H2]. split; [exact H1|].
        intros _. apply H2. lia. }
      split.
      { rewrite Hart, map_app, <- !app_assoc.
        destruct Harts as [-> | [_ ->]]; reflexivity. }
      split.
      { destruct arts; simpl; [exact Hsort|].
        constructor; [exact Hsort|].
        eapply Forall_impl; [|exact Hbound]. simpl. intros k Hk. lia. }
      split.
      { apply Forall_app. split.
        - destruct arts; repeat constructor; lia.
        - eapply Forall_impl; [|exact Hbound]. simpl. intros k Hk. lia. }
      intros Hshot. rewrite (Hnone Hshot), app_nil_r.
      destruct Harts as [-> | [Hs _]]; [reflexivity|congruence].
Qed.

End Retry.

Lemma sorted_bounded_length (ks : list nat) :
  forall lo hi,
    StronglySorted lt ks ->
    Forall (fun k => lo < k <= hi) ks ->
    length ks <= hi - lo.
Proof.
  induction ks as [|k ks IH]; intros lo hi Hsort Hbound; simpl; [lia|].
  inversion Hsort as [|? ? Hs Hall]; subst.
  inversion Hbound as [|? ? Hk Hks]; subst.
  assert (Hrec : length ks <= hi - k).
  { apply IH; [exact Hs|].
    rewrite Forall_forall in *. intros j Hj.
    specialize (Hall j Hj). specialize (Hks j Hj). lia. }
  lia.
Qed.

(** With trace capture off and a retry budget [R >= 0], a test is
    attempted at most [R + 1] times and not again after a success: if
    it passes after [f] failed attempts, [f + 1 <= R + 1] attempts were
    made; if it fails, exactly [R + 1] attempts were made and the record
    carries the last error.  The record pushed for the test holds at
    most one screenshot per failed attempt, in order, each named after
    the sanitized test name and the number of its attempt counted from
    1, and none when screenshot capture is off. *)
Lemma run_test_no_trace ext input dir test (c : Ctx) :
  truthy (traceOnFailure input) = false ->
  (0 <= retries_of input)%Z ->
  exists c' pre passed err ks,
    run_test ext input dir test c
    = (Return (negb passed && negb (truthy (continueOnError input))), c')
    /\ r_tests (results c')
       = (pre ++ [test_entry (test_name test) passed err
                    (map (screenshot_of dir test) ks)])%list
    /\ 1 <= attempts_made c' - attempts_made c
    /\ (Z.of_nat (attempts_made c' - attempts_made c) <= retries_of input + 1)%Z
    /\ (passed = true ->
        err = None /\ length ks < attempts_made c' - attempts_made c)
    /\ (passed = false ->
        Z.of_nat (attempts_made c' - attempts_made c) = (retries_of input + 1)%Z
        /\ (exists e, err = Some e)
        /\ length ks <= attempts_made c' - attempts_made c)
    /\ StronglySorted lt ks
    /\ Forall (fun k => 1 <= k <= attempts_made c' - attempts_made c) ks
    /\ (truthy (onFailureScreenshot input) = false -> ks = []).
Proof.
  intros Htrace HR. unfold run_test, attempts_bound, bind.
  destruct (attempt_loop_no_trace ext input dir test Htrace
              (Z.to_nat (retries_of input + 1)) (mkLocals 0 false None []) c
              eq_refl)
    as (l & c1 & ks & -> & _ & Hc & Htrue & Hfalse & Hart & Hsort & Hbound & Hnone).
  { unfold passes_left. simpl. lia. }
  cbn [attempt l_ok lastErr testArtifacts app] in *.
  rewrite Nat.sub_0_r in *.
  assert (Hlen : length ks <= attempt l).
  { pose proof (sorted_bounded_length ks 0 (attempt l) Hsort Hbound). lia. }
  unfold push, update_results, modify, ret. simpl.
  eexists _, (r_tests (results c1)), (l_ok l), _, ks.
  split; [reflexivity|]. simpl. rewrite Hart. split; [reflexivity|].
  unfold attempts_made. cbn [events]. rewrite Hc.
  destruct (l_ok l) eqn:Hok.
  - specialize (Htrue eq_refl).
    repeat split; try lia; try discriminate; try assumption.
    eapply Forall_impl; [|exact Hbound]. simpl. lia.
  - destruct (Hfalse eq_refl) as [Hgt Hlast].
    assert (Hpos : 0 < attempt l) by lia.
    destruct (Hlast Hpos) as [Heq [e He]].
    repeat split; try lia; try discriminate; try assumption.
    + exists (lastErr_message (lastErr l)). reflexivity.
    + eapply Forall_impl; [|exact Hbound]. simpl. lia.
Qed.

(** Scenario D of the specification: [retries: 0], screenshots on, one
    failing test named "Login". *)
Example login_screenshot :
  r_tests (results (snd (test_suite_run unreached
                           (with_onFailureScreenshot true
                              (with_retries 0
                                 (suite [mkTest "Login" [step_nope]])))
                           (start idle_world))))
  = [step_failed "nope" unknown_tool;
     test_entry "Login" false (Some unknown_tool)
       ["/work/artifacts_1700/Login_attempt1.png"]]
  /\ ends_with "Login_attempt1.png" "/work/artifacts_1700/Login_attempt1.png"
     = true.
Proof. split; vm_compute; reflexivity. Qed.

Section Continue.

Variable ext : string -> Args -> M World string.

Variable input : SuiteInput.

Hypothesis Hcontinue : truthy (continueOnError input) = true.

(** With [continueOnError] true the step runner swallows every failure,
    in the test phase as in the others. *)
Lemma runSteps_loop_continue (ph : Phase) :
  forall steps, total (runSteps_loop ext input steps ph).
Proof.
  induction steps as [|step rest IH]; simpl; [apply total_ret|].
  apply total_bind; [|intros; exact IH].
  apply total_try_catch. intros e.
  apply total_bind; [apply total_modify|intros _].
  rewrite Hcontinue. apply total_ret.
Qed.

Lemma runSteps_continue (steps : list Step) (ph : Phase) :
  total (runSteps ext input steps ph).
Proof.
  unfold runSteps.
  apply total_bind; [apply total_modify|intros _].
  apply runSteps_loop_continue.
Qed.

(** Hence, with trace capture off, every test is reported as passed at
    its first attempt, whatever its steps did. *)
Lemma run_test_continue (dir : string) (test : Test) (c : Ctx) :
  truthy (traceOnFailure input) = false ->
  (0 <= retries_of input)%Z ->
  exists c',
    run_test ext input dir test c = (Return false, c')
    /\ exists pre,
         r_tests (results c')
         = (pre ++ [test_entry (test_name test) true None []])%list.
Proof.
  intros Htrace HR. unfold run_test, attempts_bound.
  destruct (Z.to_nat (retries_of input + 1)) as [|fuel] eqn:Hfuel; [lia|].
  simpl attempt_loop.
  assert (Hle : (0 <=? retries_of input)%Z = true) by (apply Z.leb_le; lia).
  rewrite Hle.
  unfold attempt_once, tracing. rewrite Htrace.
  cbn [when attempt l_ok lastErr testArtifacts].
  set (steps := runSteps ext input (test_steps test) TestPhase).
  unfold bind, emit, modify, catching, ret.
  set (c0 := mkCtx (world c) (results c) (events c ++ [EvAttempt (test_name test) 0])).
  destruct (runSteps_continue (test_steps test) TestPhase c0)
    as ([] & c1 & Hsteps).
  fold steps in Hsteps. rewrite Hsteps. simpl.
  eexists. split; [reflexivity|]. simpl. now eexists.
Qed.

End Continue.

(* ================================================================== *)
(** * Part IV: further properties of the code

    File names and escaped text; the browser and its pages; page
    actions and assertions; plans, the request dispatcher and the step
    runner of a suite; the records, the report field and the retry loop
    of a suite run. *)

(** ** File names *)

Lemma substring_prefix_length (n : nat) (s : string) :
  String.length (substring 0 n s) <= n.
Proof.
  revert s. induction n as [|n IH]; intros [|a s]; simpl; try lia.
  specialize (IH s). lia.
Qed.

Lemma substring_prefix_forall (p : ascii -> bool) (n : nat) (s : string) :
  string_forall p s = true -> string_forall p (substring 0 n s) = true.
Proof.
  revert s. induction n as [|n IH]; intros [|a s]; simpl; try reflexivity.
  intros H. apply andb_true_iff in H as [Ha Hs]. now rewrite Ha, IH.
Qed.

Lemma substring_prefix_short (n : nat) (s : string) :
  String.length s <= n -> substring 0 n s = s.
Proof.
  revert s. induction n as [|n IH]; intros [|a s]; simpl; try reflexivity.
  - lia.
  - intros H. rewrite IH; [reflexivity | lia].
Qed.

Lemma filename_char_underscore : filename_char "_" = true.
Proof. reflexivity. Qed.

Lemma collapse_runs_chars (s : string) :
  forall b, string_forall filename_char (collapse_runs b s) = true.
Proof.
  induction s as [|a s IH]; intros b; simpl; [reflexivity|].
  destruct (filename_char a) eqn:Ha.
  - simpl. now rewrite Ha, IH.
  - destruct b; [apply IH|]. simpl. now rewrite IH.
Qed.

Lemma collapse_runs_safe (s : string) :
  string_forall filename_char s = true ->
  forall b, collapse_runs b s = s.
Proof.
  induction s as [|a s IH]; simpl; [reflexivity|].
  intros H b. apply andb_true_iff in H as [Ha Hs].
  now rewrite Ha, IH.
Qed.

Lemma sanitizeFilename_shape (name : string) :
  String.length (sanitizeFilename name) <= 100
  /\ string_forall filename_char (sanitizeFilename name) = true.
Proof.
  unfold sanitizeFilename. split.
  - apply substring_prefix_length.
  - apply substring_prefix_forall, collapse_runs_chars.
Qed.

(** X1.  Whatever the test name, [sanitizeFilename] returns at most 100
    characters, all of them letters, digits, [-], [_] or [.]: in
    particular no path separator. *)
Theorem X1_sanitizeFilename_is_a_file_name :
  forall name,
    String.length (sanitizeFilename name) <= 100
    /\ string_forall filename_char (sanitizeFilename name) = true
    /\ count_char "/" (sanitizeFilename name) = 0
    /\ count_char "\" (sanitizeFilename name) = 0.
Proof.
  intros name.
  destruct (sanitizeFilename_shape name) as [Hlen H].
  split; [exact Hlen|]. split; [exact H|].
  split; apply count_char_forall with (p := filename_char);
    (reflexivity || exact H).
Qed.

(** X2.  [sanitizeFilename] is idempotent: a sanitized name is left as
    it is. *)
Theorem X2_sanitizeFilename_idempotent :
  forall name,
    sanitizeFilename (sanitizeFilename name) = sanitizeFilename name.
Proof.
  intros name.
  destruct (sanitizeFilename_shape name) as [Hlen Hchars].
  unfold sanitizeFilename at 1.
  rewrite collapse_runs_safe by exact Hchars.
  now apply substring_prefix_short.
Qed.

(** X3.  A name of at most 100 characters, all of them letters, digits,
    [-], [_] or [.], is its own file name. *)
Theorem X3_sanitizeFilename_keeps_safe_names :
  forall name,
    String.length name <= 100 ->
    string_forall filename_char name = true ->
    sanitizeFilename name = name.
Proof.
  intros name Hlen Hchars. unfold sanitizeFilename.
  rewrite collapse_runs_safe by exact Hchars.
  now apply substring_prefix_short.
Qed.

(** X3 at the name "Login_v2.1". *)
Lemma X3_sanitizeFilename_keeps_safe_names_witness :
  sanitizeFilename "Login_v2.1" = "Login_v2.1".
Proof.
  apply X3_sanitizeFilename_keeps_safe_names; [simpl; lia | reflexivity].
Defined.

(** ** Escaped text *)

(** X4.  [escapeXml] loses nothing: reading the five entities back gives
    the text it was applied to, so two texts with the same escaped form
    are the same text. *)
Theorem X4_escapeXml_is_reversible :
  (forall s, unescapeXml (escapeXml s) = s)
  /\ (forall a b, escapeXml a = escapeXml b -> a = b).
Proof.
  split; [exact unescape_escape|].
  intros a b H.
  rewrite <- (unescape_escape a), <- (unescape_escape b). now rewrite H.
Qed.

(** X4 at the text of an inequality between two names. *)
Lemma X4_escapeXml_is_reversible_witness :
  unescapeXml (escapeXml "a<b & c") = "a<b & c"
  /\ "a<b & c" = "a<b & c".
Proof.
  split.
  - exact (proj1 X4_escapeXml_is_reversible "a<b & c").
  - exact (proj2 X4_escapeXml_is_reversible "a<b & c" "a<b & c" eq_refl).
Defined.

Lemma escapeXml_plain (s : string) :
  string_forall (fun a => negb (rewritten a)) s = true -> escapeXml s = s.
Proof.
  rewrite escapeXml_charwise.
  induction s as [|a s IH]; simpl; [reflexivity|].
  intros H. apply andb_true_iff in H as [Ha Hs].
  apply negb_true_iff in Ha. unfold rewritten, reserved in Ha.
  apply orb_false_iff in Ha as [Hamp Hres].
  apply orb_false_iff in Hres as [Hres Hsq].
  apply orb_false_iff in Hres as [Hres Hdq].
  apply orb_false_iff in Hres as [Hlt Hgt].
  unfold escape_char at 1. rewrite Hamp, Hlt, Hgt, Hdq, Hsq.
  simpl. now rewrite IH.
Qed.

Lemma escape_char_length (a : ascii) : 1 <= String.length (escape_char a).
Proof.
  unfold escape_char.
  repeat match goal with
         | |- context [if ?b then _ else _] => destruct b
         end; simpl; lia.
Qed.

Lemma length_append (a b : string) :
  String.length (a ++ b) = String.length a + String.length b.
Proof. induction a as [|x a IH]; simpl; [reflexivity | now rewrite IH]. Qed.

(** X5.  Text without [&], [<], [>] and quotes is embedded in the report
    as it is, and escaping never shortens a text. *)
Theorem X5_escapeXml_keeps_plain_text :
  forall s,
    String.length s <= String.length (escapeXml s)
    /\ (string_forall (fun a => negb (rewritten a)) s = true ->
        escapeXml s = s).
Proof.
  intros s. split; [|apply escapeXml_plain].
  rewrite escapeXml_charwise.
  induction s as [|a s IH]; simpl; [lia|].
  rewrite length_append. pose proof (escape_char_length a). lia.
Qed.

(** X5 at a test name. *)
Lemma X5_escapeXml_keeps_plain_text_witness :
  escapeXml "Login page" = "Login page".
Proof.
  exact (proj2 (X5_escapeXml_keeps_plain_text "Login page") eq_refl).
Defined.

(** ** The markup of a report *)

Lemma string_of_uint_digits (d : Decimal.uint) :
  string_forall digit (NilEmpty.string_of_uint d) = true.
Proof. induction d; simpl; try reflexivity; exact IHd. Qed.

Lemma string_of_nat_digits (n : nat) :
  string_forall digit (string_of_nat n) = true.
Proof.
  unfold string_of_nat, NilZero.string_of_uint.
  destruct (Nat.to_uint n) eqn:E; try reflexivity;
    rewrite <- E; apply string_of_uint_digits.
Qed.

Lemma count_char_number (c : ascii) (n : nat) :
  digit c = false -> count_char c (string_of_nat n) = 0.
Proof.
  intros Hc. apply count_char_forall with (p := digit);
    [exact Hc | apply string_of_nat_digits].
Qed.

Lemma count_char_concat (c : ascii) (l : list string) :
  count_char c (String.concat "" l) = list_sum (map (count_char c) l).
Proof.
  induction l as [|x l IH]; [reflexivity|].
  destruct l as [|y l].
  - simpl. lia.
  - change (String.concat "" (x :: y :: l))
      with (x ++ "" ++ String.concat "" (y :: l)).
    rewrite !count_char_app, IH. simpl. lia.
Qed.

Lemma testcases_markup (c : ascii) (a b : nat) (l : list Entry) :
  (forall t, count_char c (testcase t) = if ok t then a else a + b) ->
  list_sum (map (count_char c) (map testcase l))
  = a * length l + b * length (filter (fun t => negb (ok t)) l).
Proof.
  intros H. induction l as [|t l IH]; simpl; [lia|].
  rewrite H, IH. destruct (ok t); simpl; lia.
Qed.

(** X6.  The markup of a report is fixed by the number of entries and of
    failures alone: it has three angle brackets of each kind and ten
    double quotes for the prolog and the root element, one pair of
    brackets and of quotes more per entry, two more pairs of brackets and
    one more pair of quotes per failure, and no single quote, whatever
    the names and messages are. *)
Theorem X6_report_markup_is_independent_of_text :
  forall r,
    let n := length (r_tests r) in
    let f := length (filter (fun t => negb (ok t)) (r_tests r)) in
    count_char "<" (buildJUnit r) = 3 + n + 2 * f
    /\ count_char ">" (buildJUnit r) = 3 + n + 2 * f
    /\ count_char dquote (buildJUnit r) = 10 + 2 * n + 2 * f
    /\ count_char squote (buildJUnit r) = 0.
Proof.
  intros r. cbv zeta. rewrite buildJUnit_unfold. unfold junit_header.
  repeat split;
    repeat rewrite count_char_app;
    rewrite !count_char_number by reflexivity;
    rewrite count_char_concat.
  - rewrite (testcases_markup "<" 1 2)
      by (intros t; rewrite testcase_markup by reflexivity; now destruct (ok t)).
    simpl. lia.
  - rewrite (testcases_markup ">" 1 2)
      by (intros t; rewrite testcase_markup by reflexivity; now destruct (ok t)).
    simpl. lia.
  - rewrite (testcases_markup dquote 2 2)
      by (intros t; rewrite testcase_markup by reflexivity; now destruct (ok t)).
    simpl. lia.
  - rewrite (testcases_markup squote 0 0)
      by (intros t; rewrite testcase_markup by reflexivity; now destruct (ok t)).
    simpl. lia.
Qed.

(** ** The browser and its pages *)

(** X7.  In a process that starts from the initial state, after any
    sequence of [browser_open], [browser_close], [page_new],
    [page_switch] and [page_close] calls, succeeding or failing, in
    which no page is created under the empty id: the current id, when
    there is one, is a key of the page table and the current page is the
    page stored under it, and without a current id there is no current
    page. *)
Theorem X7_page_table_consistent :
  forall ops w,
    state w = initial_state ->
    existsb names_empty_page ops = false ->
    page_table_ok (state (run_ops ops w)) = true.
Proof.
  intros ops w Hw Hops.
  apply (page_table_preserved ops w Hops).
  rewrite Hw. exact initial_state_page_table.
Qed.

(** X7 at: open, new page "a", switch to "page1", close it, close "a". *)
Lemma X7_page_table_consistent_witness :
  page_table_ok
    (state (run_ops [OpBrowserOpen (mkBrowserOpenInput None None None None);
                     OpPageNew (Some "a"); OpPageSwitch "page1";
                     OpPageClose None; OpPageClose (Some "a")]
              idle_world))
  = true.
Proof.
  apply X7_page_table_consistent; reflexivity.
Defined.

(** X8.  When [browser_open] returns, a browser is held, the page table
    holds exactly one page, registered under the id ["page<n>"] for the
    value [n] of the id counter before the call, that page is the
    current one, the counter has advanced by one, and one launch was
    recorded, not headless, whatever pages existed before. *)
Theorem X8_browser_open_resets_the_table :
  forall input w v w',
    browser_open input w = (Return v, w') ->
    exists b p,
      state w' = mkState (Some b) (Some p) [(next_id w, p)] (Some (next_id w))
      /\ pageIdCounter w' = S (pageIdCounter w)
      /\ launches w' = (launches w ++ [mkLaunch false (launchArgs input)])%list
      /\ v = "browser opened (headless=false)".
Proof.
  intros input w v w'. unfold browser_open, next_id.
  destruct (browser (state w)) eqn:Hb; step_handler;
    rewrite ?Hb; simpl; step_handler;
    intros H; try discriminate H; injection H as <- <-; simpl;
    eexists _, _; repeat split.
Qed.

(** X8 in a process without a browser. *)
Lemma X8_browser_open_resets_the_table_witness :
  exists b p,
    state browsing_world = mkState (Some b) (Some p) [("page1", p)] (Some "page1")
    /\ pageIdCounter browsing_world = 2
    /\ launches browsing_world
       = [mkLaunch false (launchArgs (mkBrowserOpenInput None None None None))]
    /\ "browser opened (headless=false)" = "browser opened (headless=false)".
Proof.
  exact (X8_browser_open_resets_the_table
           (mkBrowserOpenInput None None None None) idle_world
           "browser opened (headless=false)" browsing_world eq_refl).
Defined.

(** X9.  When [browser_open] raises, the page table is as it was before
    the call: the current page, the registered pages, the current id
    and the id counter are untouched, even though the browser they
    belonged to may already be closed.  The held browser is replaced
    only once [chromium.launch] has been called. *)
Theorem X9_failed_browser_open_keeps_the_table :
  forall input w e w',
    browser_open input w = (Throw e, w') ->
    page (state w') = page (state w)
    /\ pages (state w') = pages (state w)
    /\ currentPageId (state w') = currentPageId (state w)
    /\ pageIdCounter w' = pageIdCounter w
    /\ (browser (state w') = browser (state w)
        \/ launches w'
           = (launches w ++ [mkLaunch false (launchArgs input)])%list).
Proof.
  intros input w e w'. unfold browser_open.
  destruct (browser (state w)) eqn:Hb; step_handler;
    rewrite ?Hb; simpl; step_handler;
    intros H; try discriminate H; injection H as <- <-; simpl;
    repeat split; try (left; now rewrite Hb); now right.
Qed.

(** A process whose next awaited call fails. *)
Lemma X9_failed_browser_open_keeps_the_table_witness :
  page (state (snd (browser_open (mkBrowserOpenInput None None None None)
                      (set_script [Fails "no display"] browsing_world))))
  = page (state browsing_world).
Proof.
  exact (proj1 (X9_failed_browser_open_keeps_the_table
                  (mkBrowserOpenInput None None None None)
                  (set_script [Fails "no display"] browsing_world)
                  "no display" _ eq_refl)).
Defined.

(** X10.  [browser_close] without a browser does nothing and succeeds.
    With a browser, it either returns, and then the browser, the current
    page, the page table and the current id are all cleared, or it
    raises, and then the state is as before. *)
Theorem X10_browser_close_clears_or_keeps :
  forall w,
    (browser (state w) = None ->
     browser_close w = (Return "browser closed", w))
    /\ (browser (state w) <> None ->
        match fst (browser_close w) with
        | Return _ => state (snd (browser_close w)) = initial_state
        | Throw _ => state (snd (browser_close w)) = state w
        end)
    /\ pageIdCounter (snd (browser_close w)) = pageIdCounter w.
Proof.
  intros w. unfold browser_close.
  destruct (browser (state w)) eqn:Hb; step_handler; rewrite ?Hb; simpl;
    step_handler; repeat split; try congruence; intros; reflexivity.
Qed.

(** X10 in a process without a browser, and in one with a browser. *)
Lemma X10_browser_close_clears_or_keeps_witness :
  browser_close idle_world = (Return "browser closed", idle_world)
  /\ state (snd (browser_close browsing_world)) = initial_state.
Proof.
  split.
  - exact (proj1 (X10_browser_close_clears_or_keeps idle_world) eq_refl).
  - refine (proj1 (proj2 (X10_browser_close_clears_or_keeps browsing_world)) _).
    discriminate.
Defined.

Lemma ensurePage_guard (w : World) :
  no_page w = true -> ensurePage w = (Throw no_browser_message, w).
Proof.
  unfold no_page, ensurePage, bind, gets.
  destruct (browser (state w)); [destruct (page (state w))|];
    (discriminate || reflexivity).
Qed.

(** Unfolds a page action up to its call of [ensurePage]. *)
Ltac guarded Hw :=
  unfold bind; rewrite (ensurePage_guard _ Hw); reflexivity.

(** X11.  Without a browser, or without a current page, every page
    action raises the request to call [browser_open] first, makes no
    driver call and leaves the world as it is: navigation, click,
    typing, filling, viewport, waiting, tracing start and stop,
    assertions of every kind, screenshots, evaluation, the four getters
    and the opening of a further page. *)
Theorem X11_page_actions_need_a_page :
  forall w,
    no_page w = true ->
    (forall url wu, page_goto url wu w = (Throw no_browser_message, w))
    /\ (forall sel t, page_click sel t w = (Throw no_browser_message, w))
    /\ (forall sel text d c,
          page_type sel text d c w = (Throw no_browser_message, w))
    /\ (forall sel v, page_fill sel v w = (Throw no_browser_message, w))
    /\ (forall wd ht, page_viewport wd ht w = (Throw no_browser_message, w))
    /\ (forall sel st t,
          page_wait_for sel st t w = (Throw no_browser_message, w))
    /\ (forall a b c, tracing_start a b c w = (Throw no_browser_message, w))
    /\ (forall obs input,
          page_assert obs input w = (Throw no_browser_message, w))
    /\ (forall id, page_new id w = (Throw no_browser_message, w))
    /\ (forall f d, page_screenshot f d w = (Throw no_browser_message, w))
    /\ (forall x r, page_eval x r w = (Throw no_browser_message, w))
    /\ (forall obs, page_title_get obs w = (Throw no_browser_message, w))
    /\ (forall obs, page_url_get obs w = (Throw no_browser_message, w))
    /\ (forall sel t x,
          page_text_get sel t x w = (Throw no_browser_message, w))
    /\ (forall sel n t obs,
          page_attribute_get sel n t obs w = (Throw no_browser_message, w))
    /\ (forall p d, tracing_stop p d w = (Throw no_browser_message, w)).
Proof.
  intros w Hw.
  repeat split; intros;
    [ unfold page_goto | unfold page_click | unfold page_type
    | unfold page_fill | unfold page_viewport | unfold page_wait_for
    | unfold tracing_start | unfold page_assert | unfold page_new
    | unfold page_screenshot | unfold page_eval | unfold page_title_get
    | unfold page_url_get | unfold page_text_get
    | unfold page_attribute_get | unfold tracing_stop ];
    guarded Hw.
Qed.

(** X11 in a process that has not opened a browser. *)
Lemma X11_page_actions_need_a_page_witness :
  page_goto "https://example.com" None idle_world
  = (Throw no_browser_message, idle_world).
Proof.
  exact (proj1 (X11_page_actions_need_a_page idle_world eq_refl) _ _).
Defined.

(** Runs a page action through every reply that the driver may give. *)
Ltac run_action w :=
  unfold ensurePage, same_session;
  repeat (unfold bind, ret, throw, gets, modify, when, driver; simpl);
  destruct (browser (state w)); [destruct (page (state w))|]; simpl;
  repeat match goal with
         | |- context [match script ?x with _ => _ end] =>
             destruct (script x) as [|[|?] ?]; simpl
         | |- context [match ?l with [] => _ | _ :: _ => _ end] =>
             is_var l; destruct l as [|[|?] ?]; simpl
         | |- context [if ?b then _ else _] => destruct b; simpl
         end;
  repeat split.

(** X12.  Navigation, click, typing, filling, viewport, waiting, tracing
    start and stop, assertions, screenshots, evaluation and the four
    getters never touch the session: whether they return or raise, the
    browser, the current page, the page table, the current id, the id
    counter and the launch log are what they were; only driver replies
    are consumed. *)
Theorem X12_page_actions_keep_the_session :
  forall w,
    (forall url wu, same_session w (snd (page_goto url wu w)))
    /\ (forall sel t, same_session w (snd (page_click sel t w)))
    /\ (forall sel text d c, same_session w (snd (page_type sel text d c w)))
    /\ (forall sel v, same_session w (snd (page_fill sel v w)))
    /\ (forall wd ht, same_session w (snd (page_viewport wd ht w)))
    /\ (forall sel st t, same_session w (snd (page_wait_for sel st t w)))
    /\ (forall a b c, same_session w (snd (tracing_start a b c w)))
    /\ (forall obs input, same_session w (snd (page_assert obs input w)))
    /\ (forall f d, same_session w (snd (page_screenshot f d w)))
    /\ (forall x r, same_session w (snd (page_eval x r w)))
    /\ (forall obs, same_session w (snd (page_title_get obs w)))
    /\ (forall obs, same_session w (snd (page_url_get obs w)))
    /\ (forall sel t x, same_session w (snd (page_text_get sel t x w)))
    /\ (forall sel n t obs,
          same_session w (snd (page_attribute_get sel n t obs w)))
    /\ (forall p d, same_session w (snd (tracing_stop p d w))).
Proof.
  intros w.
  split; [intros; unfold page_goto; run_action w|].
  split; [intros; unfold page_click; run_action w|].
  split; [intros; unfold page_type; destruct c as [[|]|]; run_action w|].
  split; [intros; unfold page_fill; run_action w|].
  split; [intros; unfold page_viewport; run_action w|].
  split; [intros; unfold page_wait_for; run_action w|].
  split; [intros; unfold tracing_start; run_action w|].
  split; [intros obs input; unfold page_assert;
          destruct (a_kind input); run_action w|].
  split; [intros; unfold page_screenshot; run_action w|].
  split; [intros; unfold page_eval; run_action w|].
  split; [intros; unfold page_title_get; run_action w|].
  split; [intros; unfold page_url_get; run_action w|].
  split; [intros; unfold page_text_get; run_action w|].
  split; [intros; unfold page_attribute_get; run_action w|].
  intros p d. unfold tracing_stop.
  destruct (truthy_str p); run_action w.
Qed.

Lemma map_get_set_other (k k' : string) (v : Page) (m : list (string * Page)) :
  String.eqb k k' = false ->
  map_get k (map_set k' v m) = map_get k m.
Proof.
  intros Hk. induction m as [|[a b] m IH]; simpl.
  - now rewrite String.eqb_sym, Hk.
  - destruct (String.eqb a k') eqn:E; simpl.
    + apply String.eqb_eq in E. subst a.
      now rewrite (String.eqb_sym k' k), Hk.
    + destruct (String.eqb a k); [reflexivity | exact IH].
Qed.

Lemma map_get_delete_same (k : string) (m : list (string * Page)) :
  map_get k (map_delete k m) = None.
Proof.
  induction m as [|[a b] m IH]; simpl; [reflexivity|].
  destruct (String.eqb a k) eqn:E; simpl; [exact IH|].
  now rewrite E.
Qed.

(** X13.  When [page_new] returns an id, the new page is registered
    under that id and is the current page; the id is the requested one,
    or the next generated id when none was requested; every other id
    still leads to the page it led to; and switching to the returned id
    succeeds and changes nothing. *)
Theorem X13_page_new_registers_and_selects :
  forall id w v w1,
    page_new id w = (Return v, w1) ->
    v = match id with Some i => i | None => next_id w end
    /\ currentPageId (state w1) = Some v
    /\ page (state w1) = Some (fresh w)
    /\ map_get v (pages (state w1)) = Some (fresh w)
    /\ (forall k, String.eqb k v = false ->
          map_get k (pages (state w1)) = map_get k (pages (state w)))
    /\ page_switch v w1 = (Return ("switched to " ++ v), w1).
Proof.
  intros id w v w1. unfold page_new, ensurePage, next_id.
  repeat (unfold bind, ret, throw, gets, modify, update_state, driver,
            new_handle, nextPageId; simpl).
  destruct (browser (state w)) eqn:Hb; [destruct (page (state w)) eqn:Hp|];
    simpl; try discriminate.
  assert (Hgoal :
    forall (i : string) (w2 : World),
      pages (state w2) = pages (state w) ->
      let w3 := set_state
                  (set_currentPageId (Some i)
                     (set_page (Some (fresh w))
                        (set_pages (map_set i (fresh w) (pages (state w2)))
                           (state w2))))
                  w2 in
      currentPageId (state w3) = Some i
      /\ page (state w3) = Some (fresh w)
      /\ map_get i (pages (state w3)) = Some (fresh w)
      /\ (forall k, String.eqb k i = false ->
            map_get k (pages (state w3)) = map_get k (pages (state w)))
      /\ page_switch i w3 = (Return ("switched to " ++ i), w3)).
  { intros i w2 Hpages. cbv zeta. cbn [state set_state currentPageId page pages
      set_currentPageId set_page set_pages browser].
    split; [reflexivity|]. split; [reflexivity|].
    split; [apply map_get_set_same|].
    split; [intros k Hk; rewrite Hpages; now apply map_get_set_other|].
    unfold page_switch, bind, gets, update_state, modify, ret.
    cbn [state set_state currentPageId page pages
           set_currentPageId set_page set_pages browser].
    rewrite map_get_set_same. reflexivity. }
  destruct (script w) as [|[|msg] rest]; simpl; try discriminate;
    destruct id as [i|]; simpl;
    try change (String "p" (String "a" (String "g" (String "e"
                  (string_of_nat (pageIdCounter w))))))
          with (next_id w);
    try (generalize (next_id w) as nid; intros nid);
    intros [= <- <-];
    (split; [reflexivity|]).
  - apply (Hgoal i (set_fresh (S (fresh w)) w)). reflexivity.
  - apply (Hgoal nid (set_pageIdCounter (S (pageIdCounter w))
                        (set_fresh (S (fresh w)) w))). reflexivity.
  - apply (Hgoal i (set_fresh (S (fresh w)) (set_script rest w))). reflexivity.
  - apply (Hgoal nid (set_pageIdCounter (S (pageIdCounter w))
                        (set_fresh (S (fresh w)) (set_script rest w)))).
    reflexivity.
Qed.

(** X13 with an open browser and the id "cart". *)
Lemma X13_page_new_registers_and_selects_witness :
  currentPageId (state (snd (page_new (Some "cart") browsing_world)))
  = Some "cart".
Proof.
  refine (proj1 (proj2 (X13_page_new_registers_and_selects (Some "cart")
                          browsing_world "cart"
                          (snd (page_new (Some "cart") browsing_world)) _))).
  vm_compute. reflexivity.
Defined.

(** What [page_close] does, case by case. *)
Lemma page_close_cases (id : option string) (w : World) :
  (state (snd (page_close id w)) = state w
   /\ is_return (fst (page_close id w)) = false)
  \/ exists t,
       close_target id w = Some t
       /\ String.eqb t "" = false
       /\ fst (page_close id w) = Return ("closed " ++ t)
       /\ state (snd (page_close id w)) = after_close t (state w).
Proof.
  unfold page_close, close_target. step_handler.
  set (target := match id with Some i => Some i | None => currentPageId (state w) end).
  destruct target as [t|]; simpl; [|now left].
  destruct (String.eqb t "") eqn:Ht; simpl; [now left|].
  destruct (map_get t (pages (state w))) as [p|] eqn:Hg; simpl; [|now left].
  destruct (script w) as [|[|msg] rest]; simpl; [right|right|now left];
    exists t; (split; [reflexivity|]); (split; [exact Ht|]);
    unfold after_close;
    destruct (currentPageId (state w)) as [cur|] eqn:Hcur; simpl;
    rewrite ?Hcur; try destruct (String.eqb cur t); simpl;
    unfold set_pages, set_page, set_currentPageId; simpl;
    rewrite ?Hcur; split; reflexivity.
Qed.

Lemma page_close_returns (id : option string) (w : World) (v : string)
    (w1 : World) :
  page_close id w = (Return v, w1) ->
  exists t,
    close_target id w = Some t
    /\ String.eqb t "" = false
    /\ v = "closed " ++ t
    /\ state w1 = after_close t (state w).
Proof.
  intros H.
  destruct (page_close_cases id w) as [[_ Hthrow] | (t & Ht & Hne & Hret & Hst)];
    rewrite H in *; simpl in *; [discriminate|].
  exists t. repeat split; try assumption. now injection Hret as ->.
Qed.

Lemma after_close_pages (t : string) (s : BrowserContextState) :
  pages (after_close t s) = map_delete t (pages s)
  /\ browser (after_close t s) = browser s.
Proof.
  unfold after_close.
  destruct (currentPageId s) as [cur|]; [destruct (String.eqb cur t)|];
    split; reflexivity.
Qed.

(** X14.  When [page_close] returns, the closed id is gone from the page
    table, every other id still leads to its page, and a later
    [page_switch] to the closed id is refused as an unknown page id,
    leaving the world as it is. *)
Theorem X14_closed_page_is_forgotten :
  forall id w v w1,
    page_close id w = (Return v, w1) ->
    exists t,
      close_target id w = Some t
      /\ v = "closed " ++ t
      /\ map_get t (pages (state w1)) = None
      /\ (forall k, String.eqb k t = false ->
            map_get k (pages (state w1)) = map_get k (pages (state w)))
      /\ page_switch t w1
         = (Throw (McpError InvalidRequest ("未知 pageId: " ++ t)), w1).
Proof.
  intros id w v w1 H.
  destruct (page_close_returns id w v w1 H) as (t & Ht & _ & Hv & Hst).
  exists t. split; [exact Ht|]. split; [exact Hv|].
  destruct (after_close_pages t (state w)) as [Hp _].
  assert (Hgone : map_get t (pages (state w1)) = None)
    by (rewrite Hst, Hp; apply map_get_delete_same).
  split; [exact Hgone|]. split.
  - intros k Hk. rewrite Hst, Hp. now apply map_get_delete_other.
  - unfold page_switch, bind, gets. now rewrite Hgone.
Qed.

(** X14 with two pages, closing the second. *)
Lemma X14_closed_page_is_forgotten_witness :
  exists t,
    close_target (Some "a") two_page_world = Some t
    /\ "closed a" = "closed " ++ t.
Proof.
  assert (H : page_close (Some "a") two_page_world
              = (Return "closed a",
                 snd (page_close (Some "a") two_page_world)))
    by (vm_compute; reflexivity).
  destruct (X14_closed_page_is_forgotten (Some "a") two_page_world "closed a"
              (snd (page_close (Some "a") two_page_world)) H)
    as (t & Ht & Hv & _).
  exists t. split; assumption.
Defined.

(** X15.  Closing a page other than the current one keeps the
    selection: the current id, the current page and the browser are
    untouched, and a consistent page table stays consistent, also when
    pages are registered under the empty id. *)
Theorem X15_closing_another_page_keeps_the_selection :
  forall id w v w1 t,
    page_close id w = (Return v, w1) ->
    close_target id w = Some t ->
    currentPageId (state w) <> Some t ->
    currentPageId (state w1) = currentPageId (state w)
    /\ page (state w1) = page (state w)
    /\ browser (state w1) = browser (state w)
    /\ (page_table_ok (state w) = true -> page_table_ok (state w1) = true).
Proof.
  intros id w v w1 t H Ht Hcur.
  destruct (page_close_returns id w v w1 H) as (t' & Ht' & _ & _ & Hst).
  rewrite Ht in Ht'. injection Ht' as <-.
  rewrite Hst. unfold after_close, page_table_ok.
  destruct (currentPageId (state w)) as [cur|] eqn:Hc; simpl.
  - destruct (String.eqb cur t) eqn:E.
    + apply String.eqb_eq in E. subst cur. now contradiction Hcur.
    + simpl. repeat split. now rewrite map_get_delete_other.
  - repeat split. intros Hok. exact Hok.
Qed.

(** X15 with the pages "page1" and "a", "a" current, closing "page1". *)
Lemma X15_closing_another_page_keeps_the_selection_witness :
  currentPageId (state (snd (page_close (Some "page1") two_page_world)))
  = currentPageId (state two_page_world).
Proof.
  refine (proj1 (X15_closing_another_page_keeps_the_selection
                   (Some "page1") two_page_world "closed page1"
                   (snd (page_close (Some "page1") two_page_world))
                   "page1" _ _ _)).
  - vm_compute. reflexivity.
  - reflexivity.
  - vm_compute. discriminate.
Defined.

Lemma map_delete_only (t : string) (m : list (string * Page)) :
  forallb (fun kv => String.eqb (fst kv) t) m = true ->
  map_delete t m = [].
Proof.
  induction m as [|[a b] m IH]; simpl; [reflexivity|].
  intros H. apply andb_true_iff in H as [Ha Hm].
  rewrite Ha. simpl. now apply IH.
Qed.

(** X16.  Closing the current page when it is the only one leaves the
    browser open but the session without a page: the table is empty,
    there is no current id and no current page, and [page_new] itself
    then refuses with the request to call [browser_open] first. *)
Theorem X16_closing_the_last_page_strands_the_session :
  forall id w v w1 t,
    page_close id w = (Return v, w1) ->
    close_target id w = Some t ->
    currentPageId (state w) = Some t ->
    only_page t (state w) = true ->
    pages (state w1) = []
    /\ currentPageId (state w1) = None
    /\ page (state w1) = None
    /\ browser (state w1) = browser (state w)
    /\ (forall id', page_new id' w1 = (Throw no_browser_message, w1)).
Proof.
  intros id w v w1 t H Ht Hcur Honly.
  destruct (page_close_returns id w v w1 H) as (t' & Ht' & _ & _ & Hst).
  rewrite Ht in Ht'. injection Ht' as <-.
  assert (Hs : state w1 = mkState (browser (state w)) None [] None).
  { rewrite Hst. unfold after_close. rewrite Hcur, String.eqb_refl.
    unfold only_page in Honly. now rewrite (map_delete_only _ _ Honly). }
  rewrite Hs. simpl. repeat split.
  intros id'. unfold page_new, bind.
  rewrite ensurePage_guard; [reflexivity|].
  unfold no_page. rewrite Hs. simpl. now destruct (browser (state w)).
Qed.

(** X16 right after [browser_open]: closing "page1". *)
Lemma X16_closing_the_last_page_strands_the_session_witness :
  pages (state (snd (page_close None browsing_world))) = [].
Proof.
  refine (proj1 (X16_closing_the_last_page_strands_the_session
                   None browsing_world "closed page1"
                   (snd (page_close None browsing_world)) "page1" _ _ _ _)).
  - vm_compute. reflexivity.
  - reflexivity.
  - reflexivity.
  - reflexivity.
Defined.

Lemma string_of_nat_injective (n m : nat) :
  string_of_nat n = string_of_nat m -> n = m.
Proof.
  unfold string_of_nat. intros H.
  assert (Hnil : forall k, Nat.to_uint k <> Decimal.Nil).
  { intros k. rewrite <- (DecimalNat.Unsigned.of_to k) at 1.
    rewrite DecimalNat.Unsigned.to_of. apply DecimalFacts.unorm_nonnil. }
  apply (f_equal NilZero.uint_of_string) in H.
  rewrite !NilZero.usu in H by apply Hnil.
  injection H as Hu.
  now apply DecimalNat.Unsigned.to_uint_inj.
Qed.

Lemma run_op_counter (op : PageOp) (w : World) :
  pageIdCounter w <= pageIdCounter (snd (run_op op w)).
Proof.
  destruct op as [input| |id|id|id]; simpl.
  - unfold browser_open.
    destruct (browser (state w)) eqn:Hb; step_handler;
      rewrite ?Hb; simpl; step_handler; lia.
  - unfold browser_close.
    destruct (browser (state w)) eqn:Hb; step_handler;
      rewrite ?Hb; simpl; step_handler; lia.
  - unfold page_new, ensurePage. step_handler.
    destruct (browser (state w)); [destruct (page (state w))|];
      simpl; step_handler; destruct id; simpl; lia.
  - unfold page_switch. step_handler.
    destruct (map_get id (pages (state w))); simpl; lia.
  - destruct (page_close_cases id w) as [[_ _] | (t & _)]; unfold page_close;
      step_handler;
      destruct (match id with Some i => Some i | None => currentPageId (state w) end)
        as [t'|]; simpl; try lia;
      destruct (String.eqb t' ""); simpl; try lia;
      destruct (map_get t' (pages (state w))); simpl; try lia;
      destruct (script w) as [|[|?] ?]; simpl; try lia;
      destruct (currentPageId (state w)) as [cur|]; simpl; try lia;
      destruct (String.eqb cur t'); simpl; lia.
Qed.

Lemma run_ops_counter (ops : list PageOp) (w : World) :
  pageIdCounter w <= pageIdCounter (run_ops ops w).
Proof.
  revert w. induction ops as [|op ops IH]; intros w; simpl; [lia|].
  pose proof (run_op_counter op w). pose proof (IH (snd (run_op op w))). lia.
Qed.

Lemma page_new_generated (w : World) (v : string) (w1 : World) :
  page_new None w = (Return v, w1) ->
  v = next_id w /\ pageIdCounter w1 = S (pageIdCounter w).
Proof.
  unfold page_new, ensurePage, next_id. step_handler.
  destruct (browser (state w)); [destruct (page (state w))|];
    simpl; try discriminate;
    destruct (script w) as [|[|?] ?]; simpl; try discriminate;
    intros [= <- <-]; split; reflexivity.
Qed.

(** X17.  Two pages opened without a requested id never get the same
    id, whatever page-table operations are made in between, reopening
    the browser included: the id counter never goes back. *)
Theorem X17_generated_page_ids_are_never_reused :
  forall ops w v w1 v' w2,
    page_new None w = (Return v, w1) ->
    page_new None (run_ops ops w1) = (Return v', w2) ->
    v <> v'.
Proof.
  intros ops w v w1 v' w2 H1 H2.
  apply page_new_generated in H1 as [-> Hc].
  apply page_new_generated in H2 as [-> _].
  unfold next_id. intros E.
  assert (En : pageIdCounter w = pageIdCounter (run_ops ops w1)).
  { apply string_of_nat_injective.
    simpl in E. now injection E. }
  pose proof (run_ops_counter ops w1). lia.
Qed.

(** X17 across a restart of the browser. *)
Lemma X17_generated_page_ids_are_never_reused_witness :
  "page2" <> "page4".
Proof.
  refine (X17_generated_page_ids_are_never_reused
            [OpBrowserClose;
             OpBrowserOpen (mkBrowserOpenInput None None None None)]
            browsing_world "page2"
            (snd (page_new None browsing_world)) "page4"
            (snd (page_new None
                    (run_ops [OpBrowserClose;
                              OpBrowserOpen
                                (mkBrowserOpenInput None None None None)]
                       (snd (page_new None browsing_world))))) _ _);
    vm_compute; reflexivity.
Defined.

(** ** Plans and the request dispatcher *)

(** X18.  A plan of one step does what the request dispatcher does for
    the same tool name and arguments: it leaves the same world, its
    entry is [ok] exactly when the request returns, and, for every name
    that the handler table answers with a function, the entry's message
    is "ok" or the message of the error that the request raises. *)
Theorem X18_single_step_plan_is_a_tool_call :
  forall ext n args coe w,
    let r := test_plan_run ext (mkPlanInput [mkStep n args] coe) w in
    let oc := call_tool_request ext n args w in
    plan_world r = snd oc
    /\ map pe_ok (plan_results r) = [is_return (fst oc)]
    /\ map pe_name (plan_results r) = [n]
    /\ (handler_is_function n = true ->
        map pe_message (plan_results r)
        = [match fst oc with Return _ => "ok" | Throw e => e end]).
Proof.
  intros ext n args coe w.
  unfold test_plan_run, call_tool_request.
  cbn [plan_steps plan_continueOnError plan_loop step_name].
  unfold tool_found, handler_is_function, arguments_of.
  cbn [step_arguments].
  destruct (own_tool n); cbn [negb orb andb].
  - destruct (call_tool ext n match args with Some a => a | None => [] end w)
      as [[v|e] w1]; destruct (truthy coe); cbn; repeat split.
  - destruct (mem n object_prototype_functions); cbn [negb orb andb].
    + destruct (truthy coe); cbn; repeat split.
    + destruct (String.eqb n "__proto__"); cbn [negb orb andb];
        destruct (truthy coe); cbn; repeat split; discriminate.
Qed.

(** X18 for a step that no tool answers. *)
Lemma X18_single_step_plan_is_a_tool_call_witness :
  map pe_message
    (plan_results
       (test_plan_run unreached
          (mkPlanInput [mkStep "toString" None] None) idle_world))
  = [no_inputSchema].
Proof.
  exact (proj2 (proj2 (proj2
           (X18_single_step_plan_is_a_tool_call unreached "toString" None
              None idle_world))) eq_refl).
Defined.

Section PlanRuns.

Variable ext : string -> Args -> M World string.

Lemma plan_step_passes (step : Step) (w : World) :
  fst (plan_step_fails ext step w) = false ->
  (negb (tool_found (step_name step))
   || negb (handler_is_function (step_name step))) = false
  /\ negb (own_tool (step_name step)) = false
  /\ exists v,
       call_tool ext (step_name step) (arguments_of step) w
       = (Return v, snd (plan_step_fails ext step w)).
Proof.
  unfold plan_step_fails.
  destruct (negb (tool_found (step_name step))
            || negb (handler_is_function (step_name step)));
    [discriminate|].
  destruct (negb (own_tool (step_name step))); [discriminate|].
  destruct (call_tool ext (step_name step) (arguments_of step) w)
    as [[v|e] w1]; [|discriminate].
  intros _. repeat split. now exists v.
Qed.

Lemma plan_loop_all_pass (coe : option bool) (steps : list Step) :
  forall i w,
    first_failure ext steps w = None ->
    let r := plan_loop ext coe i steps w in
    plan_results r
    = map passed_entry (combine (seq (i + 1) (length steps)) steps)
    /\ plan_called r = seq (i + 1) (length steps)
    /\ plan_world r = world_after ext (length steps) steps w.
Proof.
  induction steps as [|step rest IH]; intros i w Hk; [now repeat split|].
  cbn [first_failure] in Hk.
  destruct (fst (plan_step_fails ext step w)) eqn:Hf; [discriminate|].
  destruct (plan_step_passes step w Hf) as (Hmiss & Hown & v & Hcall).
  destruct (first_failure ext rest (snd (plan_step_fails ext step w)))
    eqn:Hrest; [discriminate|].
  destruct (IH (S i) _ Hrest) as (Hres & Hcalled & Hw).
  cbn [plan_loop length seq combine map world_after].
  rewrite Hmiss, Hown, Hcall.
  cbn [plan_results plan_called plan_world].
  rewrite Hres, Hcalled, Hw.
  replace (S i + 1) with (S (i + 1)) by lia.
  repeat split.
Qed.

Lemma plan_loop_prefix (coe : option bool) (steps : list Step) :
  truthy coe = false ->
  forall i w,
    let stop := plan_loop ext coe i steps w in
    let go := plan_loop ext (Some true) i steps w in
    plan_results stop
    = firstn (length (plan_results stop)) (plan_results go)
    /\ plan_called stop
       = firstn (length (plan_called stop)) (plan_called go).
Proof.
  intros Hcoe. induction steps as [|step rest IH]; intros i w;
    [now split|].
  cbn [plan_loop]. rewrite Hcoe. cbn [truthy negb].
  destruct (negb (tool_found (step_name step))
            || negb (handler_is_function (step_name step)));
    [now split|].
  destruct (negb (own_tool (step_name step))); [now split|].
  destruct (call_tool ext (step_name step) (arguments_of step) w)
    as [[v|e] w1]; [|now split].
  destruct (IH (S i) w1) as [Hres Hcalled].
  cbn [plan_results plan_called length firstn].
  now rewrite <- Hres, <- Hcalled.
Qed.

End PlanRuns.

(** X19.  A plan none of whose steps fails has one entry per step, in
    order, numbered from 1, each with [ok = true] and the message "ok";
    every handler was called once, and this is so whatever
    [continueOnError] says. *)
Theorem X19_plan_without_failure_runs_every_step :
  forall ext steps coe w,
    first_failure ext steps w = None ->
    let r := test_plan_run ext (mkPlanInput steps coe) w in
    plan_results r
    = map passed_entry (combine (seq 1 (length steps)) steps)
    /\ plan_called r = seq 1 (length steps)
    /\ plan_world r = world_after ext (length steps) steps w.
Proof.
  intros ext steps coe w Hk.
  exact (plan_loop_all_pass ext coe steps 0 w Hk).
Qed.

(** X19 for a plan that closes and reopens the browser. *)
Lemma X19_plan_without_failure_runs_every_step_witness :
  plan_results
    (test_plan_run unreached (mkPlanInput passing_steps None) idle_world)
  = [mkPlanEntry 1 "browser_close" true "ok";
     mkPlanEntry 2 "browser_open" true "ok"].
Proof.
  exact (proj1 (X19_plan_without_failure_runs_every_step unreached
                  passing_steps None idle_world eq_refl)).
Defined.

(** X20.  Up to the point where a plan without [continueOnError] stops,
    [continueOnError] makes no difference: the entries of the stopping
    run, messages included, are the first entries of the run that
    continues, and so are the handler calls. *)
Theorem X20_continueOnError_only_adds_entries :
  forall ext steps coe w,
    truthy coe = false ->
    let stop := test_plan_run ext (mkPlanInput steps coe) w in
    let go := test_plan_run ext (mkPlanInput steps (Some true)) w in
    plan_results stop
    = firstn (length (plan_results stop)) (plan_results go)
    /\ plan_called stop
       = firstn (length (plan_called stop)) (plan_called go).
Proof.
  intros ext steps coe w Hcoe.
  exact (plan_loop_prefix ext coe steps Hcoe 0 w).
Qed.

(** X20 at the plan [three_steps], whose second step fails. *)
Lemma X20_continueOnError_only_adds_entries_witness :
  plan_results (test_plan_run unreached (mkPlanInput three_steps None)
                  idle_world)
  = firstn 2
      (plan_results
         (test_plan_run unreached (mkPlanInput three_steps (Some true))
            idle_world)).
Proof.
  exact (proj1 (X20_continueOnError_only_adds_entries unreached three_steps
                  None idle_world eq_refl)).
Defined.

(** ** The step runner of a suite *)

Lemma push_run (ph : Phase) (e : Entry) (c : Ctx) :
  push ph e c = (Return tt, snd (push ph e c)).
Proof. destruct ph; reflexivity. Qed.

Lemma push_world (ph : Phase) (e : Entry) (c : Ctx) :
  world (snd (push ph e c)) = world c.
Proof. destruct ph; reflexivity. Qed.

Lemma push_events (ph : Phase) (e : Entry) (c : Ctx) :
  events (snd (push ph e c)) = events c.
Proof. destruct ph; reflexivity. Qed.

Lemma push_phase_entries (ph : Phase) (e : Entry) (c : Ctx) :
  phase_entries ph (results (snd (push ph e c)))
  = (phase_entries ph (results c) ++ [e])%list.
Proof. destruct ph; reflexivity. Qed.

Section StepRunner.

Variable ext : string -> Args -> M World string.

Variable input : SuiteInput.

Lemma runSteps_loop_plan (ph : Phase) (steps : list Step) :
  no_proto_step steps = true ->
  forall i c,
    let r := plan_loop ext (continueOnError input) i steps (world c) in
    let oc := runSteps_loop ext input steps ph c in
    world (snd oc) = plan_world r
    /\ map entry_view (phase_entries ph (results (snd oc)))
       = (map entry_view (phase_entries ph (results c))
            ++ map plan_view (plan_results r))%list
    /\ is_return (fst oc)
       = truthy (continueOnError input) || forallb pe_ok (plan_results r).
Proof.
  induction steps as [|step rest IH]; intros Hnp i c.
  - cbn. rewrite app_nil_r, orb_true_r. repeat split.
  - cbn [no_proto_step forallb] in Hnp.
    apply andb_true_iff in Hnp as [Hn Hrest].
    apply negb_true_iff in Hn.
    specialize (IH Hrest).
    cbn [runSteps_loop plan_loop].
    unfold tool_found, handler_is_function. rewrite Hn, orb_false_r.
    destruct (own_tool (step_name step)) eqn:Hown;
      [|destruct (mem (step_name step) object_prototype_functions)];
      cbn [negb orb andb];
      unfold bind at 1; unfold try_catch;
      unfold bind, when, throw, ret, emit, liftW, modify;
      cbn [negb fst snd world results events];
      try destruct (call_tool ext (step_name step) (arguments_of step)
                      (world c)) as [[v|e] w1];
      rewrite push_run;
      try destruct (truthy (continueOnError input)) eqn:Hcoe;
      cbn [negb orb andb fst snd plan_world plan_results forallb map
             pe_ok is_return];
      rewrite ?push_world, ?push_phase_entries, ?map_app;
      try (repeat split; reflexivity);
      match goal with
      | |- context [runSteps_loop ext input rest ph ?c1] =>
          destruct (IH (S i) c1) as (Hw & Hv & Hr);
          rewrite push_world in Hw, Hv, Hr;
          rewrite push_phase_entries, map_app in Hv;
          cbn [world] in Hw, Hv, Hr;
          rewrite Hw, Hv, Hr, <- app_assoc; try rewrite Hcoe;
          repeat split
      end.
Qed.

End StepRunner.

(** X21.  The step runner of a suite and the plan executor agree.  Run
    from the same world on the same steps (none named [__proto__]),
    with the suite's [continueOnError], [runSteps] leaves the world
    that [test_plan_run] leaves and appends to the array of its phase
    one record per plan entry, with the same name, verdict and message
    (a passed step has no message in a suite and "ok" in a plan); it
    raises exactly when [continueOnError] is not true and a step
    failed. *)
Theorem X21_suite_steps_run_like_a_plan :
  forall ext input ph steps c,
    no_proto_step steps = true ->
    let r := test_plan_run ext
               (mkPlanInput steps (continueOnError input)) (world c) in
    let oc := runSteps ext input steps ph c in
    world (snd oc) = plan_world r
    /\ map entry_view (phase_entries ph (results (snd oc)))
       = (map entry_view (phase_entries ph (results c))
            ++ map plan_view (plan_results r))%list
    /\ is_return (fst oc)
       = truthy (continueOnError input) || forallb pe_ok (plan_results r).
Proof.
  intros ext input ph steps c Hnp.
  unfold runSteps, test_plan_run, bind, emit, modify.
  cbn [plan_steps plan_continueOnError].
  exact (runSteps_loop_plan ext input ph steps Hnp 0
           (mkCtx (world c) (results c)
              (events c ++ [EvRunSteps ph])%list)).
Qed.

(** X21 for the steps [three_steps] run as the setup of a suite. *)
Lemma X21_suite_steps_run_like_a_plan_witness :
  map entry_view
    (r_setup (results (snd (runSteps unreached (suite []) three_steps Setup
                              (start idle_world)))))
  = [("browser_close", true, "ok"); ("nope", false, unknown_tool)].
Proof.
  exact (proj1 (proj2 (X21_suite_steps_run_like_a_plan unreached (suite [])
                         Setup three_steps (start idle_world) eq_refl))).
Defined.

(** ** The records of a suite run *)

Lemma steps_only_here {A} (m : M Ctx A) :
  (forall c, results (snd (m c)) = results c) -> steps_only m.
Proof. intros H c. now rewrite H. Qed.

Lemma steps_only_ret {A} (a : A) : steps_only (ret a).
Proof. now apply steps_only_here. Qed.

Lemma steps_only_throw {A} (e : string) : steps_only (@throw Ctx A e).
Proof. now apply steps_only_here. Qed.

Lemma steps_only_gets {A} (f : Ctx -> A) : steps_only (gets f).
Proof. now apply steps_only_here. Qed.

Lemma steps_only_emit (e : Event) : steps_only (emit e).
Proof. now apply steps_only_here. Qed.

Lemma steps_only_liftW {A} (m : M World A) : steps_only (liftW m).
Proof.
  apply steps_only_here. intros c. unfold liftW. now destruct (m (world c)).
Qed.

Lemma steps_only_push (ph : Phase) (e : Entry) :
  is_summary e = false -> steps_only (push ph e).
Proof.
  intros He c. destruct ph; unfold summaries; simpl;
    rewrite ?filter_app; simpl; rewrite ?He, ?app_nil_r; now split.
Qed.

Lemma steps_only_bind {A B} (m : M Ctx A) (k : A -> M Ctx B) :
  steps_only m -> (forall a, steps_only (k a)) -> steps_only (bind m k).
Proof.
  intros Hm Hk c. unfold bind.
  destruct (Hm c) as [H1 J1].
  destruct (m c) as [[a|e] c1]; simpl in H1, J1.
  - destruct (Hk a c1) as [H2 J2]. now rewrite H2, J2.
  - now split.
Qed.

Lemma steps_only_try_catch {A} (m : M Ctx A) (h : string -> M Ctx A) :
  steps_only m -> (forall e, steps_only (h e)) -> steps_only (try_catch m h).
Proof.
  intros Hm Hh c. unfold try_catch.
  destruct (Hm c) as [H1 J1].
  destruct (m c) as [[a|e] c1]; simpl in H1, J1.
  - now split.
  - destruct (Hh e c1) as [H2 J2]. now rewrite H2, J2.
Qed.

Lemma steps_only_catching {A} (m : M Ctx A) :
  steps_only m -> steps_only (catching m).
Proof.
  intros Hm c. unfold catching.
  destruct (Hm c) as [H1 J1]. now destruct (m c) as [r c1].
Qed.

Lemma steps_only_when (b : bool) (m : M Ctx unit) :
  steps_only m -> steps_only (when b m).
Proof. intros Hm. destruct b; [exact Hm | apply steps_only_ret]. Qed.

Ltac steps_only_step :=
  repeat first
    [ apply steps_only_bind; [|intros]
    | apply steps_only_try_catch; [|intros]
    | apply steps_only_catching
    | apply steps_only_when
    | apply steps_only_ret | apply steps_only_throw | apply steps_only_gets
    | apply steps_only_liftW | apply steps_only_emit
    | apply steps_only_push; reflexivity ].

Lemma buildJUnit_tests (r r' : Results) :
  r_tests r' = r_tests r -> buildJUnit r' = buildJUnit r.
Proof. intros H. unfold buildJUnit. now rewrite H. Qed.

Section SuiteRecords.

Variable ext : string -> Args -> M World string.

Variable input : SuiteInput.

Lemma runSteps_loop_steps_only (ph : Phase) :
  forall steps, steps_only (runSteps_loop ext input steps ph).
Proof.
  induction steps as [|step rest IH]; simpl; [apply steps_only_ret|].
  apply steps_only_bind; [|intros; exact IH]. steps_only_step.
Qed.

Lemma runSteps_steps_only (ph : Phase) (steps : list Step) :
  steps_only (runSteps ext input steps ph).
Proof.
  unfold runSteps.
  apply steps_only_bind; [apply steps_only_emit|intros _].
  apply runSteps_loop_steps_only.
Qed.

Lemma on_failure_steps_only dir test e l :
  steps_only (on_failure input dir test e l).
Proof.
  unfold on_failure, capture_screenshot, capture_trace.
  destruct (truthy (onFailureScreenshot input));
    destruct (truthy (traceOnFailure input)); steps_only_step.
Qed.

Lemma tracing_steps_only m : steps_only (tracing input m).
Proof. unfold tracing. steps_only_step. Qed.

Lemma attempt_once_steps_only dir test l :
  steps_only (attempt_once ext input dir test l).
Proof.
  unfold attempt_once.
  apply steps_only_bind; [apply steps_only_emit|intros _].
  apply steps_only_bind.
  - apply steps_only_catching, steps_only_bind;
      [apply tracing_steps_only|intros _].
    apply runSteps_steps_only.
  - intros [v|e]; [|apply on_failure_steps_only].
    apply steps_only_bind; [apply steps_only_catching, tracing_steps_only|].
    intros [v'|e]; [apply steps_only_ret | apply on_failure_steps_only].
Qed.

Lemma attempt_loop_steps_only dir test :
  forall fuel l, steps_only (attempt_loop ext input fuel dir test l).
Proof.
  induction fuel as [|fuel IH]; intros l; simpl; [apply steps_only_ret|].
  destruct (Z.leb (Z.of_nat (attempt l)) (retries_of input));
    [|apply steps_only_ret].
  apply steps_only_bind; [apply attempt_once_steps_only|].
  intros [b l']; simpl. destruct b; [apply steps_only_ret | apply IH].
Qed.

Lemma acquire_steps_only : steps_only (acquire input).
Proof. unfold acquire. steps_only_step. Qed.

Lemma setup_phase_steps_only : steps_only (setup_phase ext input).
Proof.
  unfold setup_phase.
  apply steps_only_bind; [apply acquire_steps_only|intros _].
  apply steps_only_when, runSteps_steps_only.
Qed.

Lemma teardown_phase_steps_only : steps_only (teardown_phase ext input).
Proof. unfold teardown_phase. apply steps_only_when, runSteps_steps_only. Qed.

Lemma resolve_artifactsDir_steps_only :
  steps_only (resolve_artifactsDir input).
Proof. unfold resolve_artifactsDir. steps_only_step. Qed.

(** One test: the loop returns, and one record is pushed for it. *)
Lemma run_test_summary (dir : string) (test : Test) (c : Ctx) :
  exists e c',
    run_test ext input dir test c
    = (Return (negb (ok e) && negb (truthy (continueOnError input))), c')
    /\ name e = test_name test
    /\ summaries (results c') = (summaries (results c) ++ [e])%list
    /\ r_junit (results c') = r_junit (results c).
Proof.
  unfold run_test. unfold bind at 1.
  destruct (attempt_loop_steps_only dir test (attempts_bound input)
              (mkLocals 0 false None []) c) as [Hs Hj].
  destruct (attempt_loop_total ext input dir test (attempts_bound input)
              (mkLocals 0 false None []) c) as (l & c1 & Hl).
  rewrite Hl in Hs, Hj |- *. simpl in Hs, Hj.
  exists (test_entry (test_name test) (l_ok l)
            (if l_ok l then None else Some (lastErr_message (lastErr l)))
            (testArtifacts l)).
  unfold bind. rewrite push_run. unfold ret.
  eexists. split; [reflexivity|].
  unfold summaries in *. simpl. rewrite filter_app. simpl.
  repeat split; [now rewrite <- Hs | exact Hj].
Qed.

Lemma tests_loop_summaries (dir : string) :
  forall ts c,
    exists new,
      summaries (results (snd (tests_loop ext input dir ts c)))
      = (summaries (results c) ++ new)%list
      /\ r_junit (results (snd (tests_loop ext input dir ts c)))
         = r_junit (results c)
      /\ map name new = map test_name (firstn (length new) ts)
      /\ (truthy (continueOnError input) = true -> length new = length ts)
      /\ (forallb ok new = true -> length new = length ts)
      /\ (truthy (continueOnError input) = false ->
          forallb ok (removelast new) = true).
Proof.
  induction ts as [|test rest IH]; intros c.
  - exists []. simpl. rewrite app_nil_r. repeat split.
  - cbn [tests_loop]. unfold bind.
    destruct (run_test_summary dir test c) as (e & c1 & Hrun & Hn & Hs & Hj).
    rewrite Hrun.
    destruct (negb (ok e) && negb (truthy (continueOnError input))) eqn:Hstop.
    + apply andb_true_iff in Hstop as [Hok Hcoe].
      apply negb_true_iff in Hok, Hcoe.
      exists [e]. simpl. rewrite Hn, Hok, Hcoe.
      repeat split; try assumption; discriminate.
    + destruct (IH c1) as (new & Hs' & Hj' & Hnames & Hall & Hpass & Hlast).
      exists (e :: new). rewrite Hs', Hs, Hj', Hj, <- app_assoc.
      cbn [length firstn map app forallb].
      rewrite Hn, Hnames.
      repeat split.
      * intros H. now rewrite (Hall H).
      * intros H. apply andb_true_iff in H as [_ H]. now rewrite (Hpass H).
      * intros Hcoe. rewrite Hcoe in Hstop. simpl in Hstop.
        rewrite andb_true_r in Hstop. apply negb_false_iff in Hstop.
        destruct new as [|e' new']; [reflexivity|].
        cbn [removelast forallb]. rewrite Hstop. exact (Hlast Hcoe).
Qed.

(** [report] returns with the [junit] field filled in on request, or
    raises; the records are as before. *)
Lemma report_results (c : Ctx) :
  r_tests (results (snd (report input c))) = r_tests (results c)
  /\ (is_return (fst (report input c)) = true ->
      r_junit (results (snd (report input c)))
      = if truthy (junit input) then Some (buildJUnit (results c))
        else r_junit (results c)).
Proof.
  unfold report. destruct (truthy (junit input)); [|now split].
  unfold when, bind, gets, update_results, modify, liftW, ret, driver.
  simpl. destruct (junitPath input) as [p|]; [|now split].
  destruct (negb (String.eqb p "")); [|now split].
  simpl. destruct (script (world c)) as [|[|msg] rest]; simpl;
    split; try reflexivity; discriminate.
Qed.

(** What a call that returns has in its results. *)
Lemma suite_results (w : World) (res : Results) (c' : Ctx) :
  test_suite_run ext input (start w) = (Return res, c') ->
  (r_junit res
   = if truthy (junit input) then Some (buildJUnit res) else None)
  /\ map name (summaries res)
     = map test_name (firstn (length (summaries res)) (tests input))
  /\ (truthy (continueOnError input) = true ->
      length (summaries res) = length (tests input))
  /\ (forallb ok (summaries res) = true ->
      length (summaries res) = length (tests input))
  /\ (truthy (continueOnError input) = false ->
      forallb ok (removelast (summaries res)) = true).
Proof.
  intros Hrun.
  pose proof (test_suite_run_phases ext input (start w)) as Hph.
  destruct (setup_phase_steps_only (start w)) as [Hs1 Hj1].
  destruct (setup_phase ext input (start w)) as [[[]|e] c1];
    [|rewrite Hph in Hrun; discriminate].
  destruct Hph as (dir & c2 & c3 & Hdir & Hloop & Hclose).
  destruct (resolve_artifactsDir_steps_only c1) as [Hs2 Hj2].
  rewrite Hdir in Hs2, Hj2.
  destruct (tests_loop_summaries dir (tests input) c2)
    as (new & Hs3 & Hj3 & Hnames & Hall & Hpass & Hlast).
  rewrite Hloop in Hs3, Hj3.
  rewrite Hclose in Hrun. unfold closing_phase, bind in Hrun.
  destruct (teardown_phase_steps_only c3) as [Hs4 Hj4].
  destruct (teardown_phase ext input c3) as [[[]|e] c4]; [|discriminate].
  destruct (report_results c4) as [Ht5 Hj5].
  destruct (report input c4) as [[[]|e] c5]; [|discriminate].
  destruct (release_run input c5) as (c6 & Hrel & Hres & _).
  rewrite Hrel in Hrun. unfold gets in Hrun. injection Hrun as <- <-.
  simpl in *. rewrite Hres.
  assert (Hsum : summaries (results c5) = new).
  { unfold summaries in *. rewrite Ht5, Hs4, Hs3, Hs2, Hs1. reflexivity. }
  rewrite Hsum.
  split; [|now repeat split].
  rewrite (Hj5 eq_refl), Hj4, Hj3, Hj2, Hj1.
  destruct (truthy (junit input)); [|reflexivity].
  f_equal. symmetry. now apply buildJUnit_tests.
Qed.

End SuiteRecords.

(** X22.  In the results of a call that returns there is exactly one
    per-test record for each test that was started, in the order of the
    suite: the records are those of the first tests of the suite.  With
    [continueOnError] true, or when every record says [ok], every test
    of the suite has its record; without [continueOnError] only the
    last record can be a failure. *)
Theorem X22_one_record_per_started_test :
  forall ext input w res c',
    test_suite_run ext input (start w) = (Return res, c') ->
    map name (summaries res)
    = map test_name (firstn (length (summaries res)) (tests input))
    /\ (truthy (continueOnError input) = true ->
        length (summaries res) = length (tests input))
    /\ (forallb ok (summaries res) = true ->
        length (summaries res) = length (tests input))
    /\ (truthy (continueOnError input) = false ->
        forallb ok (removelast (summaries res)) = true).
Proof.
  intros ext input w res c' Hrun.
  exact (proj2 (suite_results ext input w res c' Hrun)).
Qed.

(** X22 for a suite of two tests whose second test fails. *)
Lemma X22_one_record_per_started_test_witness :
  map name
    (summaries
       (results (snd (test_suite_run unreached two_tests_suite
                        (start idle_world)))))
  = ["A"; "B"].
Proof.
  refine (proj1 (X22_one_record_per_started_test unreached two_tests_suite
                   idle_world
                   (results (snd (test_suite_run unreached two_tests_suite
                                    (start idle_world))))
                   (snd (test_suite_run unreached two_tests_suite
                           (start idle_world))) _)).
  vm_compute. reflexivity.
Defined.

(** X23.  The [junit] field of the results of a call that returns is
    the report built from the very records that are returned when
    [junit] is requested, and is null otherwise. *)
Theorem X23_junit_field_reports_the_returned_records :
  forall ext input w res c',
    test_suite_run ext input (start w) = (Return res, c') ->
    r_junit res
    = if truthy (junit input) then Some (buildJUnit res) else None.
Proof.
  intros ext input w res c' Hrun.
  exact (proj1 (suite_results ext input w res c' Hrun)).
Qed.

(** X23 for a suite that asks for the report. *)
Lemma X23_junit_field_reports_the_returned_records_witness :
  r_junit
    (results (snd (test_suite_run unreached two_tests_suite
                     (start idle_world))))
  = Some (buildJUnit
            (results (snd (test_suite_run unreached two_tests_suite
                             (start idle_world))))).
Proof.
  refine (X23_junit_field_reports_the_returned_records unreached
            two_tests_suite idle_world
            (results (snd (test_suite_run unreached two_tests_suite
                             (start idle_world))))
            (snd (test_suite_run unreached two_tests_suite
                    (start idle_world))) _).
  vm_compute. reflexivity.
Defined.

Section SuiteReturns.

Variable ext : string -> Args -> M World string.

Variable input : SuiteInput.

Lemma acquire_nothing (c : Ctx) :
  shouldAutoBrowser input = false \/ holds_browser (world c) = true ->
  acquire input c = (Return tt, c).
Proof.
  unfold acquire, holds_browser, bind, gets.
  intros [H|H].
  - rewrite H. reflexivity.
  - destruct (browser (state (world c))); [|discriminate].
    now rewrite andb_false_r.
Qed.

Lemma phase_total (steps : option (list Step)) (ph : Phase) :
  truthy (continueOnError input) = true \/ nonempty steps = false ->
  total (when (nonempty steps) (runSteps ext input (steps_of steps) ph)).
Proof.
  intros [H|H].
  - apply total_when. now apply runSteps_continue.
  - rewrite H. apply total_ret.
Qed.

Lemma report_total :
  truthy (junit input) = false \/ truthy_str (junitPath input) = false ->
  total (report input).
Proof.
  unfold report. intros [H|H].
  - rewrite H. apply total_ret.
  - apply total_when.
    apply total_bind; [apply total_gets|intros r].
    apply total_bind; [apply total_modify|intros _].
    destruct (junitPath input) as [p|]; [|apply total_ret].
    simpl in H. rewrite H. apply total_ret.
Qed.

End SuiteReturns.

(** X24.  A suite with a finite retry budget whose failures are all of
    its own steps returns its results instead of failing the call: when
    no browser has to be launched, no report file has to be written, and
    setup and teardown are empty or [continueOnError] is true,
    [test_suite_run] returns whatever the tools and the driver return
    or raise. *)
Theorem X24_suite_returns_despite_failures :
  forall ext input w,
    finite_budget input ->
    shouldAutoBrowser input = false \/ holds_browser w = true ->
    truthy (continueOnError input) = true
    \/ (nonempty (setup input) = false /\ nonempty (teardown input) = false) ->
    truthy (junit input) = false \/ truthy_str (junitPath input) = false ->
    is_return (fst (test_suite_run ext input (start w))) = true.
Proof.
  intros ext input w _ Hacq Hsteps Hrep.
  assert (Hsetup : truthy (continueOnError input) = true
                   \/ nonempty (setup input) = false) by tauto.
  assert (Hteardown : truthy (continueOnError input) = true
                      \/ nonempty (teardown input) = false) by tauto.
  unfold test_suite_run, bind.
  rewrite (acquire_nothing input (start w) Hacq).
  destruct (phase_total ext input (setup input) Setup Hsetup (start w))
    as ([] & c1 & ->).
  destruct (resolve_artifactsDir_total input c1) as (dir & c2 & ->).
  destruct (tests_loop_total ext input dir (tests input) c2)
    as ([] & c3 & ->).
  destruct (phase_total ext input (teardown input) Teardown Hteardown c3)
    as ([] & c4 & ->).
  destruct (report_total input Hrep c4) as ([] & c5 & ->).
  destruct (release_run input c5) as (c6 & -> & _).
  reflexivity.
Qed.

(** X24 for a suite whose only test names no tool. *)
Lemma X24_suite_returns_despite_failures_witness :
  is_return (fst (test_suite_run unreached failing_test_suite
                    (start idle_world))) = true.
Proof.
  apply X24_suite_returns_despite_failures.
  - vm_compute. reflexivity.
  - left. reflexivity.
  - right. split; reflexivity.
  - left. reflexivity.
Defined.

(** ** Retries and artifacts *)

Lemma append_cancel_l (p a b : string) : p ++ a = p ++ b -> a = b.
Proof.
  induction p as [|x p IH]; simpl; [trivial|].
  intros H. injection H as H. now apply IH.
Qed.

(** Two texts that start with digits and go on with a character that is
    no digit are equal only if the digits are. *)
Lemma digits_then_text (d1 d2 : string) (a b : ascii) (r1 r2 : string) :
  string_forall digit d1 = true -> string_forall digit d2 = true ->
  digit a = false -> digit b = false ->
  d1 ++ String a r1 = d2 ++ String b r2 ->
  d1 = d2 /\ a = b /\ r1 = r2.
Proof.
  revert d2. induction d1 as [|x d1 IH]; intros [|y d2] H1 H2 Ha Hb; simpl;
    intros H.
  - injection H as -> ->. now repeat split.
  - injection H as -> _. simpl in H2. rewrite Ha in H2. discriminate.
  - injection H as -> _. simpl in H1. rewrite Hb in H1. discriminate.
  - injection H as -> H. simpl in H1, H2.
    apply andb_true_iff in H1 as [_ H1]. apply andb_true_iff in H2 as [_ H2].
    destruct (IH d2 H1 H2 Ha Hb H) as (-> & -> & ->). now repeat split.
Qed.

Lemma append_empty_r (s : string) : s ++ "" = s.
Proof. induction s as [|x s IH]; simpl; [reflexivity | now rewrite IH]. Qed.

Lemma segments_nonempty (s : string) : segments s <> [].
Proof.
  destruct s as [|a s]; simpl; [discriminate|].
  destruct (Ascii.eqb a "/"); [discriminate|].
  destruct (segments s); discriminate.
Qed.

Lemma segments_plain (f : string) :
  string_forall (fun a => negb (Ascii.eqb a "/")) f = true ->
  segments f = [f].
Proof.
  induction f as [|a f IH]; simpl; [reflexivity|].
  intros H. apply andb_true_iff in H as [Ha Hf].
  apply negb_true_iff in Ha. now rewrite Ha, (IH Hf).
Qed.

Lemma segments_app_plain (d f : string) :
  string_forall (fun a => negb (Ascii.eqb a "/")) f = true ->
  segments (d ++ "/" ++ f) = (segments d ++ [f])%list.
Proof.
  intros Hf. change ("/" ++ f) with (String "/" f).
  induction d as [|a d IH]; cbn [append segments].
  - cbn [Ascii.eqb Bool.eqb]. now rewrite (segments_plain f Hf).
  - destruct (Ascii.eqb a "/"); [now rewrite IH|].
    rewrite IH. pose proof (segments_nonempty d) as Hne.
    destruct (segments d) as [|seg more]; [contradiction | reflexivity].
Qed.

Lemma normalize_segments_app (a : bool) (segs : list string) :
  forall kept, exists kept',
    forall more,
      normalize_segments a kept (segs ++ more)
      = normalize_segments a kept' more.
Proof.
  induction segs as [|seg rest IH]; intros kept; simpl.
  - now exists kept.
  - destruct (String.eqb seg "" || String.eqb seg "."); [apply IH|].
    destruct (String.eqb seg ".."); [|apply IH].
    destruct kept as [|top below]; [apply IH|].
    destruct (String.eqb top ".."); apply IH.
Qed.

Lemma plain_name_parts (f : string) :
  plain_name f = true ->
  String.eqb f "" = false
  /\ (String.eqb f "" || String.eqb f ".") = false
  /\ String.eqb f ".." = false
  /\ string_forall (fun a => negb (Ascii.eqb a "/")) f = true.
Proof.
  unfold plain_name. intros H.
  apply andb_true_iff in H as [H Hs].
  apply andb_true_iff in H as [H H2].
  apply andb_true_iff in H as [H0 H1].
  apply negb_true_iff in H0, H1, H2. rewrite H0, H1, H2. now repeat split.
Qed.

Lemma concat_snoc (l : list string) (f : string) :
  String.concat "/" (l ++ [f])
  = (match l with [] => "" | _ => String.concat "/" l ++ "/" end) ++ f.
Proof.
  induction l as [|x l IH]; [reflexivity|].
  destruct l as [|y l]; [simpl; now rewrite append_assoc|].
  change (String.concat "/" ((x :: y :: l) ++ [f]))
    with (x ++ "/" ++ String.concat "/" ((y :: l) ++ [f])).
  rewrite IH.
  change (String.concat "/" (x :: y :: l))
    with (x ++ "/" ++ String.concat "/" (y :: l)).
  now rewrite !append_assoc.
Qed.

Lemma ends_in_slash_app (d f : string) :
  String.eqb f "" = false -> ends_in_slash (d ++ f) = ends_in_slash f.
Proof.
  intros Hf. induction d as [|a d IH]; [reflexivity|].
  simpl. destruct (d ++ f) eqn:E.
  - destruct d; [simpl in E; subst f; discriminate | discriminate].
  - exact IH.
Qed.

Lemma ends_in_slash_plain (f : string) :
  string_forall (fun a => negb (Ascii.eqb a "/")) f = true ->
  ends_in_slash f = false.
Proof.
  induction f as [|a f IH]; [reflexivity|]. simpl.
  intros H. apply andb_true_iff in H as [Ha Hf]. apply negb_true_iff in Ha.
  destruct f; [exact Ha | now apply IH].
Qed.

Lemma append_not_empty (a b : string) :
  String.eqb b "" = false -> String.eqb (a ++ b) "" = false.
Proof.
  intros Hb. destruct a; [exact Hb | reflexivity].
Qed.

(** Joining a directory and a file name puts the name last: what
    precedes it depends on the directory alone. *)
Lemma path_join_plain (dir : string) :
  exists before,
    forall f, plain_name f = true -> path_join dir f = before ++ f.
Proof.
  unfold path_join.
  destruct (String.eqb dir "") eqn:Hdir.
  - exists "". intros f Hf.
    destruct (plain_name_parts f Hf) as (H0 & H1 & H2 & Hs).
    rewrite H0. unfold normalize. rewrite H0, (segments_plain f Hs).
    cbn [normalize_segments]. rewrite H1, H2. cbn [rev app String.concat].
    rewrite H0, (ends_in_slash_plain f Hs), append_empty_r.
    destruct f as [|a f]; [discriminate|]. simpl in Hs |- *.
    apply andb_true_iff in Hs as [Ha _]. apply negb_true_iff in Ha.
    now rewrite Ha.
  - destruct (normalize_segments_app (negb (starts_with_slash dir))
                (segments dir) []) as [kept Hkept].
    exists ((if starts_with_slash dir then "/" else "")
            ++ match rev kept with
               | [] => ""
               | _ => String.concat "/" (rev kept) ++ "/"
               end).
    intros f Hf.
    destruct (plain_name_parts f Hf) as (H0 & H1 & H2 & Hs).
    rewrite H0. unfold normalize.
    assert (Hne : String.eqb (dir ++ "/" ++ f) "" = false)
      by (destruct dir; [discriminate | reflexivity]).
    assert (Habs : starts_with_slash (dir ++ "/" ++ f) = starts_with_slash dir)
      by (destruct dir; [discriminate | reflexivity]).
    assert (Htrail : ends_in_slash (dir ++ "/" ++ f) = false).
    { rewrite ends_in_slash_app by reflexivity.
      destruct f as [|a f]; [discriminate|].
      exact (ends_in_slash_plain (String a f) Hs). }
    rewrite Hne, Habs, Htrail, (segments_app_plain dir f Hs), Hkept.
    cbn [normalize_segments]. rewrite H1, H2. cbn [rev].
    rewrite concat_snoc, append_not_empty by exact H0.
    now rewrite append_empty_r, !append_assoc.
Qed.

Lemma string_forall_impl (p q : ascii -> bool) (s : string) :
  (forall a, p a = true -> q a = true) ->
  string_forall p s = true -> string_forall q s = true.
Proof.
  intros Hpq. induction s as [|a s IH]; simpl; [trivial|].
  intros H. apply andb_true_iff in H as [Ha Hs].
  now rewrite (Hpq a Ha), IH.
Qed.

Lemma long_name_plain (f : string) :
  3 <= String.length f ->
  string_forall (fun a => negb (Ascii.eqb a "/")) f = true ->
  plain_name f = true.
Proof.
  intros Hlen Hs. unfold plain_name. rewrite Hs, andb_true_r.
  destruct f as [|a [|b [|c f]]]; simpl in Hlen; try lia.
  simpl. destruct (Ascii.eqb a "."); [|reflexivity].
  destruct (Ascii.eqb b "."); reflexivity.
Qed.

(** The file name of an artifact is a plain name. *)
Lemma artifact_name_plain (test : Test) (n : nat) (suffix : string) :
  string_forall (fun a => negb (Ascii.eqb a "/")) suffix = true ->
  plain_name (sanitizeFilename (test_name test) ++ "_attempt"
                ++ string_of_nat n ++ suffix) = true.
Proof.
  intros Hsuffix. apply long_name_plain.
  - rewrite !length_append. simpl. lia.
  - rewrite !string_forall_app, Hsuffix, andb_true_r.
    destruct (sanitizeFilename_shape (test_name test)) as [_ Hsan].
    assert (Hfile : forall a, filename_char a = true ->
                      negb (Ascii.eqb a "/") = true).
    { intros a Ha. destruct (Ascii.eqb_spec a "/"); [subst a; discriminate|].
      reflexivity. }
    assert (Hdigit : forall a, digit a = true -> negb (Ascii.eqb a "/") = true).
    { intros a Ha. destruct (Ascii.eqb_spec a "/"); [subst a; discriminate|].
      reflexivity. }
    rewrite (string_forall_impl _ _ _ Hfile Hsan),
      (string_forall_impl _ _ _ Hdigit (string_of_nat_digits n)).
    reflexivity.
Qed.

Lemma artifact_file_number (dir : string) (test : Test) (n m : nat)
    (a b : ascii) (r1 r2 : string) :
  digit a = false -> digit b = false ->
  string_forall (fun x => negb (Ascii.eqb x "/")) (String a r1) = true ->
  string_forall (fun x => negb (Ascii.eqb x "/")) (String b r2) = true ->
  artifact_file dir test n (String a r1)
  = artifact_file dir test m (String b r2) ->
  n = m /\ a = b /\ r1 = r2.
Proof.
  intros Ha Hb Hs1 Hs2 H. unfold artifact_file in H.
  destruct (path_join_plain dir) as [pre Hpre].
  rewrite !Hpre in H by now apply artifact_name_plain.
  apply append_cancel_l, append_cancel_l in H.
  apply (append_cancel_l "_attempt") in H.
  destruct (digits_then_text _ _ a b r1 r2 (string_of_nat_digits n)
              (string_of_nat_digits m) Ha Hb H) as (Hd & -> & ->).
  apply string_of_nat_injective in Hd. now repeat split.
Qed.

(** X26.  In one artifacts directory the artifacts of one test never
    overwrite each other: the screenshots of two attempts have different
    file names, so have the traces, and no screenshot has the name of a
    trace. *)
Theorem X26_artifacts_of_a_test_are_distinct :
  forall dir test n m,
    (artifact_file dir test n ".png" = artifact_file dir test m ".png" ->
     n = m)
    /\ (artifact_file dir test n "_trace.zip"
        = artifact_file dir test m "_trace.zip" -> n = m)
    /\ artifact_file dir test n ".png"
       <> artifact_file dir test m "_trace.zip".
Proof.
  intros dir test n m. repeat split.
  - intros H. now apply artifact_file_number in H.
  - intros H. now apply artifact_file_number in H.
  - intros H. apply artifact_file_number in H; try reflexivity.
    destruct H as (_ & H & _). discriminate.
Qed.

(** X26 for the first two attempts of a test named "Login". *)
Lemma X26_artifacts_of_a_test_are_distinct_witness :
  artifact_file "/work/out" (mkTest "Login" []) 1 ".png"
  <> artifact_file "/work/out" (mkTest "Login" []) 2 "_trace.zip".
Proof.
  exact (proj2 (proj2 (X26_artifacts_of_a_test_are_distinct "/work/out"
                         (mkTest "Login" []) 1 2))).
Defined.

(** ** Assertions *)

Lemma prefix_split (p s : string) :
  prefix p s = true <-> exists b, s = p ++ b.
Proof.
  revert s. induction p as [|x p IH]; intros s.
  - split; [intros _; now exists s | intros _; apply prefix_empty].
  - destruct s as [|y s]; cbn [prefix].
    + split; [discriminate | intros [b H]; discriminate].
    + destruct (ascii_dec x y) as [->|Hne].
      * rewrite IH. split; intros [b H]; exists b.
        -- simpl. now rewrite H.
        -- simpl in H. now injection H.
      * split; [discriminate|]. intros [b H]. simpl in H.
        injection H as H _. now contradiction Hne.
Qed.

Lemma includes_contains (pat s : string) :
  includes pat s = true <-> contains pat s.
Proof.
  unfold contains. induction s as [|y s IH]; cbn [includes].
  - rewrite orb_false_r, prefix_split. split.
    + intros [b H]. now exists "", b.
    + intros (a & b & H). destruct a as [|x a]; [now exists b|discriminate].
  - rewrite orb_true_iff, prefix_split, IH. split.
    + intros [[b H] | (a & b & H)].
      * now exists "", b.
      * exists (String y a), b. simpl. now rewrite H.
    + intros (a & b & H). destruct a as [|x a].
      * left. now exists b.
      * right. simpl in H. injection H as _ H. now exists a, b.
Qed.

(** X27.  An assertion that names no expected value never passes,
    whatever the page shows and whatever the driver replies: the
    comparisons [title_is], [attribute_is] and [value_is] without
    [text], [count_is] without [count], and the searches
    [text_contains], [title_contains] and [url_contains] without [text]
    or with the empty text. *)
Theorem X27_assertion_without_expectation_fails :
  forall obs input w,
    expected_missing input = true ->
    is_return (fst (page_assert obs input w)) = false.
Proof.
  intros obs input w. unfold expected_missing, page_assert, ensurePage.
  unfold bind, gets, ret, throw, driver, differs.
  destruct (browser (state w)); [destruct (page (state w))|]; simpl;
    try reflexivity;
    destruct (a_kind input); try discriminate;
    destruct (a_text input) as [t|]; simpl;
    try destruct (String.eqb t ""); simpl; try discriminate;
    try destruct (a_count input); simpl; try discriminate;
    intros _;
    destruct (script w) as [|[|?] [|[|?] ?]] eqn:Hs; simpl;
    rewrite ?Hs; simpl;
    try destruct (o_attribute obs); reflexivity.
Qed.

(** X27 for [{kind: "title_contains", text: ""}] on any page. *)
Lemma X27_assertion_without_expectation_fails_witness :
  is_return
    (fst (page_assert shop_page
            (mkAssertInput title_contains "" (Some "") None None None)
            browsing_world)) = false.
Proof.
  apply X27_assertion_without_expectation_fails. reflexivity.
Defined.

Lemma differs_false (observed : string) (expected : option string) :
  differs observed expected = false <-> expected = Some observed.
Proof.
  unfold differs. destruct expected as [e|].
  - rewrite negb_false_iff, String.eqb_eq.
    split; [now intros -> | now intros [= ->]].
  - split; discriminate.
Qed.

Lemma searched_text (t : option string) (s : string) :
  negb (truthy_str t) || negb (includes (show_text t) s) = false
  <-> exists x, t = Some x /\ x <> "" /\ contains x s.
Proof.
  rewrite orb_false_iff, !negb_false_iff.
  destruct t as [x|]; simpl.
  - rewrite negb_true_iff, String.eqb_neq, includes_contains. split.
    + intros [Hx Hc]. now exists x.
    + intros (y & [= <-] & Hx & Hc). now split.
  - split; [intros [H _]; discriminate | intros (y & H & _); discriminate].
Qed.

Lemma page_assert_sound (obs : Observed) (input : AssertInput) (w : World) :
  is_return (fst (page_assert obs input w)) = true -> asserted obs input.
Proof.
  unfold page_assert, asserted, ensurePage.
  unfold bind, gets, ret, throw, driver.
  destruct (browser (state w)); [destruct (page (state w))|]; simpl;
    try discriminate.
  destruct (a_kind input); try (intros _; exact I).
  - destruct (script w) as [|[|?] ?]; simpl; try discriminate;
      destruct (a_count input) as [c|]; simpl; try discriminate;
      destruct (Z.eqb_spec (Z.of_nat (o_count obs)) c); simpl;
      try discriminate; intros _; now subst.
  - destruct (script w) as [|[|?] ?]; simpl; try discriminate;
      destruct (differs (o_title obs) (a_text input)) eqn:E; simpl;
      try discriminate; intros _; now apply differs_false.
  - destruct (script w) as [|[|?] ?]; simpl; try discriminate;
      destruct (negb (truthy_str (a_text input))
                || negb (includes (show_text (a_text input)) (o_title obs)))
        eqn:E; simpl; try discriminate; intros _; now apply searched_text.
  - destruct (negb (truthy_str (a_text input))
              || negb (includes (show_text (a_text input)) (o_url obs)))
      eqn:E; simpl; try discriminate; intros _; now apply searched_text.
  - destruct (script w) as [|[|?] [|[|?] ?]] eqn:Hs; simpl; rewrite ?Hs;
      simpl; try discriminate;
      destruct (o_attribute obs) as [v|]; simpl; try discriminate;
      destruct (differs v (a_text input)) eqn:E; simpl; try discriminate;
      intros _; exists v; (split; [reflexivity | now apply differs_false]).
  - destruct (script w) as [|[|?] [|[|?] ?]] eqn:Hs; simpl; rewrite ?Hs;
      simpl; try discriminate;
      destruct (differs (o_value obs) (a_text input)) eqn:E; simpl;
      try discriminate; intros _; now apply differs_false.
Qed.

Lemma page_assert_complete (obs : Observed) (input : AssertInput)
    (w : World) :
  no_page w = false -> script w = [] ->
  expected_missing input = false -> asserted obs input ->
  is_return (fst (page_assert obs input w)) = true.
Proof.
  unfold no_page, page_assert, asserted, expected_missing, ensurePage.
  unfold bind, gets, ret, throw, driver.
  intros Hp Hs.
  destruct (browser (state w)); [destruct (page (state w))|];
    try discriminate.
  destruct (a_kind input); simpl; rewrite ?Hs; simpl; rewrite ?Hs; simpl.
  - reflexivity.
  - reflexivity.
  - intros -> _. simpl. now rewrite Hs.
  - intros _ ->. now rewrite Z.eqb_refl.
  - intros _ H. apply differs_false in H. now rewrite H.
  - intros _ H. apply searched_text in H. now rewrite H.
  - intros _ H. apply searched_text in H. now rewrite H.
  - intros _ (v & -> & H). apply differs_false in H. now rewrite H.
  - intros _ H. apply differs_false in H. now rewrite H.
Qed.

(** X28.  A passing assertion holds of the page.  When [page_assert]
    returns, the count, the title, the input value or the attribute is
    the expected one, respectively the title or the URL contains the
    expected, non-empty text.  Conversely, with a current page and a
    driver that does not fail, an assertion that names its expected
    value and holds of the page passes. *)
Theorem X28_passing_assertion_holds :
  forall obs input w,
    (is_return (fst (page_assert obs input w)) = true -> asserted obs input)
    /\ (no_page w = false -> script w = [] ->
        expected_missing input = false -> asserted obs input ->
        is_return (fst (page_assert obs input w)) = true).
Proof.
  intros obs input w. split.
  - apply page_assert_sound.
  - apply page_assert_complete.
Qed.

(** X28 for [{kind: "title_contains", text: "Shop"}] on "My Shop". *)
Lemma X28_passing_assertion_holds_witness :
  asserted shop_page
    (mkAssertInput title_contains "" (Some "Shop") None None None).
Proof.
  apply (proj1 (X28_passing_assertion_holds shop_page
                  (mkAssertInput title_contains "" (Some "Shop") None None
                     None)
                  browsing_world)).
  vm_compute. reflexivity.
Defined.

(** X29.  A negative retry budget runs no test at all: the loop body is
    never entered, no step of the test is invoked, and the test is
    recorded as failed with the error text "null" and no artifacts;
    without [continueOnError] the tests that follow are skipped. *)
Theorem X29_negative_retries_fail_without_running :
  forall ext input dir test c,
    (retries_of input < 0)%Z ->
    run_test ext input dir test c
    = (Return (negb (truthy (continueOnError input))),
       mkCtx (world c)
         (mkResults (r_setup (results c))
            (r_tests (results c)
               ++ [test_entry (test_name test) false (Some "null") []])
            (r_teardown (results c)) (r_junit (results c)))
         (events c)).
Proof.
  intros ext input dir test c HR.
  unfold run_test, attempts_bound.
  replace (Z.to_nat (retries_of input + 1)) with 0 by lia.
  reflexivity.
Qed.

(** X29 for [retries: -1]. *)
Lemma X29_negative_retries_fail_without_running_witness :
  fst (run_test unreached no_budget_suite "/work/out"
         (mkTest "Login" [step_close]) (start idle_world))
  = Return true.
Proof.
  refine (f_equal fst
            (X29_negative_retries_fail_without_running unreached
               no_budget_suite "/work/out" (mkTest "Login" [step_close])
               (start idle_world) _)).
  vm_compute. reflexivity.
Defined.

(** ** The teardown of a suite *)

Lemma keeps_teardown_here {A} (m : M Ctx A) :
  (forall c, results (snd (m c)) = results c) -> keeps_teardown m.
Proof. intros H c. now rewrite H. Qed.

Lemma keeps_teardown_ret {A} (a : A) : keeps_teardown (ret a).
Proof. now apply keeps_teardown_here. Qed.

Lemma keeps_teardown_throw {A} (e : string) :
  keeps_teardown (@throw Ctx A e).
Proof. now apply keeps_teardown_here. Qed.

Lemma keeps_teardown_gets {A} (f : Ctx -> A) : keeps_teardown (gets f).
Proof. now apply keeps_teardown_here. Qed.

Lemma keeps_teardown_emit (e : Event) : keeps_teardown (emit e).
Proof. now apply keeps_teardown_here. Qed.

Lemma keeps_teardown_liftW {A} (m : M World A) : keeps_teardown (liftW m).
Proof.
  apply keeps_teardown_here. intros c. unfold liftW.
  now destruct (m (world c)).
Qed.

Lemma keeps_teardown_push (ph : Phase) (e : Entry) :
  ph <> Teardown -> keeps_teardown (push ph e).
Proof. intros Hph c. destruct ph; [reflexivity | reflexivity | contradiction]. Qed.

Lemma keeps_teardown_bind {A B} (m : M Ctx A) (k : A -> M Ctx B) :
  keeps_teardown m -> (forall a, keeps_teardown (k a)) ->
  keeps_teardown (bind m k).
Proof.
  intros Hm Hk c. unfold bind. pose proof (Hm c) as H1.
  destruct (m c) as [[a|e] c1]; simpl in H1; [|exact H1].
  now rewrite (Hk a c1).
Qed.

Lemma keeps_teardown_try_catch {A} (m : M Ctx A) (h : string -> M Ctx A) :
  keeps_teardown m -> (forall e, keeps_teardown (h e)) ->
  keeps_teardown (try_catch m h).
Proof.
  intros Hm Hh c. unfold try_catch. pose proof (Hm c) as H1.
  destruct (m c) as [[a|e] c1]; simpl in H1; [exact H1|].
  now rewrite (Hh e c1).
Qed.

Lemma keeps_teardown_catching {A} (m : M Ctx A) :
  keeps_teardown m -> keeps_teardown (catching m).
Proof.
  intros Hm c. unfold catching. pose proof (Hm c) as H1.
  now destruct (m c) as [r c1].
Qed.

Lemma keeps_teardown_when (b : bool) (m : M Ctx unit) :
  keeps_teardown m -> keeps_teardown (when b m).
Proof. intros Hm. destruct b; [exact Hm | apply keeps_teardown_ret]. Qed.

Lemma keeps_teardown_update_results (f : Results -> Results) :
  (forall r, r_teardown (f r) = r_teardown r) ->
  keeps_teardown (update_results f).
Proof. intros H c. apply H. Qed.

Ltac keeps_teardown_step :=
  repeat first
    [ apply keeps_teardown_bind; [|intros]
    | apply keeps_teardown_try_catch; [|intros]
    | apply keeps_teardown_catching
    | apply keeps_teardown_when
    | apply keeps_teardown_ret | apply keeps_teardown_throw
    | apply keeps_teardown_gets | apply keeps_teardown_liftW
    | apply keeps_teardown_emit
    | apply keeps_teardown_push; discriminate ].

Section Teardown.

Variable ext : string -> Args -> M World string.

Variable input : SuiteInput.

Lemma runSteps_keeps_teardown (ph : Phase) (steps : list Step) :
  ph <> Teardown -> keeps_teardown (runSteps ext input steps ph).
Proof.
  intros Hph. unfold runSteps.
  apply keeps_teardown_bind; [apply keeps_teardown_emit|intros _].
  induction steps as [|step rest IH]; simpl; [apply keeps_teardown_ret|].
  apply keeps_teardown_bind; [|intros; exact IH].
  apply keeps_teardown_try_catch; intros;
    repeat first
      [ apply keeps_teardown_bind; [|intros]
      | apply keeps_teardown_when
      | apply keeps_teardown_ret | apply keeps_teardown_throw
      | apply keeps_teardown_liftW | apply keeps_teardown_emit
      | apply keeps_teardown_push; exact Hph ].
Qed.

Lemma on_failure_keeps_teardown dir test e l :
  keeps_teardown (on_failure input dir test e l).
Proof.
  unfold on_failure, capture_screenshot, capture_trace.
  destruct (truthy (onFailureScreenshot input));
    destruct (truthy (traceOnFailure input)); keeps_teardown_step.
Qed.

Lemma tracing_keeps_teardown m : keeps_teardown (tracing input m).
Proof. unfold tracing. keeps_teardown_step. Qed.

Lemma attempt_once_keeps_teardown dir test l :
  keeps_teardown (attempt_once ext input dir test l).
Proof.
  unfold attempt_once.
  apply keeps_teardown_bind; [apply keeps_teardown_emit|intros _].
  apply keeps_teardown_bind.
  - apply keeps_teardown_catching, keeps_teardown_bind;
      [apply tracing_keeps_teardown|intros _].
    now apply runSteps_keeps_teardown.
  - intros [v|e]; [|apply on_failure_keeps_teardown].
    apply keeps_teardown_bind;
      [apply keeps_teardown_catching, tracing_keeps_teardown|].
    intros [v'|e];
      [apply keeps_teardown_ret | apply on_failure_keeps_teardown].
Qed.

Lemma attempt_loop_keeps_teardown dir test :
  forall fuel l, keeps_teardown (attempt_loop ext input fuel dir test l).
Proof.
  induction fuel as [|fuel IH]; intros l; simpl; [apply keeps_teardown_ret|].
  destruct (Z.leb (Z.of_nat (attempt l)) (retries_of input));
    [|apply keeps_teardown_ret].
  apply keeps_teardown_bind; [apply attempt_once_keeps_teardown|].
  intros [b l']; simpl. destruct b; [apply keeps_teardown_ret | apply IH].
Qed.

Lemma tests_loop_keeps_teardown dir :
  forall ts, keeps_teardown (tests_loop ext input dir ts).
Proof.
  induction ts as [|test rest IH]; simpl; [apply keeps_teardown_ret|].
  apply keeps_teardown_bind.
  - unfold run_test.
    apply keeps_teardown_bind; [apply attempt_loop_keeps_teardown|intros].
    keeps_teardown_step.
  - intros [|]; [apply keeps_teardown_ret | exact IH].
Qed.

Lemma setup_phase_keeps_teardown : keeps_teardown (setup_phase ext input).
Proof.
  unfold setup_phase, acquire.
  apply keeps_teardown_bind; [keeps_teardown_step|intros _].
  apply keeps_teardown_when. now apply runSteps_keeps_teardown.
Qed.

Lemma resolve_artifactsDir_keeps_teardown :
  keeps_teardown (resolve_artifactsDir input).
Proof. unfold resolve_artifactsDir. keeps_teardown_step. Qed.

Lemma report_keeps_teardown : keeps_teardown (report input).
Proof.
  unfold report. apply keeps_teardown_when.
  apply keeps_teardown_bind; [apply keeps_teardown_gets|intros r].
  apply keeps_teardown_bind;
    [now apply keeps_teardown_update_results|intros _].
  destruct (junitPath input); keeps_teardown_step.
Qed.

Lemma executed_cons (step : Step) (rest : list Step) (w : World) :
  executed ext (continueOnError input) (step :: rest) w
  = if fst (plan_step_fails ext step w)
       && negb (truthy (continueOnError input))
    then 1
    else S (executed ext (continueOnError input) rest
              (snd (plan_step_fails ext step w))).
Proof.
  unfold executed. cbn [first_failure length].
  destruct (truthy (continueOnError input));
    destruct (fst (plan_step_fails ext step w)); cbn [andb negb];
    try reflexivity.
  now destruct (first_failure ext rest (snd (plan_step_fails ext step w))).
Qed.

(** One step of the step runner: the step is run as [plan_step_fails]
    runs it, one record is pushed for it, and the runner raises when
    the step failed and failures are not passed over. *)
Lemma runSteps_loop_cons (ph : Phase) (step : Step) (rest : list Step)
    (c : Ctx) :
  exists e c1 msg,
    world c1 = snd (plan_step_fails ext step (world c))
    /\ phase_entries ph (results c1)
       = (phase_entries ph (results c) ++ [e])%list
    /\ name e = step_name step
    /\ ok e = negb (fst (plan_step_fails ext step (world c)))
    /\ artifacts e = None
    /\ runSteps_loop ext input (step :: rest) ph c
       = if fst (plan_step_fails ext step (world c))
            && negb (truthy (continueOnError input))
         then (Throw msg, c1)
         else runSteps_loop ext input rest ph c1.
Proof.
  cbn [runSteps_loop].
  unfold plan_step_fails, tool_found, handler_is_function.
  destruct (own_tool (step_name step)) eqn:Hown;
    [|destruct (mem (step_name step) object_prototype_functions);
      [|destruct (String.eqb (step_name step) "__proto__")]];
    cbn [negb orb andb];
    unfold bind at 1; unfold try_catch;
    unfold bind, when, throw, ret, emit, liftW, modify;
    cbn [negb fst snd world results events];
    try destruct (call_tool ext (step_name step) (arguments_of step)
                    (world c)) as [[v|e] w1];
    rewrite push_run;
    destruct (truthy (continueOnError input));
    cbn [negb orb andb fst snd];
    match goal with
    | |- context [push ph ?E ?C0] =>
        exists E, (snd (push ph E C0))
    end;
    first [ exists ""; rewrite push_world, push_phase_entries;
            repeat split; reflexivity
          | eexists; rewrite push_world, push_phase_entries;
            repeat split; reflexivity ].
Qed.

(** The step runner executes the steps in order, each once, up to the
    first failure that it does not pass over. *)
Lemma runSteps_loop_exec (ph : Phase) (steps : list Step) :
  forall c,
    let k := executed ext (continueOnError input) steps (world c) in
    let oc := runSteps_loop ext input steps ph c in
    world (snd oc) = world_after ext k steps (world c)
    /\ map name (phase_entries ph (results (snd oc)))
       = (map name (phase_entries ph (results c))
            ++ map step_name (firstn k steps))%list
    /\ map ok (phase_entries ph (results (snd oc)))
       = (map ok (phase_entries ph (results c))
            ++ map negb (firstn k (failures ext steps (world c))))%list
    /\ is_return (fst oc)
       = (truthy (continueOnError input)
          || match first_failure ext steps (world c) with
             | None => true
             | Some _ => false
             end).
Proof.
  induction steps as [|step rest IH]; intros c.
  - cbn. unfold executed. cbn.
    destruct (truthy (continueOnError input)); cbn;
      rewrite !app_nil_r; repeat split.
  - cbv zeta. rewrite executed_cons.
    destruct (runSteps_loop_cons ph step rest c)
      as (e & c1 & msg & Hw & Hentries & Hname & Hok & _ & ->).
    cbn [first_failure failures].
    destruct (fst (plan_step_fails ext step (world c))) eqn:Hf;
      destruct (truthy (continueOnError input)) eqn:Hcoe;
      cbn [andb negb orb fst snd world_after firstn map is_return].
    + destruct (IH c1) as (Hw1 & Hn1 & Ho1 & Hr1).
      rewrite Hw in Hw1, Hn1, Ho1, Hr1.
      rewrite Hw1, Hn1, Ho1, Hr1, Hentries, !map_app, <- !app_assoc.
      cbn [map app orb negb]. rewrite Hname, Hok. repeat split.
    + cbn [negb] in Hok. rewrite Hentries, !map_app. cbn [map].
      rewrite Hname, Hok. repeat split; exact Hw.
    + destruct (IH c1) as (Hw1 & Hn1 & Ho1 & Hr1).
      rewrite Hw in Hw1, Hn1, Ho1, Hr1.
      rewrite Hw1, Hn1, Ho1, Hr1, Hentries, !map_app, <- !app_assoc.
      cbn [map app orb negb]. rewrite Hname, Hok. repeat split.
    + destruct (IH c1) as (Hw1 & Hn1 & Ho1 & Hr1).
      rewrite Hw in Hw1, Hn1, Ho1, Hr1.
      rewrite Hw1, Hn1, Ho1, Hr1, Hentries, !map_app, <- !app_assoc.
      cbn [map app orb negb]. rewrite Hname, Hok. repeat split.
      now destruct (first_failure ext rest
                      (snd (plan_step_fails ext step (world c)))).
Qed.

(** The teardown statement runs the teardown steps that way. *)
Lemma teardown_phase_exec (c : Ctx) :
  let steps := steps_of (teardown input) in
  let k := executed ext (continueOnError input) steps (world c) in
  let oc := teardown_phase ext input c in
  world (snd oc) = world_after ext k steps (world c)
  /\ map name (r_teardown (results (snd oc)))
     = (map name (r_teardown (results c))
          ++ map step_name (firstn k steps))%list
  /\ map ok (r_teardown (results (snd oc)))
     = (map ok (r_teardown (results c))
          ++ map negb (firstn k (failures ext steps (world c))))%list
  /\ is_return (fst oc)
     = (truthy (continueOnError input)
        || match first_failure ext steps (world c) with
           | None => true
           | Some _ => false
           end).
Proof.
  unfold teardown_phase.
  destruct (teardown input) as [[|step rest]|]; cbn [nonempty steps_of when].
  - unfold executed. cbn.
    destruct (truthy (continueOnError input)); cbn;
      rewrite !app_nil_r; repeat split.
  - unfold runSteps, bind, emit, modify.
    exact (runSteps_loop_exec Teardown (step :: rest)
             (mkCtx (world c) (results c)
                (events c ++ [EvRunSteps Teardown])%list)).
  - unfold executed. cbn.
    destruct (truthy (continueOnError input)); cbn;
      rewrite !app_nil_r; repeat split.
Qed.

End Teardown.

(** C2 (as amended).  In every call of [test_suite_run] with a finite
    retry budget whose setup phase completes (the browser, when needed,
    is acquired and no setup step aborts the call), the test loop comes
    to its end, whatever the tests do and even when every test fails,
    and the teardown steps are then executed, exactly once per call:
    [runSteps] is entered once for them and runs them in order from the
    world that the tests left, each step once, all of them when
    [continueOnError] is true and otherwise up to the first step that
    fails; each executed step has its record in [results.teardown], and
    nothing else has.  When the setup phase fails (a setup step fails
    with [continueOnError] not true), the call fails with the same
    error, in the state that the setup left, before any test is
    attempted: the teardown steps are not run and the browser is not
    released. *)
Theorem C2_teardown_once_when_setup_completes :
  forall ext input w,
    finite_budget input ->
    match setup_phase ext input (start w) with
    | (Return _, c1) =>
        exists dir c2 c3,
          resolve_artifactsDir input c1 = (Return dir, c2)
          /\ tests_loop ext input dir (tests input) c2 = (Return tt, c3)
          /\ test_suite_run ext input (start w) = closing_phase ext input c3
          /\ count is_teardown_run (events c3) = 0
          /\ r_teardown (results c3) = []
          /\ count is_teardown_run
               (events (snd (test_suite_run ext input (start w))))
             = (if nonempty (teardown input) then 1 else 0)
          /\ (let steps := steps_of (teardown input) in
              let k := executed ext (continueOnError input) steps
                         (world c3) in
              let oc := teardown_phase ext input c3 in
              world (snd oc) = world_after ext k steps (world c3)
              /\ map name (r_teardown (results (snd oc)))
                 = map step_name (firstn k steps)
              /\ map ok (r_teardown (results (snd oc)))
                 = map negb (firstn k (failures ext steps (world c3)))
              /\ is_return (fst oc)
                 = (truthy (continueOnError input)
                    || match first_failure ext steps (world c3) with
                       | None => true
                       | Some _ => false
                       end)
              /\ (forall res c',
                    test_suite_run ext input (start w) = (Return res, c') ->
                    r_teardown res = r_teardown (results (snd oc))))
    | (Throw e, c1) =>
        test_suite_run ext input (start w) = (Throw e, c1)
        /\ count is_attempt (events c1) = 0
        /\ count is_teardown_run (events c1) = 0
        /\ count is_release (events c1) = 0
        /\ r_teardown (results c1) = []
    end.
Proof.
  intros ext input w _.
  pose proof (test_suite_run_phases ext input (start w)) as Hrun.
  pose proof (setup_phase_keeps_teardown ext input (start w)) as Hk1.
  destruct (setup_phase ext input (start w)) as [[[]|e] c1] eqn:Hsetup;
    cbn [snd] in Hk1.
  - destruct Hrun as (dir & c2 & c3 & Hdir & Hloop & Heq).
    exists dir, c2, c3.
    assert (Hquiet : count is_teardown_run (events c3) = 0).
    { exact (before_closing_quiet ext input is_teardown_run w c1 dir c2 c3
               eq_refl eq_refl (fun _ => eq_refl) outside_tests_teardown_run
               Hsetup Hdir Hloop). }
    assert (Hnone : r_teardown (results c3) = []).
    { pose proof (resolve_artifactsDir_keeps_teardown input c1) as Hk2.
      pose proof (tests_loop_keeps_teardown ext input dir (tests input) c2)
        as Hk3.
      rewrite Hdir in Hk2. rewrite Hloop in Hk3. cbn [snd] in Hk2, Hk3.
      now rewrite Hk3, Hk2, Hk1. }
    split; [exact Hdir|]. split; [exact Hloop|]. split; [exact Heq|].
    split; [exact Hquiet|]. split; [exact Hnone|].
    split; [now rewrite Heq, closing_phase_teardown, Hquiet|].
    destruct (teardown_phase_exec ext input c3) as (Hw & Hn & Ho & Hr).
    rewrite Hnone in Hn, Ho. cbn [map app] in Hn, Ho.
    cbv zeta. split; [exact Hw|]. split; [exact Hn|]. split; [exact Ho|].
    split; [exact Hr|].
    intros res c' Hres. rewrite Heq in Hres.
    unfold closing_phase, bind in Hres.
    destruct (teardown_phase ext input c3) as [[[]|e] c4]; [|discriminate].
    pose proof (report_keeps_teardown input c4) as Hk5.
    destruct (report input c4) as [[[]|e] c5]; [|discriminate].
    rewrite release_exact in Hres. unfold gets in Hres.
    injection Hres as <- _. exact Hk5.
  - rewrite Hrun. split; [reflexivity|].
    destruct (setup_phase_quiet ext input is_attempt eq_refl eq_refl
                (fun _ => eq_refl) (start w)) as (e1 & H1 & Q1).
    destruct (setup_phase_quiet ext input is_teardown_run eq_refl eq_refl
                (fun _ => eq_refl) (start w)) as (e2 & H2 & Q2).
    destruct (setup_phase_quiet ext input is_release eq_refl eq_refl
                (fun _ => eq_refl) (start w)) as (e3 & H3 & Q3).
    rewrite Hsetup in H1, H2, H3. simpl in H1, H2, H3.
    split; [rewrite H1; now apply count_none|].
    split; [rewrite H2; now apply count_none|].
    split; [rewrite H3; now apply count_none | exact Hk1].
Qed.

(** C2 at a suite whose only test fails: the teardown runs, once. *)
Lemma C2_teardown_once_when_setup_completes_witness :
  finite_budget teardown_suite
  /\ count is_teardown_run
       (events (snd (test_suite_run unreached teardown_suite
                       (start idle_world)))) = 1.
Proof.
  assert (Hb : finite_budget teardown_suite) by (vm_compute; reflexivity).
  split; [exact Hb|].
  pose proof (C2_teardown_once_when_setup_completes unreached teardown_suite
                idle_world Hb) as H.
  destruct (setup_phase unreached teardown_suite (start idle_world))
    as [[[]|e] c1] eqn:E.
  - destruct H as (dir & c2 & c3 & _ & _ & _ & _ & _ & Hcount & _).
    exact Hcount.
  - vm_compute in E. discriminate E.
Defined.

(** ** The retry loop and its records *)

Section RetryRecords.

Variable ext : string -> Args -> M World string.

Variable input : SuiteInput.

(** What the step runner pushes: step records only; when failures are
    not passed over, no failed record if it returns and exactly one,
    the last, if it raises; when they are passed over, it returns. *)
Lemma runSteps_loop_failed (ph : Phase) (steps : list Step) :
  forall c,
    let oc := runSteps_loop ext input steps ph c in
    exists recs,
      phase_entries ph (results (snd oc))
      = (phase_entries ph (results c) ++ recs)%list
      /\ forallb (fun e => negb (is_summary e)) recs = true
      /\ (truthy (continueOnError input) = false ->
          length (filter (fun e => negb (ok e)) recs)
          = if is_return (fst oc) then 0 else 1)
      /\ (truthy (continueOnError input) = true ->
          is_return (fst oc) = true).
Proof.
  induction steps as [|step rest IH]; intros c.
  - exists []. cbn. rewrite app_nil_r. repeat split.
  - cbv zeta.
    destruct (runSteps_loop_cons ext input ph step rest c)
      as (e & c1 & msg & _ & Hentries & _ & Hok & Hart & ->).
    assert (Hstep : negb (is_summary e) = true)
      by (unfold is_summary; now rewrite Hart).
    destruct (fst (plan_step_fails ext step (world c))) eqn:Hf;
      destruct (truthy (continueOnError input)) eqn:Hcoe;
      cbn [andb negb fst snd is_return] in *.
    + destruct (IH c1) as (recs & Hrecs & Hall & _ & Hret).
      exists (e :: recs). rewrite Hrecs, Hentries, <- app_assoc.
      cbn [app forallb]. rewrite Hstep, Hall.
      repeat split; [discriminate | exact Hret].
    + exists [e]. cbn [forallb filter length]. rewrite Hstep, Hok.
      repeat split; [exact Hentries | discriminate].
    + destruct (IH c1) as (recs & Hrecs & Hall & _ & Hret).
      exists (e :: recs). rewrite Hrecs, Hentries, <- app_assoc.
      cbn [app forallb]. rewrite Hstep, Hall.
      repeat split; [discriminate | exact Hret].
    + destruct (IH c1) as (recs & Hrecs & Hall & Hfailed & _).
      exists (e :: recs). rewrite Hrecs, Hentries, <- app_assoc.
      cbn [app forallb filter]. rewrite Hstep, Hall, Hok.
      repeat split; [intros _; now apply Hfailed | discriminate].
Qed.

Lemma runSteps_failed (ph : Phase) (steps : list Step) (c : Ctx) :
  let oc := runSteps ext input steps ph c in
  exists recs,
    phase_entries ph (results (snd oc))
    = (phase_entries ph (results c) ++ recs)%list
    /\ forallb (fun e => negb (is_summary e)) recs = true
    /\ (truthy (continueOnError input) = false ->
        length (filter (fun e => negb (ok e)) recs)
        = if is_return (fst oc) then 0 else 1)
    /\ (truthy (continueOnError input) = true ->
        is_return (fst oc) = true).
Proof.
  unfold runSteps, bind, emit, modify.
  exact (runSteps_loop_failed ph steps
           (mkCtx (world c) (results c) (events c ++ [EvRunSteps ph])%list)).
Qed.

Variable dir : string.

Variable test : Test.

Lemma on_failure_results (e : string) (l : Locals) (c : Ctx) :
  results (snd (on_failure input dir test e l c)) = results c.
Proof.
  unfold on_failure, capture_screenshot, capture_trace.
  unfold bind, try_catch, liftW, ret.
  destruct (truthy (onFailureScreenshot input));
    destruct (truthy (traceOnFailure input)); simpl;
    repeat match goal with
           | |- context [ensurePage ?w] =>
               destruct (ensurePage w) as [[?|?] ?]; simpl
           | |- context [driver ?w] =>
               destruct (driver w) as [[[]|?] ?]; simpl
           end;
    reflexivity.
Qed.

(** One pass with trace capture off, and the records it pushes. *)
Lemma attempt_once_records (l : Locals) (c : Ctx) :
  truthy (traceOnFailure input) = false ->
  exists recs,
    r_tests (results (snd (attempt_once ext input dir test l c)))
    = (r_tests (results c) ++ recs)%list
    /\ forallb (fun e => negb (is_summary e)) recs = true
    /\ ((exists l', fst (attempt_once ext input dir test l c)
                    = Return (true, l')
                    /\ attempt l' = attempt l /\ l_ok l' = true)
           /\ (truthy (continueOnError input) = false ->
               length (filter (fun e => negb (ok e)) recs) = 0)
        \/ (exists b l', fst (attempt_once ext input dir test l c)
                         = Return (b, l')
                         /\ attempt l' = S (attempt l)
                         /\ l_ok l' = l_ok l
                         /\ b = Z.ltb (retries_of input)
                                  (Z.of_nat (S (attempt l))))
           /\ truthy (continueOnError input) = false
           /\ length (filter (fun e => negb (ok e)) recs) = 1).
Proof.
  intros Htrace. unfold attempt_once, tracing. rewrite Htrace. simpl when.
  set (steps := runSteps ext input (test_steps test) TestPhase).
  unfold bind, emit, modify, catching, ret.
  set (c0 := mkCtx (world c) (results c)
               (events c ++ [EvAttempt (test_name test) (attempt l)])).
  destruct (runSteps_failed TestPhase (test_steps test) c0)
    as (recs & Hrecs & Hall & Hfailed & Hcont).
  fold steps in Hrecs, Hfailed, Hcont.
  exists recs. cbn [phase_entries c0 results] in Hrecs.
  destruct (steps c0) as [[[]|e] c1]; cbn [fst snd is_return] in *.
  - split; [exact Hrecs|]. split; [exact Hall|]. left.
    split; [|exact Hfailed]. eexists. repeat split.
  - destruct (on_failure_shape input dir test e l c1)
      as (arts & c3 & Hf & _ & _).
    pose proof (on_failure_results e l c1) as Hres.
    rewrite Hf in Hres |- *. cbn [fst snd] in Hres |- *.
    rewrite Hres. split; [exact Hrecs|]. split; [exact Hall|]. right.
    destruct (truthy (continueOnError input)) eqn:Hcoe.
    + specialize (Hcont eq_refl). discriminate Hcont.
    + split; [|split; [reflexivity | now apply Hfailed]].
      eexists _, _. repeat split.
Qed.

(** The loop with trace capture off: every failed attempt leaves one
    failed step record and advances [attempt], and a success ends the
    loop. *)
Lemma attempt_loop_records :
  truthy (traceOnFailure input) = false ->
  forall fuel l c,
    exists recs,
      r_tests (results (snd (attempt_loop ext input fuel dir test l c)))
      = (r_tests (results c) ++ recs)%list
      /\ forallb (fun e => negb (is_summary e)) recs = true
      /\ (forall l', fst (attempt_loop ext input fuel dir test l c)
                     = Return l' ->
          attempt l <= attempt l'
          /\ (truthy (continueOnError input) = false ->
              length (filter (fun e => negb (ok e)) recs)
              = attempt l' - attempt l)
          /\ (truthy (continueOnError input) = true ->
              0 < fuel ->
              (Z.of_nat (attempt l) <= retries_of input)%Z ->
              l_ok l' = true /\ attempt l' = attempt l)).
Proof.
  intros Htrace.
  induction fuel as [|fuel IH]; intros l c; cbn [attempt_loop].
  { exists []. unfold ret. cbn [fst snd]. rewrite app_nil_r.
    split; [reflexivity|]. split; [reflexivity|].
    intros l' [= <-]. split; [lia|].
    split; [intros _; cbn; lia | intros _ H0; lia]. }
  destruct (Z.leb_spec (Z.of_nat (attempt l)) (retries_of input)) as [Hle|Hgt].
  2:{ exists []. unfold ret. cbn [fst snd]. rewrite app_nil_r.
      split; [reflexivity|]. split; [reflexivity|].
      intros l' [= <-]. split; [lia|].
      split; [intros _; cbn; lia | intros _ _ H0; lia]. }
  unfold bind.
  destruct (attempt_once_records l c Htrace)
    as (recs & Hrecs & Hall &
        [[(l1 & Hrun & Hatt & Hok) Hnone]
        | [(b & l1 & Hrun & Hatt & Hok & Hb) [Hcoe Hone]]]).
  - destruct (attempt_once ext input dir test l c) as [r c1].
    cbn [fst snd] in Hrun, Hrecs. subst r. cbn [fst snd].
    exists recs. unfold ret. cbn [fst snd].
    split; [exact Hrecs|]. split; [exact Hall|].
    intros l' [= <-]. rewrite Hatt.
    repeat split; try lia; try assumption.
    intros Hc. rewrite (Hnone Hc). lia.
  - destruct (attempt_once ext input dir test l c) as [r c1].
    cbn [fst snd] in Hrun, Hrecs. subst r. cbn [fst snd].
    destruct b.
    + exists recs. unfold ret. cbn [fst snd].
      split; [exact Hrecs|]. split; [exact Hall|].
      intros l' [= <-]. rewrite Hatt.
      repeat split; try lia; congruence.
    + destruct (IH l1 c1) as (recs2 & Hrecs2 & Hall2 & Hloop).
      exists (recs ++ recs2)%list.
      rewrite Hrecs2, Hrecs, <- app_assoc, forallb_app, Hall, Hall2.
      split; [reflexivity|]. split; [reflexivity|].
      intros l' Hl'. destruct (Hloop l' Hl') as (Hmono & Hcount & _).
      rewrite Hatt in Hmono, Hcount.
      repeat split; try lia; try congruence.
      intros Hc. rewrite filter_app, length_app, Hone, (Hcount Hc). lia.
Qed.

End RetryRecords.

(** X25.  With trace capture off and a finite retry budget [R >= 0],
    a test is attempted until an attempt succeeds or [R + 1] attempts
    have failed, and never again after a success: with [f] failed
    attempts, a test that passes was attempted [f + 1] times with
    [f <= R], a test that fails [f = R + 1] times.  When
    [continueOnError] is not true every failed attempt has left exactly
    one failed step record in [results.tests] and a successful attempt
    none; when it is true the first attempt succeeds.  The record pushed
    for the test, after the step records, says whether it passed; a
    failed test carries an error, a passed one none.  The record lists
    at most one screenshot per failed attempt, in the order of the
    attempts, the one of attempt [k] (counted from 1) being the file
    [<sanitized test name>_attempt<k>.png] joined to the artifacts
    directory, and none when screenshot capture is off. *)
Theorem X25_retry_budget_without_trace :
  forall ext input dir test c,
    truthy (traceOnFailure input) = false ->
    (0 <= retries_of input)%Z ->
    finite_budget input ->
    exists c' recs passed err f ks,
      run_test ext input dir test c
      = (Return (negb passed && negb (truthy (continueOnError input))), c')
      /\ r_tests (results c')
         = (r_tests (results c) ++ recs
              ++ [test_entry (test_name test) passed err
                    (map (fun k =>
                            path_join dir
                              (sanitizeFilename (test_name test)
                                 ++ "_attempt" ++ string_of_nat k ++ ".png"))
                       ks)])%list
      /\ forallb (fun e => negb (is_summary e)) recs = true
      /\ attempts_made c' - attempts_made c
         = f + (if passed then 1 else 0)
      /\ (truthy (continueOnError input) = false ->
          length (filter (fun e => negb (ok e)) recs) = f)
      /\ (truthy (continueOnError input) = true -> f = 0 /\ passed = true)
      /\ (passed = true -> err = None /\ (Z.of_nat f <= retries_of input)%Z)
      /\ (passed = false ->
          Z.of_nat f = (retries_of input + 1)%Z /\ exists e, err = Some e)
      /\ StronglySorted lt ks
      /\ Forall (fun k => 1 <= k <= f) ks
      /\ length ks <= f
      /\ (truthy (onFailureScreenshot input) = false -> ks = []).
Proof.
  intros ext input dir test c Htrace HR _.
  unfold run_test, attempts_bound. unfold bind at 1.
  destruct (attempt_loop_no_trace ext input dir test Htrace
              (Z.to_nat (retries_of input + 1)) (mkLocals 0 false None []) c
              eq_refl)
    as (l & c1 & ks & Hrun & _ & Hc & Htrue & Hfalse & Hart & Hsort
        & Hbound & Hnone).
  { unfold passes_left. simpl. lia. }
  destruct (attempt_loop_records ext input dir test Htrace
              (Z.to_nat (retries_of input + 1)) (mkLocals 0 false None []) c)
    as (recs & Hrecs & Hall & Hloop).
  rewrite Hrun in Hrecs, Hloop |- *. cbn [fst snd] in Hrecs, Hloop.
  destruct (Hloop l eq_refl) as (_ & Hcount & Hcont).
  cbn [attempt l_ok lastErr testArtifacts app] in *.
  rewrite Nat.sub_0_r in *.
  assert (Hlen : length ks <= attempt l).
  { pose proof (sorted_bounded_length ks 0 (attempt l) Hsort Hbound). lia. }
  unfold bind. rewrite push_run. unfold ret.
  eexists _, recs, (l_ok l), _, (attempt l), ks.
  split; [reflexivity|].
  split.
  { cbn. rewrite Hrecs, Hart, <- app_assoc. reflexivity. }
  split; [exact Hall|].
  split.
  { unfold attempts_made. rewrite push_events. rewrite Hc. lia. }
  split; [exact Hcount|].
  split.
  { intros Hcoe. destruct (Hcont Hcoe) as [Hok Hatt]; [lia | lia |].
    now split. }
  split.
  { intros Hok. rewrite Hok. split; [reflexivity | now apply Htrue]. }
  split.
  { intros Hok. rewrite Hok. destruct (Hfalse Hok) as [Hgt Hlast].
    assert (Hpos : 0 < attempt l) by lia.
    destruct (Hlast Hpos) as [Heq [e He]].
    split; [exact Heq|]. now exists (lastErr_message (lastErr l)). }
  split; [exact Hsort|].
  split.
  { eapply Forall_impl; [|exact Hbound]. simpl. lia. }
  split; [exact Hlen | exact Hnone].
Qed.

(** X25 for a failing test with one retry. *)
Lemma X25_retry_budget_without_trace_witness :
  exists c' recs passed err f ks,
    run_test unreached login_suite "/work/out" (mkTest "Login" [step_nope])
      (start idle_world)
    = (Return (negb passed && negb (truthy (continueOnError login_suite))), c')
    /\ r_tests (results c')
       = (r_tests (results (start idle_world)) ++ recs
            ++ [test_entry "Login" passed err
                  (map (fun k =>
                          path_join "/work/out"
                            (sanitizeFilename "Login" ++ "_attempt"
                               ++ string_of_nat k ++ ".png"))
                     ks)])%list
    /\ attempts_made c' - attempts_made (start idle_world)
       = f + (if passed then 1 else 0).
Proof.
  destruct (X25_retry_budget_without_trace unreached login_suite "/work/out"
              (mkTest "Login" [step_nope]) (start idle_world) eq_refl)
    as (c' & recs & passed & err & f & ks & Hrun & Hrec & _ & Hn & _).
  - vm_compute. discriminate.
  - vm_compute. reflexivity.
  - exists c', recs, passed, err, f, ks. repeat split; assumption.
Defined.
